(** * YDownloader: the job coordinator, its record and its leaf helpers

    A shallow embedding of the domain layer of the repository
    ([src/domain/models.py], [src/domain/validators.py],
    [src/domain/download_service.py]) and of the progress hook of
    [src/infra/ytdlp_adapter.py], followed by the properties the
    specification states about them.

    Conventions of the embedding:
    - Python [int] is [Z]; [str] is [string]; [Optional[T]] is [option T];
    - a call that may raise returns a [Result]; code that mutates objects
      or calls collaborators runs in the monad [M] over a [World];
    - a path is the text [str(path)] gives, joined as [pathlib] joins
      paths of the POSIX flavour;
    - [datetime.now()] reads a clock kept in the world, [uuid.uuid4()]
      draws from a supply of the collaborators;
    - Python floats are IEEE 754 binary64 values, computed with the
      Standard Library's [SpecFloat]. *)

From Stdlib Require Import ZArith Ascii String List SpecFloat.
From stdpp Require Import base option list gmap strings pretty.

Local Open Scope string_scope.
Local Open Scope Z_scope.

(** ** Python values shared by all modules *)

(** The exceptions the modelled code raises or catches, all of them
    instances of [Exception].  [DomainError] stands for the subclasses
    of [src/domain/errors.py] other than [CancelledException]: they
    carry a technical message and a [user_message].  [Exception_] is
    any other exception, which has no [user_message] attribute.  What
    is raised outside the [Exception] hierarchy ([KeyboardInterrupt],
    [SystemExit]) is [Worker.NotException] below. *)
Inductive PyExc : Type :=
  | ValueError (message : string)
  | KeyError (key : string)
  | TypeError (message : string)
  | ImportError (message : string)
  | OverflowError (message : string)
  | CancelledException
  | DomainError (message user_message : string)
  | Exception_ (message : string).

(** [str(e)] *)
Definition str_exc (e : PyExc) : string :=
  match e with
  | ValueError m | TypeError m | ImportError m | OverflowError m
  | Exception_ m => m
  | KeyError k => "'" +:+ k +:+ "'"
  | CancelledException => "Download cancelled by user"
  | DomainError m _ => m
  end.

(** [getattr(e, "user_message")] when [hasattr(e, "user_message")] *)
Definition user_message_of (e : PyExc) : option string :=
  match e with
  | CancelledException => Some "Descarga cancelada."
  | DomainError _ um => Some um
  | _ => None
  end.

Inductive Result (A : Type) : Type :=
  | Ok (a : A)
  | Raise (e : PyExc).
Arguments Ok {A} a.
Arguments Raise {A} e.

(** Truth value of an [Optional[str]]: [None] and [""] are false. *)
Definition truthy_str (o : option string) : bool :=
  match o with
  | Some s => negb (String.eqb s "")
  | None => false
  end.

Definition Path : Type := string.
Definition datetime : Type := nat.

(** *** [pathlib]: paths of the POSIX flavour

    A [Path] is kept as the text [str(path)] gives.  [posix_str s] is
    [str(PurePosixPath(s))]: exactly two leading slashes are kept, any
    other number of them is one root slash; empty components and [.]
    are dropped, [..] is kept; the empty path is written [.]. *)
Fixpoint lstrip_slash (s : string) : string :=
  match s with
  | String "/" s' => lstrip_slash s'
  | _ => s
  end.

(** [s.split("/")] *)
Fixpoint split_slash (s : string) : list string :=
  match s with
  | EmptyString => [EmptyString]
  | String c s' =>
      match split_slash s' with
      | part :: parts =>
          if Ascii.eqb c "/" then EmptyString :: part :: parts
          else String c part :: parts
      | [] => [String c EmptyString]
      end
  end.

Definition posix_root (s : string) : string :=
  match (String.length s - String.length (lstrip_slash s))%nat with
  | O => ""
  | 2%nat => "//"
  | _ => "/"
  end.

Definition posix_parts (s : string) : list string :=
  List.filter (fun x => negb (String.eqb x "") && negb (String.eqb x "."))
              (split_slash (lstrip_slash s)).

(** ["/".join(parts)] *)
Definition join_slash (parts : list string) : string :=
  match parts with
  | [] => ""
  | part :: rest => fold_left (fun acc x => acc +:+ "/" +:+ x) rest part
  end.

Definition posix_format (root : string) (parts : list string) : Path :=
  let text := root +:+ join_slash parts in
  if String.eqb text "" then "." else text.

Definition posix_str (s : string) : Path :=
  posix_format (posix_root s) (posix_parts s).

(** [folder / name]: an absolute [name] replaces [folder], the
    components of a relative one follow those of [folder]. *)
Definition path_div (folder : Path) (name : string) : Path :=
  match name with
  | String "/" _ => posix_str name
  | _ => posix_format (posix_root folder)
                      (posix_parts folder ++ posix_parts name)
  end.

(** ** [src/domain/models.py] *)

Inductive DownloadFormat : Type := VIDEO | AUDIO.

Inductive DownloadStatus : Type :=
  | PENDING | CONNECTING | DOWNLOADING | PROCESSING
  | COMPLETED | CANCELLED | ERROR.

Definition format_value (f : DownloadFormat) : string :=
  match f with VIDEO => "video" | AUDIO => "audio" end.

Definition status_value (s : DownloadStatus) : string :=
  match s with
  | PENDING => "pending" | CONNECTING => "connecting"
  | DOWNLOADING => "downloading" | PROCESSING => "processing"
  | COMPLETED => "completed" | CANCELLED => "cancelled" | ERROR => "error"
  end.

Module Download.

Record t : Type := mk {
  url : string;
  output_path : Path;
  format : DownloadFormat;
  id : string;
  status : DownloadStatus;
  progress : Z;
  title : option string;
  error_message : option string;
  started_at : datetime;
  completed_at : option datetime
}.

(** The dataclass constructor followed by [__post_init__]: every field
    is a keyword argument; the callers below pass the defaults. *)
Definition __post_init__ (self : t) : Result t :=
  if (0 <=? progress self) && (progress self <=? 100) then Ok self
  else Raise (ValueError ("Progress must be between 0 and 100, got "
                          +:+ pretty (progress self))).

Definition init (url : string) (output_path : Path) (format : DownloadFormat)
    (id : string) (status : DownloadStatus) (progress : Z)
    (title error_message : option string)
    (started_at : datetime) (completed_at : option datetime) : Result t :=
  __post_init__ (mk url output_path format id status progress title
                    error_message started_at completed_at).

Definition update_progress (percent : Z) (status : DownloadStatus)
    (title : option string) (self : t) : t :=
  mk (url self) (output_path self) (format self) (id self)
     status
     (Z.max 0 (Z.min 100 percent))
     (if truthy_str title then title else Download.title self)
     (error_message self) (started_at self) (completed_at self).

Definition mark_completed (now : datetime) (self : t) : t :=
  mk (url self) (output_path self) (format self) (id self)
     COMPLETED 100 (title self) (error_message self) (started_at self)
     (Some now).

Definition mark_error (message : string) (now : datetime) (self : t) : t :=
  mk (url self) (output_path self) (format self) (id self)
     ERROR (progress self) (title self) (Some message) (started_at self)
     (Some now).

Definition mark_cancelled (now : datetime) (self : t) : t :=
  mk (url self) (output_path self) (format self) (id self)
     CANCELLED (progress self) (title self) (error_message self)
     (started_at self) (Some now).

Definition is_active (self : t) : bool :=
  match status self with
  | PENDING | CONNECTING | DOWNLOADING | PROCESSING => true
  | _ => false
  end.

Definition is_terminal (self : t) : bool :=
  match status self with
  | COMPLETED | CANCELLED | ERROR => true
  | _ => false
  end.

(** [download.output_path = output_path] in the worker. *)
Definition set_output_path (p : Path) (self : t) : t :=
  mk (url self) p (format self) (id self) (status self) (progress self)
     (title self) (error_message self) (started_at self) (completed_at self).

End Download.

Module HistoryEntry.

Record t : Type := mk {
  id : string;
  title : string;
  output_path : string;
  status : string;
  format : string;
  completed_at : string
}.

(** [isoformat] renders a timestamp; it is a parameter of the model. *)
Definition from_download (isoformat : datetime -> string)
    (download : Download.t) : t :=
  mk (Download.id download)
     (match Download.title download with
      | Some s => if String.eqb s "" then "Sin título" else s
      | None => "Sin título"
      end)
     (Download.output_path download)
     (status_value (Download.status download))
     (format_value (Download.format download))
     (match Download.completed_at download with
      | Some c => isoformat c
      | None => ""
      end).

Definition to_dict (self : t) : gmap string string :=
  <["id" := id self]>
  (<["title" := title self]>
  (<["output_path" := output_path self]>
  (<["status" := status self]>
  (<["format" := format self]>
  (<["completed_at" := completed_at self]> ∅))))).

(** [data[key]]: a missing key raises [KeyError]. *)
Definition getitem (data : gmap string string) (key : string) : Result string :=
  match data !! key with
  | Some v => Ok v
  | None => Raise (KeyError key)
  end.

Definition from_dict (data : gmap string string) : Result t :=
  match getitem data "id" with Raise e => Raise e | Ok i =>
  match getitem data "title" with Raise e => Raise e | Ok ti =>
  match getitem data "output_path" with Raise e => Raise e | Ok o =>
  match getitem data "status" with Raise e => Raise e | Ok s =>
  match getitem data "format" with Raise e => Raise e | Ok f =>
  match getitem data "completed_at" with Raise e => Raise e | Ok c =>
    Ok (mk i ti o s f c)
  end end end end end end.

End HistoryEntry.

(** ** [src/domain/validators.py] *)

Module Validators.

Record ValidationResult : Type := mkValidationResult {
  is_valid : bool;
  error_message : string;
  error_code : string
}.

(** *** [str.strip()]

    Strings hold UTF-8 text.  [whitespace] lists the encodings of the
    code points for which [str.isspace()] holds: U+0009..U+000D,
    U+001C..U+0020, U+0085, U+00A0, U+1680, U+2000..U+200A, U+2028,
    U+2029, U+202F, U+205F and U+3000. *)
Definition chr1 (a : N) : string := String (ascii_of_N a) "".
Definition chr2 (a b : N) : string := String (ascii_of_N a) (chr1 b).
Definition chr3 (a b c : N) : string := String (ascii_of_N a) (chr2 b c).

Definition whitespace : list string :=
  map chr1 [9; 10; 11; 12; 13; 28; 29; 30; 31; 32]%N
  ++ [chr2 194 133; chr2 194 160; chr3 225 154 128]
  ++ map (chr3 226 128) [128; 129; 130; 131; 132; 133; 134; 135; 136; 137; 138]%N
  ++ [chr3 226 128 168; chr3 226 128 169; chr3 226 128 175;
      chr3 226 129 159; chr3 227 128 128].

(** [drop_prefix p s] is the rest of [s] after the prefix [p]. *)
Fixpoint drop_prefix (p s : string) : option string :=
  match p, s with
  | EmptyString, _ => Some s
  | String a p', String b s' =>
      if Ascii.eqb a b then drop_prefix p' s' else None
  | String _ _, EmptyString => None
  end.

Fixpoint drop_first (ps : list string) (s : string) : option string :=
  match ps with
  | [] => None
  | p :: ps' =>
      match drop_prefix p s with
      | Some r => Some r
      | None => drop_first ps' s
      end
  end.

Fixpoint strip_left (ps : list string) (fuel : nat) (s : string) : string :=
  match fuel with
  | O => s
  | S fuel' =>
      match drop_first ps s with
      | Some r => strip_left ps fuel' r
      | None => s
      end
  end.

Definition lstrip (s : string) : string :=
  strip_left whitespace (String.length s) s.

Definition rstrip (s : string) : string :=
  String.rev (strip_left (map String.rev whitespace) (String.length s)
                         (String.rev s)).

Definition strip (s : string) : string := rstrip (lstrip s).

(** *** [urllib.parse.urlparse]

    The standard-library parser is a parameter of [validate]: of its
    result the validator reads [scheme] and [netloc] only. *)
Record ParseResult : Type := mkParseResult {
  scheme : string;
  netloc : string
}.

(** *** The yt-dlp extractor registry, as [_is_site_supported] sees it *)
Record Extractor : Type := mkExtractor {
  has_suitable : bool;                  (* hasattr(extractor, "suitable") *)
  suitable : string -> Result bool      (* extractor.suitable(url) *)
}.

Inductive Registry : Type :=
  | NotInstalled                                  (* import yt_dlp fails *)
  | Installed (gen_extractors : Result (list Extractor)).

Definition ALLOWED_SCHEMES : list string := ["http"; "https"].

(** The [for] loop of [_is_site_supported]; [Ok false] when it ends
    without a match. *)
Fixpoint any_suitable (extractors : list Extractor) (url : string)
    : Result bool :=
  match extractors with
  | [] => Ok false
  | extractor :: rest =>
      if has_suitable extractor then
        match suitable extractor url with
        | Ok true => Ok true
        | Ok false => any_suitable rest url
        | Raise e => Raise e
        end
      else any_suitable rest url
  end.

Definition _is_site_supported (yt_dlp : Registry) (url : string) : bool :=
  match yt_dlp with
  | NotInstalled => true
  | Installed (Raise _) => true
  | Installed (Ok extractors) =>
      match any_suitable extractors url with
      | Ok found => found
      | Raise _ => true
      end
  end.

Definition invalid_format : ValidationResult :=
  mkValidationResult false
    "La URL ingresada no es válida. Por favor verifica e intenta de nuevo."
    "INVALID_FORMAT".

Definition validate (urlparse : string -> Result ParseResult)
    (yt_dlp : Registry) (url : string) : ValidationResult :=
  if String.eqb url "" || String.eqb (strip url) "" then
    mkValidationResult false "Por favor ingresa una URL." "EMPTY_URL"
  else
    let url := strip url in
    match urlparse url with
    | Raise _ => invalid_format
    | Ok parsed =>
        if negb (existsb (String.eqb (scheme parsed)) ALLOWED_SCHEMES)
        then invalid_format
        else if String.eqb (netloc parsed) "" then invalid_format
        else if negb (_is_site_supported yt_dlp url) then
          mkValidationResult false
            "Este sitio no está soportado actualmente." "UNSUPPORTED_SITE"
        else mkValidationResult true "" ""
    end.

(** The reason codes under the names the specification gives them. *)
Inductive reason_code : Type := EMPTY | MALFORMED | UNSUPPORTED_SITE.

Definition reason_code_of (r : ValidationResult) : option reason_code :=
  if String.eqb (error_code r) "EMPTY_URL" then Some EMPTY
  else if String.eqb (error_code r) "INVALID_FORMAT" then Some MALFORMED
  else if String.eqb (error_code r) "UNSUPPORTED_SITE" then Some UNSUPPORTED_SITE
  else None.

(** *** A reference instance of [urlparse]

    It follows CPython's [urlsplit] (3.11.4 and later, where a
    bracketed host is checked) for the two components the validator
    reads: leading C0 controls and spaces are stripped, tab,
    CR and LF are removed, a scheme is split off at the first colon
    when the text before it starts with an ASCII letter and consists of
    scheme characters, and the netloc is what follows a leading [//] up
    to the first of [/], [?] and [#].  A netloc with one bracket but
    not the other raises [ValueError]; with both, the host must be a
    bracketed IPv6 or IPvFuture address ([_check_bracketed_netloc]).
    The instance is for a netloc of ASCII characters: for any other,
    CPython also runs an NFKC check ([_checknetloc]) that is not
    modelled. *)
Definition code (c : ascii) : N := N_of_ascii c.

Definition is_alpha (c : ascii) : bool :=
  ((65 <=? code c) && (code c <=? 90) || (97 <=? code c) && (code c <=? 122))%N.

Definition is_scheme_char (c : ascii) : bool :=
  (is_alpha c || (48 <=? code c) && (code c <=? 57)
   || (code c =? 43) || (code c =? 45) || (code c =? 46))%N.

Definition lower (c : ascii) : ascii :=
  if ((65 <=? code c) && (code c <=? 90))%N
  then ascii_of_N (code c + 32) else c.

Fixpoint lstrip_c0 (s : string) : string :=
  match s with
  | String c s' => if (code c <=? 32)%N then lstrip_c0 s' else s
  | EmptyString => EmptyString
  end.

Fixpoint remove_unsafe (s : string) : string :=
  match s with
  | String c s' =>
      if ((code c =? 9) || (code c =? 10) || (code c =? 13))%N
      then remove_unsafe s' else String c (remove_unsafe s')
  | EmptyString => EmptyString
  end.

(** [url.find(":")]: the text before and after the first colon. *)
Fixpoint split_colon (s : string) : option (string * string) :=
  match s with
  | EmptyString => None
  | String c s' =>
      if (code c =? 58)%N then Some (EmptyString, s')
      else match split_colon s' with
           | Some (pre, post) => Some (String c pre, post)
           | None => None
           end
  end.

Fixpoint all_chars (f : ascii -> bool) (s : string) : bool :=
  match s with
  | EmptyString => true
  | String c s' => f c && all_chars f s'
  end.

Fixpoint map_chars (f : ascii -> ascii) (s : string) : string :=
  match s with
  | EmptyString => EmptyString
  | String c s' => String (f c) (map_chars f s')
  end.

Fixpoint contains (n : N) (s : string) : bool :=
  match s with
  | EmptyString => false
  | String c s' => (code c =? n)%N || contains n s'
  end.

(** [_splitnetloc(url, 2)] after the two slashes are removed. *)
Fixpoint take_netloc (s : string) : string :=
  match s with
  | EmptyString => EmptyString
  | String c s' =>
      if ((code c =? 47) || (code c =? 63) || (code c =? 35))%N
      then EmptyString else String c (take_netloc s')
  end.

Definition split_scheme (url : string) : string * string :=
  match split_colon url with
  | Some (String c pre, post) =>
      if is_alpha c && all_chars is_scheme_char pre
      then (map_chars lower (String c pre), post)
      else (EmptyString, url)
  | _ => (EmptyString, url)
  end.

(** [s.rpartition(sep)[2]]: the text after the last [sep], all of [s]
    when there is none. *)
Fixpoint after_last (sep : N) (s : string) : string :=
  match s with
  | EmptyString => EmptyString
  | String c s' =>
      if contains sep s' then after_last sep s'
      else if (code c =? sep)%N then s' else s
  end.

(** [s.partition(sep)]: the text before the first [sep], whether there
    is one, and the text after it. *)
Fixpoint str_partition (sep : N) (s : string) : string * bool * string :=
  match s with
  | EmptyString => (EmptyString, false, EmptyString)
  | String c s' =>
      if (code c =? sep)%N then (EmptyString, true, s')
      else let '(before, found, after) := str_partition sep s' in
           (String c before, found, after)
  end.

(** [s.split(sep)] *)
Fixpoint split_on (sep : N) (s : string) : list string :=
  match s with
  | EmptyString => [EmptyString]
  | String c s' =>
      match split_on sep s' with
      | part :: parts =>
          if (code c =? sep)%N then EmptyString :: part :: parts
          else String c part :: parts
      | [] => [String c EmptyString]
      end
  end.

Definition is_digit (c : ascii) : bool :=
  ((48 <=? code c) && (code c <=? 57))%N.

Definition is_hex (c : ascii) : bool :=
  (is_digit c || (65 <=? code c) && (code c <=? 70)
   || (97 <=? code c) && (code c <=? 102))%N.

Fixpoint decimal (s : string) (acc : N) : N :=
  match s with
  | EmptyString => acc
  | String c s' => decimal s' (10 * acc + (code c - 48))%N
  end.

(** [IPv4Address._parse_octet] returns: one to three ASCII digits, no
    leading zero, at most 255. *)
Definition valid_octet (s : string) : bool :=
  negb (String.eqb s "") && all_chars is_digit s
  && (String.length s <=? 3)%nat
  && (String.eqb s "0" || negb (String.eqb (String.substring 0 1 s) "0"))
  && (decimal s 0 <=? 255)%N.

(** [IPv4Address(s)] returns. *)
Definition is_ipv4 (s : string) : bool :=
  negb (String.eqb s "")
  && (List.length (split_on 46 s) =? 4)%nat
  && forallb valid_octet (split_on 46 s).

(** [IPv6Address._parse_hextet] returns: one to four hex digits. *)
Definition valid_hextet (s : string) : bool :=
  negb (String.eqb s "") && all_chars is_hex s
  && (String.length s <=? 4)%nat.

(** The indices of the empty parts, from index [i] on. *)
Fixpoint empty_parts (i : nat) (parts : list string) : list nat :=
  match parts with
  | [] => []
  | part :: rest =>
      if String.eqb part "" then i :: empty_parts (S i) rest
      else empty_parts (S i) rest
  end.

(** [IPv6Address._ip_int_from_string(addr)] returns.  An IPv4 suffix is
    replaced by two hextets, written here as zeros: their value plays
    no part in the checks. *)
Definition is_ipv6_address (addr : string) : bool :=
  if String.eqb addr "" then false else
  let parts := split_on 58 addr in
  if (List.length parts <? 3)%nat then false else
  let last_part := List.last parts "" in
  let suffix_ok := negb (contains 46 last_part) || is_ipv4 last_part in
  let parts :=
    if contains 46 last_part then (List.removelast parts ++ ["0"; "0"])%list
    else parts in
  let n := List.length parts in
  let first_empty := String.eqb (List.nth 0 parts "x") "" in
  let last_empty := String.eqb (List.last parts "x") "" in
  suffix_ok && (n <=? 9)%nat &&
  match List.filter (fun i => (1 <=? i)%nat && (i <? n - 1)%nat)
                    (empty_parts 0 parts) with
  | [] =>
      (n =? 8)%nat && negb first_empty && negb last_empty
      && forallb valid_hextet parts
  | [skip_index] =>
      let parts_hi := (if first_empty then skip_index - 1 else skip_index)%nat in
      let parts_lo :=
        (if last_empty then n - skip_index - 1 - 1 else n - skip_index - 1)%nat in
      (negb first_empty || (parts_hi =? 0)%nat)
      && (negb last_empty || (parts_lo =? 0)%nat)
      && (parts_hi + parts_lo <? 8)%nat
      && forallb valid_hextet (List.firstn parts_hi parts)
      && forallb valid_hextet (List.skipn (n - parts_lo) parts)
  | _ => false
  end.

(** [IPv6Address(s)] returns: a scope id after [%] is not empty and has
    no [%] itself. *)
Definition is_ipv6 (s : string) : bool :=
  let '(addr, sep, scope_id) := str_partition 37 s in
  negb (sep && (String.eqb scope_id "" || contains 37 scope_id))
  && is_ipv6_address addr.

(** The pattern [\Av[a-fA-F0-9]+\..+\Z] matches [s]. *)
Fixpoint hex_run_then_dot (seen : bool) (s : string) : bool :=
  match s with
  | EmptyString => false
  | String c s' =>
      if is_hex c then hex_run_then_dot true s'
      else seen && (code c =? 46)%N && negb (String.eqb s' "")
  end.

Definition is_ipvfuture (s : string) : bool :=
  match s with
  | String "v" s' => hex_run_then_dot false s'
  | _ => false
  end.

(** [_check_bracketed_host]; in the last message [repr(hostname)] is
    written with single quotes and no escapes. *)
Definition _check_bracketed_host (hostname : string) : Result unit :=
  match hostname with
  | String "v" _ =>
      if is_ipvfuture hostname then Ok ()
      else Raise (ValueError "IPvFuture address is invalid")
  | _ =>
      if is_ipv4 hostname
      then Raise (ValueError "An IPv4 address cannot be in brackets")
      else if is_ipv6 hostname then Ok ()
      else Raise (ValueError ("'" +:+ hostname +:+
                    "' does not appear to be an IPv4 or IPv6 address"))
  end.

Definition _check_bracketed_netloc (netloc : string) : Result unit :=
  let hostname_and_port := after_last 64 netloc in
  let '(before_bracket, have_open_br, bracketed) :=
    str_partition 91 hostname_and_port in
  if have_open_br then
    if negb (String.eqb before_bracket "")
    then Raise (ValueError "Invalid IPv6 URL")
    else
      let '(hostname, _, port) := str_partition 93 bracketed in
      match port with
      | EmptyString | String ":" _ => _check_bracketed_host hostname
      | _ => Raise (ValueError "Invalid IPv6 URL")
      end
  else _check_bracketed_host (str_partition 58 hostname_and_port).1.1.

Definition urlparse_model (url : string) : Result ParseResult :=
  let url := remove_unsafe (lstrip_c0 url) in
  let '(scheme, rest) := split_scheme url in
  match rest with
  | String "/" (String "/" r) =>
      let netloc := take_netloc r in
      if xorb (contains 91 netloc) (contains 93 netloc)
      then Raise (ValueError "Invalid IPv6 URL")
      else if contains 91 netloc && contains 93 netloc then
        match _check_bracketed_netloc netloc with
        | Raise e => Raise e
        | Ok _ => Ok (mkParseResult scheme netloc)
        end
      else Ok (mkParseResult scheme netloc)
  | _ => Ok (mkParseResult scheme EmptyString)
  end.

(** *** The host of a netloc

    [_hostinfo[0]] of a parse result: of the text after the last [@],
    what stands between brackets when there is an opening bracket, and
    what precedes the first colon otherwise.  [parsed.hostname] is
    [None] exactly when this text is empty. *)
Definition hostinfo_hostname (netloc : string) : string :=
  let hostinfo := after_last 64 netloc in
  let '(_, have_open_br, bracketed) := str_partition 91 hostinfo in
  if have_open_br then (str_partition 93 bracketed).1.1
  else (str_partition 58 hostinfo).1.1.

Definition hostname_is_None (parsed : ParseResult) : bool :=
  String.eqb (hostinfo_hostname (netloc parsed)) "".

End Validators.

(** ** [src/infra/ytdlp_adapter.py]: the progress hook *)

Module YtdlpAdapter.

(** Python floats: binary64. *)
Definition prec : Z := 53.
Definition emax : Z := 1024.

(** [float(n)] *)
Definition float_of_int (n : Z) : spec_float :=
  binary_normalize prec emax n 0 false.

(** [a / b] on two ints with [b <> 0]: the exact quotient rounded to
    the nearest float, [OverflowError] when it is out of range. *)
Definition int_as_exact (n : Z) : spec_float :=
  match n with
  | Z0 => S754_zero false
  | Zpos m => S754_finite false m 0
  | Zneg m => S754_finite true m 0
  end.

Definition int_truediv (a b : Z) : Result spec_float :=
  match SFdiv prec emax (int_as_exact a) (int_as_exact b) with
  | S754_infinity _ =>
      Raise (OverflowError "integer division result too large for a float")
  | q => Ok q
  end.

(** [x * n] for a float [x] and an int [n]. *)
Definition float_mul_int (x : spec_float) (n : Z) : spec_float :=
  SFmul prec emax x (float_of_int n).

(** [int(x)]: truncation towards zero. *)
Definition int_of_float (x : spec_float) : Result Z :=
  match x with
  | S754_zero _ => Ok 0
  | S754_finite s m e =>
      let magnitude :=
        if 0 <=? e then Z.pos m * 2 ^ e else Z.pos m / 2 ^ (- e) in
      Ok (if s then - magnitude else magnitude)
  | S754_infinity _ =>
      Raise (OverflowError "cannot convert float infinity to integer")
  | S754_nan => Raise (ValueError "cannot convert float NaN to integer")
  end.

(** A value found in the dictionary yt-dlp passes to the hook: a byte
    count or [None]. *)
Inductive PyVal : Type :=
  | PyNone
  | PyInt (n : Z).

Definition truthy (v : PyVal) : bool :=
  match v with
  | PyNone => false
  | PyInt n => negb (n =? 0)
  end.

(** The keys of [d] the hook reads; [None] in an [option] field is an
    absent key. *)
Record HookDict : Type := mkHookDict {
  d_status : option string;
  total_bytes : option PyVal;
  total_bytes_estimate : option PyVal;
  downloaded_bytes : option PyVal;
  info_title : option string;             (* d["info_dict"]["title"] *)
  filename : option string
}.

(** The dictionary the hook hands to [on_progress]. *)
Record ProgressInfo : Type := mkProgressInfo {
  percent : option Z;
  status : option string;
  title : option string
}.

(** [int((downloaded / total) * 100)] *)
Definition percent_of (downloaded total : Z) : Result Z :=
  match int_truediv downloaded total with
  | Raise e => Raise e
  | Ok q => int_of_float (float_mul_int q 100)
  end.

(** The [status == "downloading"] branch up to [percent]. *)
Definition compute_percent (d : HookDict) : Result Z :=
  let total :=
    let a := default PyNone (total_bytes d) in
    if truthy a then a else default (PyInt 0) (total_bytes_estimate d) in
  let downloaded := default (PyInt 0) (downloaded_bytes d) in
  match total with
  | PyNone =>
      Raise (TypeError "'>' not supported between instances of 'NoneType' and 'int'")
  | PyInt t =>
      if 0 <? t then
        match downloaded with
        | PyNone =>
            Raise (TypeError "unsupported operand type(s) for /: 'NoneType' and 'int'")
        | PyInt dl => percent_of dl t
        end
      else Ok 0
  end.

(** [progress_hook(d)]: the argument of the [on_progress] call it makes,
    if any.  [cancel_event] is [self._cancel_event.is_set()]. *)
Definition progress_hook (cancel_event : bool) (d : HookDict)
    : Result (option ProgressInfo) :=
  if cancel_event then Raise CancelledException
  else
    let status := default "" (d_status d) in
    if String.eqb status "downloading" then
      match compute_percent d with
      | Raise e => Raise e
      | Ok percent =>
          Ok (Some (mkProgressInfo (Some percent) (Some "downloading")
                                   (info_title d)))
      end
    else if String.eqb status "finished" then
      Ok (Some (mkProgressInfo (Some 100) (Some "processing") (info_title d)))
    else Ok None.

End YtdlpAdapter.

(** ** [src/domain/download_service.py] *)

Module DownloadService.

(** A reference to a [Download] object.  The coordinator's slot, the
    worker and the caller of [start_download] hold the same object. *)
Definition ref : Type := nat.

(** An invocation of one of the three sinks handed to [start_download].
    [on_complete] receives the object; the event also keeps the
    object's fields at the time of the call. *)
Inductive Event : Type :=
  | on_progress (percent : Z) (status : DownloadStatus) (title : option string)
  | on_complete (download : ref) (snapshot : Download.t)
  | on_error (message : string).

(** What [self._downloader.download] does in one call: the dictionaries
    it passes to its [on_progress] argument, in order, and how it ends. *)
Record EngineRun : Type := mkEngineRun {
  reports : list YtdlpAdapter.ProgressInfo;
  outcome : Result Path
}.

(** The arguments of the started thread (the sinks are the trace). *)
Record Thread : Type := mkThread {
  thread_download : ref;
  thread_output_folder : Path
}.

(** The collaborators given to [__init__], and the two sources of
    fresh values. *)
Record Collaborators : Type := mkCollaborators {
  validator_validate : string -> Validators.ValidationResult;
  file_system_can_write : Path -> bool;
  downloader_download : string -> Path -> DownloadFormat -> EngineRun;
  history_store : option (HistoryEntry.t -> option PyExc);
                                 (* [add]: [Some e] when it raises [e] *)
  uuid4 : nat -> string;
  isoformat : datetime -> string
}.

Record World : Type := mkWorld {
  objects : gmap ref Download.t;
  _current_download : option ref;
  threads : list Thread;            (* started and not yet run *)
  cancel_calls : nat;               (* calls of [self._downloader.cancel()] *)
  clock : datetime;
  uuid_drawn : nat;
  sink_calls : list Event;          (* oldest first *)
  history_added : list HistoryEntry.t
}.

Definition set_objects (f : gmap ref Download.t -> gmap ref Download.t)
    (w : World) : World :=
  mkWorld (f (objects w)) (_current_download w) (threads w) (cancel_calls w)
          (clock w) (uuid_drawn w) (sink_calls w) (history_added w).

Definition set_current (r : option ref) (w : World) : World :=
  mkWorld (objects w) r (threads w) (cancel_calls w)
          (clock w) (uuid_drawn w) (sink_calls w) (history_added w).

Definition set_threads (f : list Thread -> list Thread) (w : World) : World :=
  mkWorld (objects w) (_current_download w) (f (threads w)) (cancel_calls w)
          (clock w) (uuid_drawn w) (sink_calls w) (history_added w).

Definition incr_cancel_calls (w : World) : World :=
  mkWorld (objects w) (_current_download w) (threads w) (S (cancel_calls w))
          (clock w) (uuid_drawn w) (sink_calls w) (history_added w).

Definition tick (w : World) : World :=
  mkWorld (objects w) (_current_download w) (threads w) (cancel_calls w)
          (S (clock w)) (uuid_drawn w) (sink_calls w) (history_added w).

Definition draw_uuid (w : World) : World :=
  mkWorld (objects w) (_current_download w) (threads w) (cancel_calls w)
          (clock w) (S (uuid_drawn w)) (sink_calls w) (history_added w).

Definition log (e : Event) (w : World) : World :=
  mkWorld (objects w) (_current_download w) (threads w) (cancel_calls w)
          (clock w) (uuid_drawn w) (sink_calls w ++ [e]) (history_added w).

Definition add_history (h : HistoryEntry.t) (w : World) : World :=
  mkWorld (objects w) (_current_download w) (threads w) (cancel_calls w)
          (clock w) (uuid_drawn w) (sink_calls w) (h :: history_added w).

(** *** The monad of the coordinator's code: state and exceptions *)
Definition M (A : Type) : Type := World -> Result A * World.

Definition ret {A : Type} (a : A) : M A := fun w => (Ok a, w).

Definition bind {A B : Type} (m : M A) (f : A -> M B) : M B := fun w =>
  match m w with
  | (Ok a, w') => f a w'
  | (Raise e, w') => (Raise e, w')
  end.

Notation "'let*' x ':=' m 'in' k" := (bind m (fun x => k))
  (at level 10, x name, m at level 100, k at level 200).
Notation "m '>>' k" := (bind m (fun _ => k))
  (at level 100, right associativity).

Definition raise {A : Type} (e : PyExc) : M A := fun w => (Raise e, w).

Definition lift {A : Type} (r : Result A) : M A := fun w => (r, w).

(** [try: body  except Exception as e: handler e] *)
Definition try_except {A : Type} (body : M A) (handler : PyExc -> M A) : M A :=
  fun w =>
    match body w with
    | (Ok a, w') => (Ok a, w')
    | (Raise e, w') => handler e w'
    end.

Definition read (r : ref) : M Download.t := fun w =>
  match objects w !! r with
  | Some d => (Ok d, w)
  | None => (Raise (Exception_ "no such object"), w)
  end.

Definition modify (r : ref) (f : Download.t -> Download.t) : M unit :=
  fun w => (Ok (), set_objects (alter f r) w).

Definition alloc (d : Download.t) : M ref := fun w =>
  let r := fresh (dom (objects w)) in
  (Ok r, set_objects (insert r d) w).

(** [datetime.now()] *)
Definition now : M datetime := fun w => (Ok (clock w), tick w).

(** A call of a sink, taken to return; [Worker] below reads the worker
    with sinks that may raise. *)
Definition call (e : Event) : M unit := fun w => (Ok (), log e w).

(** A state change that cannot raise. *)
Definition update (f : World -> World) : M unit := fun w => (Ok (), f w).

Definition call_on_complete (download : ref) : M unit :=
  let* d := read download in call (on_complete download d).

Fixpoint for_each {A : Type} (f : A -> M unit) (l : list A) : M unit :=
  match l with
  | [] => ret ()
  | x :: l' => f x >> for_each f l'
  end.

Section Service.

Variable self : Collaborators.

(** [Download(url=..., output_path=..., format=...)]: the defaults
    draw an id and read the clock. *)
Definition draw : M string := fun w =>
  (Ok (uuid4 self (uuid_drawn w)), draw_uuid w).

Definition new_download (url : string) (output_path : Path)
    (format : DownloadFormat) : M ref :=
  let* id := draw in
  let* started_at := now in
  let* d := lift (Download.init url output_path format id PENDING 0 None None
                          started_at None) in
  alloc d.

Definition current_is_active : M bool := fun w =>
  match _current_download w with
  | None => (Ok false, w)
  | Some r => (let* d := read r in ret (Download.is_active d)) w
  end.

Definition start_download (url : string) (output_folder : Path)
    (format : DownloadFormat) : M (option ref) :=
  let* active := current_is_active in
  if active then
    call (on_error
      "Ya hay una descarga en progreso. Cancela la actual para iniciar otra.") >>
    ret None
  else
    let validation := validator_validate self url in
    if negb (Validators.is_valid validation) then
      call (on_error (Validators.error_message validation)) >>
      ret None
    else if negb (file_system_can_write self output_folder) then
      call (on_error
        ("No tienes permiso para guardar archivos en esta carpeta. "
         +:+ "Por favor selecciona otra carpeta.")) >>
      ret None
    else
      let* download := new_download url (path_div output_folder "downloading")
                              format in
      update (set_current (Some download)) >>
      update (set_threads (fun ts => (ts ++ [mkThread download output_folder])%list)) >>
      ret (Some download).

(** The closure [handle_progress] of [_execute_download]. *)
Definition handle_progress (download : ref)
    (progress_info : YtdlpAdapter.ProgressInfo) : M unit :=
  let percent := default 0 (YtdlpAdapter.percent progress_info) in
  let title := YtdlpAdapter.title progress_info in
  let status :=
    match YtdlpAdapter.status progress_info with
    | Some s => if String.eqb s "processing" then PROCESSING else DOWNLOADING
    | None => DOWNLOADING
    end in
  modify download (Download.update_progress percent status title) >>
  call (on_progress percent status title).

(** [self._downloader.download(url, output_folder, format, on_progress)] *)
Definition download_call (url : string) (output_folder : Path)
    (format : DownloadFormat)
    (on_progress : YtdlpAdapter.ProgressInfo -> M unit) : M Path :=
  let run := downloader_download self url output_folder format in
  for_each on_progress (reports run) >>
  lift (outcome run).

Definition mark (download : ref)
    (f : datetime -> Download.t -> Download.t) : M unit :=
  let* t := now in modify download (f t).

(** [self._history_store.add(entry)] *)
Definition history_add (add : HistoryEntry.t -> option PyExc)
    (entry : HistoryEntry.t) : M unit :=
  match add entry with
  | Some e => raise e
  | None => update (add_history entry)
  end.

(** The [try] block, then the two [except] clauses.  The [finally]
    clause reads the slot under the lock and executes [pass]. *)
Definition _execute_download (download : ref) (output_folder : Path)
    : M unit :=
  try_except
    (modify download (Download.update_progress 0 CONNECTING None) >>
     call (on_progress 0 CONNECTING None) >>
     let* d := read download in
     let* output_path := download_call (Download.url d) output_folder
                                 (Download.format d)
                                 (handle_progress download) in
     modify download (Download.set_output_path output_path) >>
     mark download Download.mark_completed >>
     match history_store self with
     | Some add =>
         let* d := read download in
         history_add add (HistoryEntry.from_download (isoformat self) d)
     | None => ret ()
     end >>
     call_on_complete download)
    (fun e =>
       match e with
       | CancelledException =>
           mark download Download.mark_cancelled >>
           call_on_complete download
       | _ =>
           let error_message := default (str_exc e) (user_message_of e) in
           mark download (Download.mark_error error_message) >>
           call (on_error error_message)
       end).

Definition cancel_download (download_id : string) : M bool := fun w =>
  match _current_download w with
  | None => (Ok false, w)
  | Some r =>
      (let* d := read r in
       if negb (String.eqb (Download.id d) download_id) then ret false
       else if negb (Download.is_active d) then ret false
       else update incr_cancel_calls >> ret true) w
  end.

Definition get_current_download : M (option ref) := fun w =>
  (Ok (_current_download w), w).


End Service.

End DownloadService.

(** ** Sequences of operations on a record

    The four methods of [Download] that assign fields, as data, so that
    properties can range over every sequence of calls.  Each call of a
    [mark_*] method reads the clock; in a sequence the clock advances by
    one per operation. *)

Inductive Op : Type :=
  | UpdateProgress (percent : Z) (status : DownloadStatus) (title : option string)
  | MarkCompleted
  | MarkError (message : string)
  | MarkCancelled.

Definition apply_op (now : datetime) (op : Op) (d : Download.t) : Download.t :=
  match op with
  | UpdateProgress percent status title =>
      Download.update_progress percent status title d
  | MarkCompleted => Download.mark_completed now d
  | MarkError message => Download.mark_error message now d
  | MarkCancelled => Download.mark_cancelled now d
  end.

Fixpoint apply_ops (now : datetime) (ops : list Op) (d : Download.t)
    : Download.t :=
  match ops with
  | [] => d
  | op :: ops' => apply_ops (S now) ops' (apply_op now op d)
  end.

(** The state an operation assigns. *)
Definition op_status (op : Op) : DownloadStatus :=
  match op with
  | UpdateProgress _ status _ => status
  | MarkCompleted => COMPLETED
  | MarkError _ => ERROR
  | MarkCancelled => CANCELLED
  end.

Definition terminal (s : DownloadStatus) : bool :=
  match s with
  | COMPLETED | CANCELLED | ERROR => true
  | _ => false
  end.

Definition in_range (d : Download.t) : Prop :=
  0 <= Download.progress d <= 100.

(** What it means for the registry to be unavailable or to fail on
    [url]: the import fails, listing the extractors fails, or an
    extractor raises before any has matched. *)
Definition registry_fails (yt_dlp : Validators.Registry) (url : string) : Prop :=
  yt_dlp = Validators.NotInstalled
  \/ (exists e, yt_dlp = Validators.Installed (Raise e))
  \/ (exists extractors e,
        yt_dlp = Validators.Installed (Ok extractors)
        /\ Validators.any_suitable extractors url = Raise e).

(** ** The worker's effects, as functions of the world

    [handle_progress] assigns to the record and calls the progress sink;
    the definitions below name what one report and a list of reports do,
    so that the worker's result can be written down. *)

Definition status_of_report (progress_info : YtdlpAdapter.ProgressInfo)
    : DownloadStatus :=
  match YtdlpAdapter.status progress_info with
  | Some s => if String.eqb s "processing" then PROCESSING else DOWNLOADING
  | None => DOWNLOADING
  end.

Definition update_of (progress_info : YtdlpAdapter.ProgressInfo)
    : Download.t -> Download.t :=
  Download.update_progress
    (default 0 (YtdlpAdapter.percent progress_info))
    (status_of_report progress_info)
    (YtdlpAdapter.title progress_info).

Definition event_of (progress_info : YtdlpAdapter.ProgressInfo)
    : DownloadService.Event :=
  DownloadService.on_progress
    (default 0 (YtdlpAdapter.percent progress_info))
    (status_of_report progress_info)
    (YtdlpAdapter.title progress_info).

Fixpoint after_reports (r : DownloadService.ref)
    (reports : list YtdlpAdapter.ProgressInfo) (w : DownloadService.World)
    : DownloadService.World :=
  match reports with
  | [] => w
  | progress_info :: rest =>
      after_reports r rest
        (DownloadService.log (event_of progress_info)
           (DownloadService.set_objects (alter (update_of progress_info) r) w))
  end.

Definition run_reports (reports : list YtdlpAdapter.ProgressInfo)
    (d : Download.t) : Download.t :=
  fold_left (fun d progress_info => update_of progress_info d) reports d.

(** The world when the engine call ends: CONNECTING has been announced
    and every report handled. *)
Definition connecting (r : DownloadService.ref) (w : DownloadService.World)
    : DownloadService.World :=
  DownloadService.log (DownloadService.on_progress 0 CONNECTING None)
    (DownloadService.set_objects
       (alter (Download.update_progress 0 CONNECTING None) r) w).

Definition engine_run (self : DownloadService.Collaborators)
    (folder : Path) (d : Download.t) : DownloadService.EngineRun :=
  DownloadService.downloader_download self (Download.url d) folder
                                      (Download.format d).

Definition engine_done (self : DownloadService.Collaborators)
    (r : DownloadService.ref) (folder : Path) (d : Download.t)
    (w : DownloadService.World) : DownloadService.World :=
  after_reports r (DownloadService.reports (engine_run self folder d))
                (connecting r w).

(** The record when the engine call ends. *)
Definition record_at_engine_end (self : DownloadService.Collaborators)
    (folder : Path) (d : Download.t) : Download.t :=
  run_reports (DownloadService.reports (engine_run self folder d))
              (Download.update_progress 0 CONNECTING None d).

(** What [_execute_download] does once the engine call has ended with
    [result]: the rest of the [try] block, under the same [except]
    clauses. *)
Definition on_engine_result (self : DownloadService.Collaborators)
    (download : DownloadService.ref) (result : Result Path)
    : DownloadService.M unit :=
  let mark := DownloadService.mark in
  DownloadService.try_except
    (DownloadService.bind (DownloadService.lift result) (fun output_path =>
     DownloadService.bind
       (DownloadService.modify download (Download.set_output_path output_path))
       (fun _ =>
     DownloadService.bind (mark download Download.mark_completed) (fun _ =>
     DownloadService.bind
       match DownloadService.history_store self with
       | Some add =>
           DownloadService.bind (DownloadService.read download) (fun d =>
           DownloadService.history_add add
             (HistoryEntry.from_download (DownloadService.isoformat self) d))
       | None => DownloadService.ret ()
       end
       (fun _ => DownloadService.call_on_complete download)))))
    (fun e =>
       match e with
       | CancelledException =>
           DownloadService.bind (mark download Download.mark_cancelled)
             (fun _ => DownloadService.call_on_complete download)
       | _ =>
           let error_message := default (str_exc e) (user_message_of e) in
           DownloadService.bind
             (mark download (Download.mark_error error_message))
             (fun _ => DownloadService.call (DownloadService.on_error error_message))
       end).

(** The world after a [mark_*] call at [r]. *)
Definition marked (r : DownloadService.ref)
    (f : datetime -> Download.t -> Download.t) (w : DownloadService.World)
    : DownloadService.World :=
  DownloadService.set_objects (alter (f (DownloadService.clock w)) r)
                              (DownloadService.tick w).

(** Counting the sink invocations in a trace. *)
Definition is_on_progress (e : DownloadService.Event) : bool :=
  match e with DownloadService.on_progress _ _ _ => true | _ => false end.

Definition is_on_complete (e : DownloadService.Event) : bool :=
  match e with DownloadService.on_complete _ _ => true | _ => false end.

Definition is_on_error (e : DownloadService.Event) : bool :=
  match e with DownloadService.on_error _ => true | _ => false end.

Fixpoint count (p : DownloadService.Event -> bool)
    (trace : list DownloadService.Event) : nat :=
  match trace with
  | [] => 0%nat
  | e :: trace' => ((if p e then 1 else 0) + count p trace')%nat
  end.


Definition completion_calls : list DownloadService.Event -> nat :=
  count is_on_complete.

Definition error_calls : list DownloadService.Event -> nat :=
  count is_on_error.

(** The record and the world after a successful engine call: the path
    is stored, then [mark_completed]. *)
Definition completed_record (output_path : Path) (now : datetime)
    (d : Download.t) : Download.t :=
  Download.mark_completed now (Download.set_output_path output_path d).

Definition completed_world (r : DownloadService.ref) (output_path : Path)
    (w : DownloadService.World) : DownloadService.World :=
  marked r Download.mark_completed
    (DownloadService.set_objects
       (alter (Download.set_output_path output_path) r) w).

(** The message the generic [except] clause reports for [e]. *)
Definition reported_message (e : PyExc) : string :=
  default (str_exc e) (user_message_of e).

Definition already_in_progress : string :=
  "Ya hay una descarga en progreso. Cancela la actual para iniciar otra.".

(** The coordinator's slot refers to an object of the store. *)
Definition slot_valid (w : DownloadService.World) : bool :=
  match DownloadService._current_download w with
  | Some r =>
      match DownloadService.objects w !! r with
      | Some _ => true
      | None => false
      end
  | None => true
  end.

(** The three cases in which [cancel_download] refuses. *)
Definition refused (download_id : string) (w : DownloadService.World) : Prop :=
  DownloadService._current_download w = None
  \/ exists r d,
       DownloadService._current_download w = Some r
       /\ DownloadService.objects w !! r = Some d
       /\ (Download.id d <> download_id \/ Download.is_terminal d = true).

(** A sequence of [start_download] calls, with the results in order. *)
Fixpoint start_all (self : DownloadService.Collaborators)
    (calls : list (string * Path * DownloadFormat))
    (w : DownloadService.World)
    : list (Result (option DownloadService.ref)) * DownloadService.World :=
  match calls with
  | [] => ([], w)
  | (url, output_folder, format) :: rest =>
      let '(result, w1) :=
        DownloadService.start_download self url output_folder format w in
      let '(results, w2) := start_all self rest w1 in
      (result :: results, w2)
  end.

Definition empty_world : DownloadService.World :=
  DownloadService.mkWorld ∅ None [] 0%nat 0%nat 0%nat [] [].

(** * Further modules *)

(** ** [src/domain/models.py]: [Settings] *)

Module Settings.

(** A value of a settings dictionary, as the JSON file gives it.  The
dataclass does not check the types of its fields, so a field holds any
such value. *)
#[warnings="-register-all"]
Inductive Value : Type :=
  | VNone
  | VBool (b : bool)
  | VInt (n : Z)
  | VStr (s : string)
  | VList (items : list Value)
  | VDict (items : list (string * Value)).

(** [type(value).__name__] *)
Definition type_name (value : Value) : string :=
  match value with
  | VNone => "NoneType"
  | VBool _ => "bool"
  | VInt _ => "int"
  | VStr _ => "str"
  | VList _ => "list"
  | VDict _ => "dict"
  end.

Record t : Type := mk {
  last_output_folder : Value;
  default_format : Value;
  show_disclaimer : Value
}.

(** [Settings()] *)
Definition init : t := mk VNone (VStr "video") (VBool true).

Definition to_dict (self : t) : gmap string Value :=
  <["version" := VInt 1]>
  (<["last_output_folder" := last_output_folder self]>
  (<["default_format" := default_format self]>
  (<["show_disclaimer" := show_disclaimer self]> ∅))).

(** [data.get(key, fallback)]: the fallback is used for an absent key
only, not for a key that holds [None]. *)
Definition get (data : gmap string Value) (key : string) (fallback : Value)
    : Value :=
  match data !! key with
  | Some v => v
  | None => fallback
  end.

Definition from_dict (data : gmap string Value) : t :=
  mk (get data "last_output_folder" VNone)
     (get data "default_format" (VStr "video"))
     (get data "show_disclaimer" (VBool true)).

(** Truth value of a field. *)
Definition truthy (v : Value) : bool :=
  match v with
  | VNone => false
  | VBool b => b
  | VInt n => negb (n =? 0)
  | VStr s => negb (String.eqb s "")
  | VList items => match items with [] => false | _ => true end
  | VDict items => match items with [] => false | _ => true end
  end.

End Settings.

(** ** What reading a JSON file can end with

The two stores read their file inside [try], and catch
[json.JSONDecodeError], [KeyError] and [TypeError].  [JSONDecodeError] is
a subclass of [ValueError] that the stores name, so it is kept apart from
the other exceptions. *)
Inductive ReadError : Type :=
  | JSONDecodeError (message : string)
  | OtherError (e : PyExc).

(** [except (json.JSONDecodeError, KeyError, TypeError)] *)
Definition caught (e : ReadError) : bool :=
  match e with
  | JSONDecodeError _ => true
  | OtherError (KeyError _) => true
  | OtherError (TypeError _) => true
  | OtherError _ => false
  end.

(** The exception that leaves the [try] when it is not caught. *)
Definition escaping (e : ReadError) : PyExc :=
  match e with
  | JSONDecodeError message => ValueError message
  | OtherError e => e
  end.

(** ** [src/infra/config_store.py] *)

Module ConfigStore.

(** The configuration file: absent, holding a JSON object, or such that
reading or parsing it raises. *)
Inductive File : Type :=
  | NoFile
  | Holds (data : gmap string Settings.Value)
  | ReadFails (e : ReadError).

(** The store: its cache, its file, whether the [try] block of [save]
can create the directory and replace the file, and which folders exist
(for [get_last_output_folder]). *)
Record t : Type := mk {
  _settings : option Settings.t;
  file : File;
  writable : bool;
  is_dir : Path -> bool
}.

Definition set_settings (st : Settings.t) (self : t) : t :=
  mk (Some st) (file self) (writable self) (is_dir self).

Definition set_file (f : File) (self : t) : t :=
  mk (_settings self) f (writable self) (is_dir self).

Definition load (self : t) : Result Settings.t * t :=
  match _settings self with
  | Some st => (Ok st, self)
  | None =>
      match file self with
      | Holds data =>
          (Ok (Settings.from_dict data),
           set_settings (Settings.from_dict data) self)
      | NoFile => (Ok Settings.init, set_settings Settings.init self)
      | ReadFails e =>
          if caught e
          then (Ok Settings.init, set_settings Settings.init self)
          else (Raise (escaping e), self)
      end
  end.

Definition save (self : t) : bool * t :=
  match load self with
  | (Ok settings, self1) =>
      if writable self1
      then (true, set_file (Holds (Settings.to_dict settings)) self1)
      else (false, self1)
  | (Raise _, self1) => (false, self1)
  end.

(** A setter: [settings = self.load()], one field assigned in place,
[self.save()]. *)
Definition assign (f : Settings.t -> Settings.t) (self : t) : Result unit * t :=
  match load self with
  | (Ok settings, self1) => (Ok (), (save (set_settings (f settings) self1)).2)
  | (Raise e, self1) => (Raise e, self1)
  end.

Definition get_last_output_folder (self : t) : Result (option Path) * t :=
  match load self with
  | (Ok settings, self1) =>
      if Settings.truthy (Settings.last_output_folder settings) then
        match Settings.last_output_folder settings with
        | Settings.VStr folder =>
            (Ok (if is_dir self1 folder then Some folder else None), self1)
        | value =>
            (Raise (TypeError ("expected str, bytes or os.PathLike object, not "
                               +:+ Settings.type_name value)),
             self1)
        end
      else (Ok None, self1)
  | (Raise e, self1) => (Raise e, self1)
  end.

Definition set_last_output_folder (folder : Path) (self : t) : Result unit * t :=
  assign (fun s => Settings.mk (Settings.VStr folder)
                               (Settings.default_format s)
                               (Settings.show_disclaimer s)) self.

Definition get_default_format (self : t) : Result DownloadFormat * t :=
  match load self with
  | (Ok settings, self1) =>
      (Ok (match Settings.default_format settings with
           | Settings.VStr s => if String.eqb s "audio" then AUDIO else VIDEO
           | _ => VIDEO
           end), self1)
  | (Raise e, self1) => (Raise e, self1)
  end.

Definition set_default_format (format : DownloadFormat) (self : t)
    : Result unit * t :=
  assign (fun s => Settings.mk (Settings.last_output_folder s)
                               (Settings.VStr (format_value format))
                               (Settings.show_disclaimer s)) self.

Definition should_show_disclaimer (self : t) : Result Settings.Value * t :=
  match load self with
  | (Ok settings, self1) => (Ok (Settings.show_disclaimer settings), self1)
  | (Raise e, self1) => (Raise e, self1)
  end.

Definition mark_disclaimer_shown (self : t) : Result unit * t :=
  assign (fun s => Settings.mk (Settings.last_output_folder s)
                               (Settings.default_format s)
                               (Settings.VBool false)) self.

End ConfigStore.

(** ** [src/infra/history_store.py] *)

Module HistoryStore.

Definition MAX_HISTORY_ENTRIES : nat := 5.

(** The history file: absent, holding a JSON object whose ["entries"]
(or [[]] without that key) is a list of objects of strings, or such that
reading or parsing it raises before the entries are built. *)
Inductive File : Type :=
  | NoFile
  | Holds (entries_data : list (gmap string string))
  | ReadFails (e : ReadError).

Record t : Type := mk {
  _entries : option (list HistoryEntry.t);
  file : File;
  writable : bool
}.

Definition set_entries (entries : list HistoryEntry.t) (self : t) : t :=
  mk (Some entries) (file self) (writable self).

(** [[HistoryEntry.from_dict(entry) for entry in entries_data]] *)
Fixpoint from_dicts (entries_data : list (gmap string string))
    : Result (list HistoryEntry.t) :=
  match entries_data with
  | [] => Ok []
  | entry :: rest =>
      match HistoryEntry.from_dict entry with
      | Raise e => Raise e
      | Ok h =>
          match from_dicts rest with
          | Raise e => Raise e
          | Ok hs => Ok (h :: hs)
          end
      end
  end.

(** The [try] block of [load]. *)
Definition read (f : File) : list HistoryEntry.t + ReadError :=
  match f with
  | NoFile => inl []
  | Holds entries_data =>
      match from_dicts entries_data with
      | Ok entries => inl entries
      | Raise e => inr (OtherError e)
      end
  | ReadFails e => inr e
  end.

Definition load (self : t) : Result (list HistoryEntry.t) * t :=
  match _entries self with
  | Some entries => (Ok entries, self)
  | None =>
      match read (file self) with
      | inl entries => (Ok entries, set_entries entries self)
      | inr e =>
          if caught e then (Ok [], set_entries [] self)
          else (Raise (escaping e), self)
      end
  end.

(** [save]: the cache is assigned only when the file was replaced. *)
Definition save (entries : list HistoryEntry.t) (self : t) : bool * t :=
  if writable self
  then (true, mk (Some entries) (Holds (map HistoryEntry.to_dict entries))
                 (writable self))
  else (false, self).

(** [add]: [load] returns the cached list itself, so [insert(0, entry)]
changes the cache; the slice is a new list, which [save] makes the cache
only when it succeeds. *)
Definition add (entry : HistoryEntry.t) (self : t) : Result unit * t :=
  match load self with
  | (Raise e, self1) => (Raise e, self1)
  | (Ok entries, self1) =>
      let inserted := entry :: entries in
      let self2 := set_entries inserted self1 in
      let entries :=
        if decide (MAX_HISTORY_ENTRIES < length inserted)%nat
        then take MAX_HISTORY_ENTRIES inserted
        else inserted in
      (Ok (), (save entries self2).2)
  end.

Definition clear (self : t) : bool * t :=
  save [] (set_entries [] self).

Definition get_entries (self : t) : Result (list HistoryEntry.t) * t :=
  load self.

End HistoryStore.

(** ** [src/infra/file_system.py]: file names

[_sanitize_filename] counts and cuts characters, so in this module a
[str] is the list of its code points. *)

Module FileSystem.

Definition str : Type := list N.

(** [invalid_chars]: less-than, greater-than, colon, double quote, slash,
backslash, vertical bar, question mark and asterisk, in that order. *)
Definition invalid_chars : list N := [60; 62; 58; 34; 47; 92; 124; 63; 42]%N.

Definition underscore : N := 95%N.

(** [result.replace(char, "_")] for a one-character [char]. *)
Definition replace (char : N) (result : str) : str :=
  map (fun c => if (c =? char)%N then underscore else c) result.

(** [result.strip(". ")] *)
Definition in_strip_set (c : N) : bool := ((c =? 46) || (c =? 32))%N.

Fixpoint lstrip_set (s : str) : str :=
  match s with
  | c :: s' => if in_strip_set c then lstrip_set s' else s
  | [] => []
  end.

Definition strip_set (s : str) : str :=
  rev (lstrip_set (rev (lstrip_set s))).

(** ["download"] *)
Definition download_name : str := [100; 111; 119; 110; 108; 111; 97; 100]%N.

Definition _sanitize_filename (filename : str) : str :=
  let result := fold_left (fun result char => replace char result)
                          invalid_chars filename in
  let result := strip_set result in
  let result := if decide (200 < length result)%nat
                then take 200 result else result in
  match result with
  | [] => download_name
  | _ => result
  end.

(** [str(counter)] for the counter of [get_unique_filename]. *)
Definition str_of_int (n : Z) : str :=
  map N_of_ascii (list_ascii_of_string (pretty n)).

(** The name [f"{base_name} ({counter}){extension}"]. *)
Definition numbered (base_name : str) (counter : Z) (extension : str) : str :=
  (base_name ++ [32; 40]%N ++ str_of_int counter ++ [41]%N ++ extension)%list.

(** The [while True] loop.  [exists_] tells whether [folder / name]
exists; [uuid_hex] is [uuid.uuid4().hex[:8]].  The counter test ends the
loop after the candidate 9999, before the fuel is used up. *)
Fixpoint probe (exists_ : str -> bool) (uuid_hex : str)
    (base_name extension : str) (fuel : nat) (counter : Z) : str :=
  match fuel with
  | O => (base_name ++ [underscore] ++ uuid_hex ++ extension)%list
  | S fuel' =>
      let candidate := numbered base_name counter extension in
      if negb (exists_ candidate) then candidate
      else
        let counter := counter + 1 in
        if 9999 <? counter
        then (base_name ++ [underscore] ++ uuid_hex ++ extension)%list
        else probe exists_ uuid_hex base_name extension fuel' counter
  end.

(** [get_unique_filename]: the name of the returned path inside
[folder]. *)
Definition get_unique_filename (exists_ : str -> bool) (uuid_hex : str)
    (base_name extension : str) : str :=
  let extension :=
    match extension with
    | [] => extension
    | c :: _ => if (c =? 46)%N then extension else (46%N :: extension)
    end in
  let base_name := _sanitize_filename base_name in
  let candidate := (base_name ++ extension)%list in
  if negb (exists_ candidate) then candidate
  else probe exists_ uuid_hex base_name extension (Z.to_nat 9999) 1.

End FileSystem.

(** ** [src/infra/ytdlp_adapter.py]: [validate_url] *)

Module YtdlpAdapterUrl.

(** [validate_url] consults the same registry as the validator's
[_is_site_supported]; [import_error] is what [import yt_dlp] raises when
the package is missing.  The result is [(is_valid, error_message)]. *)
Definition validate_url (import_error : PyExc) (yt_dlp : Validators.Registry)
    (url : string) : bool * string :=
  match yt_dlp with
  | Validators.NotInstalled => (false, str_exc import_error)
  | Validators.Installed (Raise e) => (false, str_exc e)
  | Validators.Installed (Ok extractors) =>
      match Validators.any_suitable extractors url with
      | Ok true => (true, "")
      | Ok false => (false, "Este sitio no está soportado actualmente.")
      | Raise e => (false, str_exc e)
      end
  end.

End YtdlpAdapterUrl.

(** ** Further notions for the properties *)

(** The [mark_*] operations. *)
Definition is_mark (op : Op) : bool :=
  match op with
  | UpdateProgress _ _ _ => false
  | _ => true
  end.

(** The six keys of a history dictionary. *)
Definition history_keys : list string :=
  ["id"; "title"; "output_path"; "status"; "format"; "completed_at"].

(** [add] called for each entry of a list, first to last. *)
Fixpoint add_all (entries : list HistoryEntry.t) (self : HistoryStore.t)
    : HistoryStore.t :=
  match entries with
  | [] => self
  | entry :: rest => add_all rest (HistoryStore.add entry self).2
  end.

(** The extension as [get_unique_filename] uses it: with a leading dot
    unless it is empty. *)
Definition normalized_extension (extension : FileSystem.str) : FileSystem.str :=
  match extension with
  | [] => extension
  | c :: _ => if (c =? 46)%N then extension else (46%N :: extension)
  end.

(** A name that does not begin with a dot or a space. *)
Definition starts_clean (name : FileSystem.str) : Prop :=
  match name with
  | c :: _ => FileSystem.in_strip_set c = false
  | [] => True
  end.

(** The names [get_unique_filename] tries, and the one it falls back
    to. *)
Definition plain_name (base_name extension : FileSystem.str) : FileSystem.str :=
  (FileSystem._sanitize_filename base_name
   ++ normalized_extension extension)%list.

Definition numbered_name (base_name extension : FileSystem.str) (counter : Z)
    : FileSystem.str :=
  FileSystem.numbered (FileSystem._sanitize_filename base_name) counter
                      (normalized_extension extension).

Definition fallback_name (uuid_hex base_name extension : FileSystem.str)
    : FileSystem.str :=
  (FileSystem._sanitize_filename base_name ++ [FileSystem.underscore]
   ++ uuid_hex ++ normalized_extension extension)%list.

(** What a run of the worker on the record at [r] may change: [w'] is
    [w] with that record replaced by [d'] and [calls] appended to the
    trace; the slot, the started threads, the cancel count and the id
    supply are those of [w]. *)
Definition reached (w : DownloadService.World) (r : DownloadService.ref)
    (d' : Download.t) (calls : list DownloadService.Event)
    (w' : DownloadService.World) : Prop :=
  DownloadService.objects w' = <[r := d']> (DownloadService.objects w)
  /\ DownloadService._current_download w' = DownloadService._current_download w
  /\ DownloadService.threads w' = DownloadService.threads w
  /\ DownloadService.cancel_calls w' = DownloadService.cancel_calls w
  /\ DownloadService.uuid_drawn w' = DownloadService.uuid_drawn w
  /\ DownloadService.sink_calls w'
     = (DownloadService.sink_calls w ++ calls)%list.

(** The sink calls of a run up to the end of the engine call. *)
Definition progress_trace (self : DownloadService.Collaborators)
    (folder : Path) (d : Download.t) : list DownloadService.Event :=
  DownloadService.on_progress 0 CONNECTING None
  :: map event_of (DownloadService.reports (engine_run self folder d)).

(** The fields of a record that a run never assigns. *)
Definition same_identity (d d' : Download.t) : Prop :=
  Download.id d' = Download.id d
  /\ Download.url d' = Download.url d
  /\ Download.format d' = Download.format d
  /\ Download.started_at d' = Download.started_at d.

(** No job is running: the slot is empty or holds a terminal record. *)
Definition idle (w : DownloadService.World) : Prop :=
  match DownloadService._current_download w with
  | Some r0 => exists d0, DownloadService.objects w !! r0 = Some d0
                          /\ Download.is_terminal d0 = true
  | None => True
  end.

Definition no_permission : string :=
  "No tienes permiso para guardar archivos en esta carpeta. "
  +:+ "Por favor selecciona otra carpeta.".

(** The record [start_download] builds in the world [w]. *)
Definition new_record (self : DownloadService.Collaborators)
    (url : string) (folder : Path) (format : DownloadFormat)
    (w : DownloadService.World) : Download.t :=
  Download.mk url (path_div folder "downloading") format
    (DownloadService.uuid4 self (DownloadService.uuid_drawn w))
    PENDING 0 None None (DownloadService.clock w) None.

(** ** [_execute_download] with sinks and an engine that may raise

    [DownloadService] takes every call of a sink to return, and the
    engine call and the history store to raise instances of [Exception]
    only.  This module reads the same method without these
    assumptions: a sink is a callable handed in by the caller and may
    raise, [on_complete] is called inside the [try] block, and the
    [except] clauses catch [Exception], not [BaseException]. *)

Module Worker.

(** What a call may raise: an instance of [Exception], or an instance
    of [BaseException] that is not one ([KeyboardInterrupt],
    [SystemExit], [GeneratorExit]), given by the name of its class. *)
Inductive Raised : Type :=
  | AnException (e : PyExc)
  | NotException (name : string).

Inductive Outcome (A : Type) : Type :=
  | Returned (a : A)
  | Escaped (x : Raised).
Arguments Returned {A} a.
Arguments Escaped {A} x.

(** The three sinks handed to [start_download]: what a call raises,
    [None] when it returns, given the sink calls made before it.  A
    sink does not assign to the record it is shown. *)
Definition Sinks : Type :=
  list DownloadService.Event -> DownloadService.Event -> option Raised.

(** One call of [self._downloader.download]: the engine passes a
    dictionary to its [on_progress] argument and goes on according to
    what that call did ([None]: it returned), or it ends, returning the
    path of the file or raising. *)
Inductive Engine : Type :=
  | Report (progress_info : YtdlpAdapter.ProgressInfo)
           (next : option Raised -> Engine)
  | Return (output_path : Path)
  | Fail (x : Raised).

Record Collaborators : Type := mkCollaborators {
  downloader_download : string -> Path -> DownloadFormat -> Engine;
  history_store : option (HistoryEntry.t -> option Raised);
                                 (* [add]: [Some x] when it raises [x] *)
  isoformat : datetime -> string
}.

Definition M (A : Type) : Type :=
  DownloadService.World -> Outcome A * DownloadService.World.

Definition ret {A : Type} (a : A) : M A := fun w => (Returned a, w).

Definition bind {A B : Type} (m : M A) (f : A -> M B) : M B := fun w =>
  match m w with
  | (Returned a, w') => f a w'
  | (Escaped x, w') => (Escaped x, w')
  end.

Notation "'let*' x ':=' m 'in' k" := (bind m (fun x => k))
  (at level 10, x name, m at level 100, k at level 200).
Notation "m '>>' k" := (bind m (fun _ => k))
  (at level 100, right associativity).

Definition raise {A : Type} (x : Raised) : M A := fun w => (Escaped x, w).

(** [try: body  except Exception as e: handler e]: what is not an
    instance of [Exception] passes through. *)
Definition try_except {A : Type} (body : M A) (handler : PyExc -> M A) : M A :=
  fun w =>
    match body w with
    | (Escaped (AnException e), w') => handler e w'
    | result => result
    end.

Definition read (r : DownloadService.ref) : M Download.t := fun w =>
  match DownloadService.objects w !! r with
  | Some d => (Returned d, w)
  | None => (Escaped (AnException (Exception_ "no such object")), w)
  end.

Definition update (f : DownloadService.World -> DownloadService.World)
    : M unit := fun w => (Returned (), f w).

Definition modify (r : DownloadService.ref) (f : Download.t -> Download.t) : M unit :=
  update (DownloadService.set_objects (alter f r)).

(** [datetime.now()] *)
Definition now : M datetime := fun w =>
  (Returned (DownloadService.clock w), DownloadService.tick w).

Definition mark (download : DownloadService.ref)
    (f : datetime -> Download.t -> Download.t) : M unit :=
  let* t := now in modify download (f t).

(** A call of a sink: it is made, and then returns or raises. *)
Definition call (sinks : Sinks) (e : DownloadService.Event) : M unit := fun w =>
  (match sinks (DownloadService.sink_calls w) e with
   | Some x => Escaped x
   | None => Returned ()
   end,
   DownloadService.log e w).

Definition call_on_complete (sinks : Sinks) (download : DownloadService.ref)
    : M unit :=
  let* d := read download in
  call sinks (DownloadService.on_complete download d).

(** The engine call, with [on_progress] as its callback. *)
Fixpoint run (on_progress : YtdlpAdapter.ProgressInfo -> M unit)
    (engine : Engine) : M Path := fun w =>
  match engine with
  | Report progress_info next =>
      match on_progress progress_info w with
      | (Returned _, w') => run on_progress (next None) w'
      | (Escaped x, w') => run on_progress (next (Some x)) w'
      end
  | Return output_path => (Returned output_path, w)
  | Fail x => (Escaped x, w)
  end.

Section Service.

Variable self : Collaborators.
Variable sinks : Sinks.

(** The closure [handle_progress] of [_execute_download]. *)
Definition handle_progress (download : DownloadService.ref)
    (progress_info : YtdlpAdapter.ProgressInfo) : M unit :=
  let percent := default 0 (YtdlpAdapter.percent progress_info) in
  let title := YtdlpAdapter.title progress_info in
  let status :=
    match YtdlpAdapter.status progress_info with
    | Some s => if String.eqb s "processing" then PROCESSING else DOWNLOADING
    | None => DOWNLOADING
    end in
  modify download (Download.update_progress percent status title) >>
  call sinks (DownloadService.on_progress percent status title).

(** [self._history_store.add(entry)] *)
Definition history_add (add : HistoryEntry.t -> option Raised)
    (entry : HistoryEntry.t) : M unit :=
  match add entry with
  | Some x => raise x
  | None => update (DownloadService.add_history entry)
  end.

(** The two [except] clauses. *)
Definition except_clauses (download : DownloadService.ref) (e : PyExc)
    : M unit :=
  match e with
  | CancelledException =>
      mark download Download.mark_cancelled >>
      call_on_complete sinks download
  | _ =>
      let error_message := default (str_exc e) (user_message_of e) in
      mark download (Download.mark_error error_message) >>
      call sinks (DownloadService.on_error error_message)
  end.

(** The [try] block from the engine's return on. *)
Definition after_engine (download : DownloadService.ref)
    (output_path : Path) : M unit :=
  modify download (Download.set_output_path output_path) >>
  mark download Download.mark_completed >>
  match history_store self with
  | Some add =>
      let* d := read download in
      history_add add (HistoryEntry.from_download (isoformat self) d)
  | None => ret ()
  end >>
  call_on_complete sinks download.

(** The [try] block, then the two [except] clauses.  The [finally]
    clause reads the slot under the lock and executes [pass]. *)
Definition _execute_download (download : DownloadService.ref)
    (output_folder : Path)
    : M unit :=
  try_except
    (modify download (Download.update_progress 0 CONNECTING None) >>
     call sinks (DownloadService.on_progress 0 CONNECTING None) >>
     let* d := read download in
     let* output_path :=
       run (handle_progress download)
           (downloader_download self (Download.url d) output_folder
                                (Download.format d)) in
     after_engine download output_path)
    (except_clauses download).

End Service.

(** *** The model of [DownloadService] as an instance *)

(** Sinks that return from every call. *)
Definition returning : Sinks := fun _ _ => None.

Definition of_result {A : Type} (result : Result A) : Outcome A :=
  match result with
  | Ok a => Returned a
  | Raise e => Escaped (AnException e)
  end.

(** An engine that makes its reports whatever the callback does. *)
Fixpoint scripted (reports : list YtdlpAdapter.ProgressInfo)
    (outcome : Result Path) : Engine :=
  match reports with
  | [] => match outcome with
          | Ok output_path => Return output_path
          | Raise e => Fail (AnException e)
          end
  | progress_info :: rest => Report progress_info (fun _ => scripted rest outcome)
  end.

Definition generalise (self : DownloadService.Collaborators) : Collaborators :=
  mkCollaborators
    (fun url output_folder format =>
       let engine_run :=
         DownloadService.downloader_download self url output_folder format in
       scripted (DownloadService.reports engine_run)
                (DownloadService.outcome engine_run))
    (option_map (fun add entry => option_map AnException (add entry))
                (DownloadService.history_store self))
    (DownloadService.isoformat self).

(** *** The engine call as a function of the trace

    The reports the engine makes and how its call ends, when the sink
    calls made so far are [trace]. *)
Fixpoint play (sinks : Sinks) (trace : list DownloadService.Event)
    (engine : Engine)
    : list YtdlpAdapter.ProgressInfo * Outcome Path :=
  match engine with
  | Report progress_info next =>
      let '(reports, result) :=
        play sinks (trace ++ [event_of progress_info])
             (next (sinks trace (event_of progress_info))) in
      (progress_info :: reports, result)
  | Return output_path => ([], Returned output_path)
  | Fail x => ([], Escaped x)
  end.

(** What [_execute_download] does with [x] raised in its [try] block. *)
Definition caught (sinks : Sinks) (download : DownloadService.ref)
    (x : Raised) : M unit :=
  match x with
  | AnException e => except_clauses sinks download e
  | NotException _ => raise x
  end.

End Worker.

(** ** Notions for the worker with raising sinks *)

(** The engine a run on the record [d] calls. *)
Definition engine_of (self : Worker.Collaborators) (folder : Path)
    (d : Download.t) : Worker.Engine :=
  Worker.downloader_download self (Download.url d) folder (Download.format d).

Definition announcement : DownloadService.Event :=
  DownloadService.on_progress 0 CONNECTING None.

(** The reports of the engine call of a run started in the world [w],
    and how the call ends. *)
Definition engine_play (self : Worker.Collaborators) (sinks : Worker.Sinks)
    (folder : Path) (d : Download.t) (w : DownloadService.World)
    : list YtdlpAdapter.ProgressInfo * Worker.Outcome Path :=
  Worker.play sinks (DownloadService.sink_calls w ++ [announcement])%list
              (engine_of self folder d).

(** How a call of a sink ends. *)
Definition sink_result (sinks : Worker.Sinks)
    (trace : list DownloadService.Event) (e : DownloadService.Event)
    : Worker.Outcome unit :=
  match sinks trace e with
  | Some x => Worker.Escaped x
  | None => Worker.Returned ()
  end.

(** The record once the reports are handled. *)
Definition reported (reports : list YtdlpAdapter.ProgressInfo)
    (d : Download.t) : Download.t :=
  run_reports reports (Download.update_progress 0 CONNECTING None d).

(** A history store that accepts the entry of the record [d], when
    there is a store. *)
Definition history_accepts (self : Worker.Collaborators) (d : Download.t)
    : Prop :=
  match Worker.history_store self with
  | Some add =>
      add (HistoryEntry.from_download (Worker.isoformat self) d) = None
  | None => True
  end.

(** Sinks, an engine and a store that raise instances of [Exception]
    only. *)
Definition is_exception (x : Worker.Raised) : bool :=
  match x with
  | Worker.AnException _ => true
  | Worker.NotException _ => false
  end.

(** The world once the history store has taken the entry of [d]. *)
Definition recorded (self : Worker.Collaborators) (d : Download.t)
    (w : DownloadService.World) : DownloadService.World :=
  match Worker.history_store self with
  | Some _ =>
      DownloadService.add_history
        (HistoryEntry.from_download (Worker.isoformat self) d) w
  | None => w
  end.

(** ** Sample values for the scenarios *)

(** A configuration store whose file is not valid JSON and cannot be
    replaced. *)
Definition sample_config : ConfigStore.t :=
  ConfigStore.mk None (ConfigStore.ReadFails (JSONDecodeError "Expecting value"))
                 false (fun p => String.eqb p "/home/user/Downloads").

Definition sample_entry (n : nat) : HistoryEntry.t :=
  HistoryEntry.mk (pretty n) "Test Video" "/output/video.mp4" "completed"
                  "video" "2026-01-13T12:00:00".


Definition sample_download : Download.t :=
  Download.mk "https://www.youtube.com/watch?v=test" "/output/downloading"
              VIDEO "7f0c" PENDING 0 None None 0%nat None.

Definition raising_extractor : Validators.Extractor :=
  Validators.mkExtractor true (fun _ => Raise (Exception_ "extractor failed")).

(** A coordinator with a validator and a file system that accept, an
    engine that sends one report and ends with [result], and the history
    store [history]; and a world in which [sample_download] is the
    current job. *)
Definition sample_report : YtdlpAdapter.ProgressInfo :=
  YtdlpAdapter.mkProgressInfo (Some 40) (Some "downloading") (Some "Test Video").

Definition sample_service
    (history : option (HistoryEntry.t -> option PyExc))
    (result : Result Path) : DownloadService.Collaborators :=
  DownloadService.mkCollaborators
    (fun _ => Validators.mkValidationResult true "" "")
    (fun _ => true)
    (fun _ _ _ => DownloadService.mkEngineRun [sample_report] result)
    history
    (fun n => pretty n)
    (fun t => pretty t).

Definition sample_world : DownloadService.World :=
  DownloadService.mkWorld {[ 0%nat := sample_download ]} (Some 0%nat) []
                          0%nat 1%nat 1%nat [] [].

(** A history store whose [add] returns normally. *)
Definition accepting_history : HistoryEntry.t -> option PyExc := fun _ => None.

(** A history store whose [add] raises: its file cannot be read. *)
Definition failing_history : HistoryEntry.t -> option PyExc :=
  fun _ => Some (Exception_ "[Errno 13] Permission denied: 'history.json'").

(** Sinks of which the completion sink raises, and collaborators whose
    engine sends one report and then ends as given, with a history
    store that accepts. *)
Definition completion_sink_raises : Worker.Sinks := fun _ e =>
  match e with
  | DownloadService.on_complete _ _ =>
      Some (Worker.AnException (Exception_ "sink failed"))
  | _ => None
  end.

Definition sample_worker (engine_end : Worker.Engine) : Worker.Collaborators :=
  Worker.mkCollaborators
    (fun _ _ _ => Worker.Report sample_report (fun _ => engine_end))
    (Some (fun _ => None))
    (fun t => pretty t).

(** * Properties *)

(** ** The record *)

Lemma update_progress_in_range percent status title d :
  in_range (Download.update_progress percent status title d).
Proof. unfold in_range; simpl; lia. Qed.

Lemma apply_op_in_range now op d :
  in_range d -> in_range (apply_op now op d).
Proof.
  destruct op; simpl; intros H.
  - apply update_progress_in_range.
  - unfold in_range; simpl; lia.
  - exact H.
  - exact H.
Qed.

Lemma apply_ops_in_range ops : forall now d,
  in_range d -> in_range (apply_ops now ops d).
Proof.
  induction ops as [|op ops IH]; intros now d H; simpl.
  - exact H.
  - apply IH, apply_op_in_range, H.
Qed.

Lemma init_inversion url op f i st p t em sa ca d :
  Download.init url op f i st p t em sa ca = Ok d ->
  d = Download.mk url op f i st p t em sa ca /\ 0 <= p <= 100.
Proof.
  unfold Download.init, Download.__post_init__; simpl.
  destruct (0 <=? p) eqn:H0; destruct (p <=? 100) eqn:H1; simpl;
    intros H; inversion H; subst.
  split; [reflexivity | lia].
Qed.

(** C1, as the code has it.  The constructor does not clamp: it accepts a
    progress within [0,100] unchanged and raises [ValueError] otherwise.
    [update_progress] clamps every integer into [0,100] (150 gives 100,
    -50 gives 0).  Hence every record the constructor returns keeps its
    progress within [0,100] under every sequence of operations. *)
Theorem C1_progress_rejected_or_clamped
    url out f i st (p : Z) t em sa ca
    (d : Download.t) (percent : Z) st' t' :
  match Download.init url out f i st p t em sa ca with
  | Ok d0 =>
      0 <= p <= 100 /\ Download.progress d0 = p /\
      forall now ops, in_range (apply_ops now ops d0)
  | Raise e =>
      (p < 0 \/ 100 < p) /\
      e = ValueError ("Progress must be between 0 and 100, got " +:+ pretty p)
  end
  /\ Download.progress (Download.update_progress percent st' t' d)
     = Z.max 0 (Z.min 100 percent)
  /\ in_range (Download.update_progress percent st' t' d)
  /\ Download.progress (Download.update_progress 150 st' t' d) = 100
  /\ Download.progress (Download.update_progress (-50) st' t' d) = 0.
Proof.
  split; [| repeat split; simpl; lia].
  destruct (Download.init url out f i st p t em sa ca) as [d0|e] eqn:E.
  - apply init_inversion in E as [-> Hp].
    split; [lia | split; [reflexivity |]].
    intros now ops. apply apply_ops_in_range. exact Hp.
  - unfold Download.init, Download.__post_init__ in E; simpl in E.
    destruct (0 <=? p) eqn:H0; destruct (p <=? 100) eqn:H1; simpl in E;
      inversion E; subst; split; try reflexivity; lia.
Qed.

(** C1, the claim as stated fails at construction: a progress of 150 is
    not clamped to 100, the constructor raises. *)
Lemma C1_construction_raises_on_150 :
  Download.init "https://example.com" "/tmp/video.mp4" VIDEO "id" PENDING
                150 None None 0%nat None
  = Raise (ValueError "Progress must be between 0 and 100, got 150")
  /\ Download.init "https://example.com" "/tmp/video.mp4" VIDEO "id" PENDING
                   (-10) None None 0%nat None
     = Raise (ValueError "Progress must be between 0 and 100, got -10").
Proof. split; vm_compute; reflexivity. Qed.

Lemma apply_op_status now op d :
  Download.status (apply_op now op d) = op_status op.
Proof. destruct op; reflexivity. Qed.

Lemma is_terminal_status d :
  Download.is_terminal d = terminal (Download.status d).
Proof. reflexivity. Qed.

Lemma is_active_not_terminal d :
  Download.is_active d = negb (Download.is_terminal d).
Proof.
  unfold Download.is_active, Download.is_terminal.
  destruct (Download.status d); reflexivity.
Qed.

Lemma apply_ops_terminal ops : forall now d,
  Download.is_terminal d = true ->
  Forall (fun op => terminal (op_status op) = true) ops ->
  Download.is_terminal (apply_ops now ops d) = true.
Proof.
  induction ops as [|op ops IH]; intros now d Hd Hops; simpl.
  - exact Hd.
  - inversion Hops as [|? ? Hop Hrest]; subst.
    apply IH; [| exact Hrest].
    rewrite is_terminal_status, apply_op_status. exact Hop.
Qed.

Lemma apply_ops_same_status ops : forall now d,
  Forall (fun op => op_status op = Download.status d) ops ->
  Download.status (apply_ops now ops d) = Download.status d.
Proof.
  induction ops as [|op ops IH]; intros now d Hops; simpl.
  - reflexivity.
  - inversion Hops as [|? ? Hop Hrest]; subst.
    rewrite IH; rewrite apply_op_status; [exact Hop |].
    rewrite Hop. exact Hrest.
Qed.

(** C3, as the code has it.  The record does not guard its terminal
    states: every operation assigns the state unconditionally
    ([update_progress] the status it is given, [mark_completed]
    COMPLETED, [mark_cancelled] CANCELLED, [mark_error] ERROR).  A
    terminal record therefore stays terminal under every sequence of
    operations that assign terminal states (all [mark_*] calls do), and
    keeps its very state under operations that assign that state. *)
Theorem C3_terminal_kept_by_terminal_assignments now ops d :
  (forall op, Download.status (apply_op now op d) = op_status op)
  /\ (Download.is_terminal d = true ->
      Forall (fun op => terminal (op_status op) = true) ops ->
      Download.is_terminal (apply_ops now ops d) = true)
  /\ (Forall (fun op => op_status op = Download.status d) ops ->
      Download.status (apply_ops now ops d) = Download.status d).
Proof.
  split; [intros op; apply apply_op_status |].
  split; [apply apply_ops_terminal | apply apply_ops_same_status].
Qed.

Lemma C3_terminal_kept_witness :
  Download.is_terminal
    (apply_ops 2%nat [MarkError "late"; MarkCancelled; UpdateProgress 100 COMPLETED None]
               (Download.mark_completed 1%nat sample_download)) = true
  /\ Download.status
       (apply_ops 2%nat [MarkCompleted; UpdateProgress 100 COMPLETED None]
                  (Download.mark_completed 1%nat sample_download)) = COMPLETED.
Proof.
  split.
  - apply (C3_terminal_kept_by_terminal_assignments 2%nat
             [MarkError "late"; MarkCancelled; UpdateProgress 100 COMPLETED None]
             (Download.mark_completed 1%nat sample_download)).
    + reflexivity.
    + repeat constructor.
  - apply (C3_terminal_kept_by_terminal_assignments 2%nat
             [MarkCompleted; UpdateProgress 100 COMPLETED None]
             (Download.mark_completed 1%nat sample_download)).
    repeat constructor.
Defined.

(** C3, the claim as stated fails: on a COMPLETED record [mark_error]
    changes the state to ERROR, [mark_cancelled] to CANCELLED, and
    [update_progress] back to a non-terminal state. *)
Lemma C3_terminal_state_is_left :
  Download.is_terminal (Download.mark_completed 1%nat sample_download) = true
  /\ Download.status (Download.mark_completed 1%nat sample_download) = COMPLETED
  /\ Download.status
       (apply_ops 2%nat [MarkError "boom"]
                  (Download.mark_completed 1%nat sample_download)) = ERROR
  /\ Download.status
       (apply_ops 2%nat [MarkCancelled]
                  (Download.mark_completed 1%nat sample_download)) = CANCELLED
  /\ Download.status
       (apply_ops 2%nat [UpdateProgress 10 DOWNLOADING None]
                  (Download.mark_completed 1%nat sample_download)) = DOWNLOADING.
Proof. repeat split. Qed.

(** C9.  Reading back the dictionary written by [to_dict] yields the
    entry itself, field for field. *)
Theorem C9_history_entry_roundtrip (e : HistoryEntry.t) :
  HistoryEntry.from_dict (HistoryEntry.to_dict e) = Ok e.
Proof.
  destruct e as [i ti o s f c].
  unfold HistoryEntry.from_dict, HistoryEntry.getitem, HistoryEntry.to_dict.
  cbn [HistoryEntry.id HistoryEntry.title HistoryEntry.output_path
       HistoryEntry.status HistoryEntry.format HistoryEntry.completed_at].
  repeat (first [rewrite lookup_insert_eq | rewrite lookup_insert_ne by done]).
  reflexivity.
Qed.

(** C10.  [update_progress] assigns [progress], [status] and, for a
    non-empty title only, [title]; every other field is left as it was. *)
Theorem C10_update_progress_frame (d : Download.t) percent status title :
  let d' := Download.update_progress percent status title d in
  Download.id d' = Download.id d
  /\ Download.url d' = Download.url d
  /\ Download.output_path d' = Download.output_path d
  /\ Download.format d' = Download.format d
  /\ Download.error_message d' = Download.error_message d
  /\ Download.started_at d' = Download.started_at d
  /\ Download.completed_at d' = Download.completed_at d
  /\ Download.title (Download.update_progress percent status None d)
     = Download.title d
  /\ Download.title (Download.update_progress percent status (Some "") d)
     = Download.title d
  /\ (forall s, s <> "" ->
      Download.title (Download.update_progress percent status (Some s) d)
      = Some s).
Proof.
  repeat split.
  intros s Hs. unfold Download.update_progress; simpl.
  destruct (String.eqb_spec s ""); [contradiction | reflexivity].
Qed.

Lemma C10_update_progress_frame_witness :
  Download.title
    (Download.update_progress 50 DOWNLOADING (Some "Test Title") sample_download)
  = Some "Test Title".
Proof.
  apply (C10_update_progress_frame sample_download 50 DOWNLOADING None).
  discriminate.
Defined.

(** ** The validator *)

Section ValidatorFacts.

Import Validators.

Lemma drop_prefix_app p : forall rest,
  drop_prefix p (p +:+ rest) = Some rest.
Proof.
  induction p as [|a p IH]; intros rest; simpl.
  - reflexivity.
  - rewrite Ascii.eqb_refl. apply IH.
Qed.

(** No whitespace encoding is a prefix of another, so the first one
    that matches is the one the text starts with. *)
Lemma drop_first_whitespace w rest :
  In w whitespace -> drop_first whitespace (w +:+ rest) = Some rest.
Proof.
  intros H. simpl in H.
  repeat (destruct H as [<- | H]; [reflexivity |]).
  contradiction.
Qed.

Lemma whitespace_nonempty w : In w whitespace -> w <> "".
Proof.
  intros H. simpl in H.
  repeat (destruct H as [<- | H]; [discriminate |]).
  contradiction.
Qed.

Lemma strip_left_whitespace ws : forall fuel,
  (length ws <= fuel)%nat ->
  Forall (fun w => In w whitespace) ws ->
  strip_left whitespace fuel (fold_right String.append "" ws) = "".
Proof.
  induction ws as [|w ws IH]; intros fuel Hfuel Hws.
  - destruct fuel; reflexivity.
  - inversion Hws as [|? ? Hw Hrest]; subst.
    destruct fuel as [|fuel]; [simpl in Hfuel; lia |].
    cbn [fold_right strip_left].
    rewrite (drop_first_whitespace w _ Hw).
    apply IH; [simpl in Hfuel; lia | exact Hrest].
Qed.

Lemma length_append_ge s : forall t,
  (String.length t <= String.length (s +:+ t))%nat.
Proof.
  induction s as [|a s IH]; intros t.
  - change ("" +:+ t) with t. lia.
  - change (String a s +:+ t) with (String a (s +:+ t)).
    specialize (IH t). simpl. lia.
Qed.

Lemma length_concat_whitespace ws :
  Forall (fun w => In w whitespace) ws ->
  (length ws <= String.length (fold_right String.append "" ws))%nat.
Proof.
  induction 1 as [|w ws Hw _ IH]; simpl; [lia |].
  pose proof (whitespace_nonempty w Hw) as Hne.
  destruct w as [|a w]; [contradiction |].
  pose proof (length_append_ge w (fold_right String.append "" ws)).
  change (String a w +:+ fold_right String.append "" ws)
    with (String a (w +:+ fold_right String.append "" ws)).
  simpl; lia.
Qed.

Lemma strip_whitespace_only ws :
  Forall (fun w => In w whitespace) ws ->
  strip (fold_right String.append "" ws) = "".
Proof.
  intros Hws. unfold strip, lstrip.
  rewrite strip_left_whitespace;
    [reflexivity | apply length_concat_whitespace, Hws | exact Hws].
Qed.

Lemma registry_fails_permissive yt_dlp url :
  registry_fails yt_dlp url -> _is_site_supported yt_dlp url = true.
Proof.
  intros [-> | [[e ->] | (exs & e & -> & H)]]; simpl; try reflexivity.
  rewrite H. reflexivity.
Qed.

Variable urlparse : string -> Result ParseResult.
Variable yt_dlp : Registry.

Lemma validate_empty url :
  strip url = "" ->
  validate urlparse yt_dlp url
  = mkValidationResult false "Por favor ingresa una URL." "EMPTY_URL".
Proof.
  intros H. unfold validate. rewrite H.
  rewrite orb_true_r. reflexivity.
Qed.

Lemma validate_nonempty url :
  strip url <> "" ->
  validate urlparse yt_dlp url
  = match urlparse (strip url) with
    | Raise _ => invalid_format
    | Ok parsed =>
        if negb (existsb (String.eqb (scheme parsed)) ALLOWED_SCHEMES)
        then invalid_format
        else if String.eqb (netloc parsed) "" then invalid_format
        else if negb (_is_site_supported yt_dlp (strip url)) then
          mkValidationResult false
            "Este sitio no está soportado actualmente." "UNSUPPORTED_SITE"
        else mkValidationResult true "" ""
    end.
Proof.
  intros H. unfold validate.
  destruct (String.eqb_spec (strip url) "") as [E|_]; [contradiction |].
  destruct (String.eqb_spec url "") as [E|_]; [| reflexivity].
  subst url. exfalso. apply H. reflexivity.
Qed.

Lemma allowed_scheme_spec s :
  existsb (String.eqb s) ALLOWED_SCHEMES = true <-> In s ALLOWED_SCHEMES.
Proof.
  rewrite existsb_exists. split.
  - intros (x & Hx & E). apply String.eqb_eq in E. subst. exact Hx.
  - intros H. exists s. split; [exact H | apply String.eqb_refl].
Qed.

Lemma validate_malformed url :
  strip url <> "" ->
  (forall parsed, urlparse (strip url) = Ok parsed ->
     ~ In (scheme parsed) ALLOWED_SCHEMES \/ netloc parsed = "") ->
  validate urlparse yt_dlp url = invalid_format.
Proof.
  intros Hne Hbad. rewrite validate_nonempty by exact Hne.
  destruct (urlparse (strip url)) as [parsed|e]; [| reflexivity].
  destruct (existsb (String.eqb (scheme parsed)) ALLOWED_SCHEMES) eqn:Hs;
    [| reflexivity].
  simpl. destruct (String.eqb_spec (netloc parsed) ""); [reflexivity |].
  destruct (Hbad parsed eq_refl) as [Hno | Hnet]; [| contradiction].
  exfalso. apply Hno, allowed_scheme_spec, Hs.
Qed.

Lemma validate_well_formed url parsed :
  strip url <> "" ->
  urlparse (strip url) = Ok parsed ->
  In (scheme parsed) ALLOWED_SCHEMES ->
  netloc parsed <> "" ->
  validate urlparse yt_dlp url
  = if _is_site_supported yt_dlp (strip url)
    then mkValidationResult true "" ""
    else mkValidationResult false
           "Este sitio no está soportado actualmente." "UNSUPPORTED_SITE".
Proof.
  intros Hne Hp Hs Hn. rewrite validate_nonempty by exact Hne.
  rewrite Hp.
  apply allowed_scheme_spec in Hs. rewrite Hs. simpl.
  destruct (String.eqb_spec (netloc parsed) ""); [contradiction |].
  destruct (_is_site_supported yt_dlp (strip url)); reflexivity.
Qed.

Lemma validate_permissive url parsed :
  strip url <> "" ->
  urlparse (strip url) = Ok parsed ->
  In (scheme parsed) ALLOWED_SCHEMES ->
  netloc parsed <> "" ->
  registry_fails yt_dlp (strip url) ->
  validate urlparse yt_dlp url = mkValidationResult true "" "".
Proof.
  intros Hne Hp Hs Hn Hr. rewrite validate_nonempty by exact Hne.
  rewrite Hp.
  apply allowed_scheme_spec in Hs. rewrite Hs. simpl.
  destruct (String.eqb_spec (netloc parsed) ""); [contradiction |].
  rewrite registry_fails_permissive by exact Hr. reflexivity.
Qed.

End ValidatorFacts.

(** C7, as the code has it.  The validator rejects an input that is
    empty or consists of whitespace only with the code EMPTY_URL (the
    specification's EMPTY); it rejects an input whose parsed scheme is
    not http or https, or whose netloc is empty, or that does not
    parse, with the code INVALID_FORMAT (the specification's MALFORMED);
    and when the registry is unavailable or fails, a well-formed input
    is accepted.  The format check reads the netloc and nothing else of
    the authority: an input with an allowed scheme and a netloc that is
    not empty is never MALFORMED, whether or not the netloc names a
    host.  With the reference parser: the empty string is EMPTY,
    ftp://x.com is MALFORMED, and https://x.com/a is accepted when
    yt-dlp is not installed. *)
Theorem C7_validator_reason_codes
    (urlparse : string -> Result Validators.ParseResult)
    (yt_dlp : Validators.Registry) (url : string) :
  (Validators.strip url = "" ->
     Validators.is_valid (Validators.validate urlparse yt_dlp url) = false
     /\ Validators.reason_code_of (Validators.validate urlparse yt_dlp url)
        = Some Validators.EMPTY)
  /\ (forall ws, Forall (fun w => In w Validators.whitespace) ws ->
        Validators.strip (fold_right String.append "" ws) = "")
  /\ (Validators.strip url <> "" ->
      (forall parsed, urlparse (Validators.strip url) = Ok parsed ->
         ~ In (Validators.scheme parsed) Validators.ALLOWED_SCHEMES
         \/ Validators.netloc parsed = "") ->
      Validators.is_valid (Validators.validate urlparse yt_dlp url) = false
      /\ Validators.reason_code_of (Validators.validate urlparse yt_dlp url)
         = Some Validators.MALFORMED)
  /\ (forall parsed,
        Validators.strip url <> "" ->
        urlparse (Validators.strip url) = Ok parsed ->
        In (Validators.scheme parsed) Validators.ALLOWED_SCHEMES ->
        Validators.netloc parsed <> "" ->
        registry_fails yt_dlp (Validators.strip url) ->
        Validators.is_valid (Validators.validate urlparse yt_dlp url) = true)
  /\ Validators.reason_code_of
       (Validators.validate Validators.urlparse_model yt_dlp "")
     = Some Validators.EMPTY
  /\ Validators.reason_code_of
       (Validators.validate Validators.urlparse_model yt_dlp "ftp://x.com")
     = Some Validators.MALFORMED
  /\ Validators.validate Validators.urlparse_model Validators.NotInstalled
                         "https://x.com/a"
     = Validators.mkValidationResult true "" ""
  /\ (forall parsed,
        Validators.strip url <> "" ->
        urlparse (Validators.strip url) = Ok parsed ->
        In (Validators.scheme parsed) Validators.ALLOWED_SCHEMES ->
        Validators.netloc parsed <> "" ->
        Validators.reason_code_of (Validators.validate urlparse yt_dlp url)
        <> Some Validators.MALFORMED).
Proof.
  split.
  { intros H. rewrite validate_empty by exact H. split; reflexivity. }
  split; [exact strip_whitespace_only |].
  split.
  { intros Hne Hbad. rewrite validate_malformed by assumption.
    split; reflexivity. }
  split.
  { intros parsed Hne Hp Hs Hn Hr.
    rewrite (validate_permissive urlparse yt_dlp url parsed) by assumption.
    reflexivity. }
  split; [reflexivity |].
  split.
  { rewrite validate_malformed; [reflexivity | discriminate |].
    intros parsed H. vm_compute in H. inversion H; subst. left.
    simpl. intros [E | [E | []]]; discriminate. }
  split; [reflexivity |].
  intros parsed Hne Hp Hs Hn.
  rewrite (validate_well_formed urlparse yt_dlp url parsed) by assumption.
  destruct (Validators._is_site_supported yt_dlp (Validators.strip url));
    discriminate.
Qed.

Lemma C7_validator_witness :
  Validators.reason_code_of
    (Validators.validate Validators.urlparse_model Validators.NotInstalled "   ")
  = Some Validators.EMPTY
  /\ Validators.reason_code_of
       (Validators.validate Validators.urlparse_model Validators.NotInstalled
                            "ftp://example.com/file.mp4")
     = Some Validators.MALFORMED
  /\ Validators.is_valid
       (Validators.validate Validators.urlparse_model
          (Validators.Installed (Ok [raising_extractor]))
          " https://vimeo.com/123456789 ")
     = true.
Proof.
  split; [| split].
  - destruct (C7_validator_reason_codes Validators.urlparse_model
                Validators.NotInstalled "   ") as (Hempty & _).
    apply Hempty. reflexivity.
  - destruct (C7_validator_reason_codes Validators.urlparse_model
                Validators.NotInstalled "ftp://example.com/file.mp4")
      as (_ & _ & Hmalformed & _).
    apply Hmalformed.
    + discriminate.
    + intros parsed H. vm_compute in H. inversion H; subst. left.
      simpl. intros [E | [E | []]]; discriminate.
  - destruct (C7_validator_reason_codes Validators.urlparse_model
                (Validators.Installed (Ok [raising_extractor]))
                " https://vimeo.com/123456789 ")
      as (_ & _ & _ & Hpermissive & _).
    apply (Hpermissive (Validators.mkParseResult "https" "vimeo.com")).
    + discriminate.
    + reflexivity.
    + simpl. right. left. reflexivity.
    + discriminate.
    + right. right. exists [raising_extractor], (Exception_ "extractor failed").
      split; reflexivity.
Defined.

(** C7, evaluated where the code misses the host.  The claim has an
    input whose host is absent rejected as MALFORMED, and the module
    announces a check of the host.  [http://:80/] and [https://user@/x]
    parse with the netlocs [:80] and [user@], which name no host
    ([parsed.hostname] is [None]); the validator tests the netloc, finds
    it not empty, and goes on to the registry: the input is accepted
    when yt-dlp is not installed, and gets UNSUPPORTED_SITE, not
    MALFORMED, when no extractor matches. *)
Lemma C7_netloc_without_host_is_accepted :
  Validators.urlparse_model "http://:80/"
  = Ok (Validators.mkParseResult "http" ":80")
  /\ Validators.hostname_is_None (Validators.mkParseResult "http" ":80") = true
  /\ Validators.validate Validators.urlparse_model Validators.NotInstalled
                         "http://:80/"
     = Validators.mkValidationResult true "" ""
  /\ Validators.reason_code_of
       (Validators.validate Validators.urlparse_model
          (Validators.Installed (Ok [])) "http://:80/")
     = Some Validators.UNSUPPORTED_SITE
  /\ Validators.urlparse_model "https://user@/x"
     = Ok (Validators.mkParseResult "https" "user@")
  /\ Validators.hostname_is_None (Validators.mkParseResult "https" "user@")
     = true
  /\ Validators.validate Validators.urlparse_model Validators.NotInstalled
                         "https://user@/x"
     = Validators.mkValidationResult true "" "".
Proof.
  repeat split; vm_compute; reflexivity.
Qed.

(** ** The progress hook *)

(** C8, evaluated.  The hook computes the percentage in binary64:
    [downloaded / total] is rounded, the product by 100 is rounded again,
    and [int] truncates.  For 29 bytes of 100 the quotient is just below
    0.29, the product is 28.999999999999996, and the percentage handed to
    the sink is 28, while the integer part of 100 * 29 / 100 is 29.  The
    same happens for 29 MiB of 100 MiB.  When the total is absent, [None]
    with no estimate, or zero, the percentage is 0. *)
Theorem C8_percent_is_truncated_float_product :
  YtdlpAdapter.progress_hook false
    (YtdlpAdapter.mkHookDict (Some "downloading")
       (Some (YtdlpAdapter.PyInt 100)) None
       (Some (YtdlpAdapter.PyInt 29)) None None)
  = Ok (Some (YtdlpAdapter.mkProgressInfo (Some 28) (Some "downloading") None))
  /\ 100 * 29 / 100 = 29
  /\ YtdlpAdapter.percent_of 30408704 104857600 = Ok 28
  /\ 100 * 30408704 / 104857600 = 29
  /\ (forall st dl ti fn,
        YtdlpAdapter.compute_percent
          (YtdlpAdapter.mkHookDict st None None dl ti fn) = Ok 0
        /\ YtdlpAdapter.compute_percent
             (YtdlpAdapter.mkHookDict st (Some YtdlpAdapter.PyNone) None dl ti fn)
           = Ok 0
        /\ YtdlpAdapter.compute_percent
             (YtdlpAdapter.mkHookDict st (Some (YtdlpAdapter.PyInt 0)) None dl ti fn)
           = Ok 0
        /\ YtdlpAdapter.compute_percent
             (YtdlpAdapter.mkHookDict st (Some (YtdlpAdapter.PyInt 0))
                (Some (YtdlpAdapter.PyInt 0)) dl ti fn)
           = Ok 0).
Proof.
  split; [vm_compute; reflexivity |].
  split; [reflexivity |].
  split; [vm_compute; reflexivity |].
  split; [reflexivity |].
  intros st dl ti fn. repeat split.
Qed.

(** ** The coordinator *)

Section ServiceFacts.

Import DownloadService.

Variable self : Collaborators.

Lemma handle_progress_run r progress_info w :
  handle_progress r progress_info w
  = (Ok (), log (event_of progress_info)
                (set_objects (alter (update_of progress_info) r) w)).
Proof. reflexivity. Qed.

Lemma for_each_handle_progress r reports : forall w,
  for_each (handle_progress r) reports w = (Ok (), after_reports r reports w).
Proof.
  induction reports as [|progress_info rest IH]; intros w.
  - reflexivity.
  - cbn [for_each after_reports]. unfold bind.
    rewrite handle_progress_run. apply IH.
Qed.

(** What a list of reports changes: the record at [r] and the trace. *)
Lemma after_reports_objects r reports : forall w,
  objects (after_reports r reports w)
  = alter (run_reports reports) r (objects w).
Proof.
  induction reports as [|progress_info rest IH]; intros w; simpl.
  - symmetry. apply alter_id. reflexivity.
  - rewrite IH. simpl. rewrite alter_alter_eq. reflexivity.
Qed.

Lemma after_reports_sink_calls r reports : forall w,
  sink_calls (after_reports r reports w)
  = (sink_calls w ++ map event_of reports)%list.
Proof.
  induction reports as [|progress_info rest IH]; intros w; simpl.
  - rewrite app_nil_r. reflexivity.
  - rewrite IH. simpl. rewrite <- app_assoc. reflexivity.
Qed.

Lemma after_reports_frame r reports : forall w,
  _current_download (after_reports r reports w) = _current_download w
  /\ threads (after_reports r reports w) = threads w
  /\ cancel_calls (after_reports r reports w) = cancel_calls w
  /\ clock (after_reports r reports w) = clock w
  /\ uuid_drawn (after_reports r reports w) = uuid_drawn w
  /\ history_added (after_reports r reports w) = history_added w.
Proof.
  induction reports as [|progress_info rest IH]; intros w; simpl.
  - repeat split.
  - destruct (IH (log (event_of progress_info)
                    (set_objects (alter (update_of progress_info) r) w)))
      as (H1 & H2 & H3 & H4 & H5 & H6).
    rewrite H1, H2, H3, H4, H5, H6. repeat split.
Qed.

Lemma map_event_of_progress reports :
  forallb is_on_progress (map event_of reports) = true.
Proof. induction reports; simpl; auto. Qed.

Lemma engine_done_lookup r folder d w :
  objects w !! r = Some d ->
  objects (engine_done self r folder d w) !! r
  = Some (record_at_engine_end self folder d).
Proof.
  intros H. unfold engine_done, connecting.
  rewrite after_reports_objects. simpl.
  rewrite !lookup_alter_eq, H. reflexivity.
Qed.

Lemma engine_done_sink_calls r folder d w :
  sink_calls (engine_done self r folder d w)
  = (sink_calls w
     ++ on_progress 0 CONNECTING None
        :: map event_of (reports (engine_run self folder d)))%list.
Proof.
  unfold engine_done, connecting.
  rewrite after_reports_sink_calls. simpl.
  rewrite <- app_assoc. reflexivity.
Qed.

Lemma engine_done_clock r folder d w :
  clock (engine_done self r folder d w) = clock w.
Proof.
  unfold engine_done.
  destruct (after_reports_frame r (reports (engine_run self folder d))
              (connecting r w)) as (_ & _ & _ & -> & _).
  reflexivity.
Qed.

Lemma connecting_lookup r d w :
  objects w !! r = Some d ->
  objects (connecting r w) !! r
  = Some (Download.update_progress 0 CONNECTING None d).
Proof.
  intros H. unfold connecting. simpl. rewrite lookup_alter_eq, H. reflexivity.
Qed.

(** The worker reaches the end of the engine call, whatever the
    reports: from there on only the engine's outcome matters. *)
Lemma execute_download_run r folder w d :
  objects w !! r = Some d ->
  _execute_download self r folder w
  = on_engine_result self r (outcome (engine_run self folder d))
                     (engine_done self r folder d w).
Proof.
  intros Hr.
  unfold _execute_download, try_except, bind, modify, call.
  fold (connecting r w).
  unfold read at 1. rewrite (connecting_lookup r d w Hr).
  unfold download_call, bind.
  rewrite for_each_handle_progress.
  reflexivity.
Qed.

Lemma mark_run r f w : mark r f w = (Ok (), marked r f w).
Proof. reflexivity. Qed.

Lemma marked_lookup r f w d :
  objects w !! r = Some d ->
  objects (marked r f w) !! r = Some (f (clock w) d).
Proof.
  intros H. unfold marked. simpl. rewrite lookup_alter_eq, H. reflexivity.
Qed.

Lemma call_on_complete_run r w d :
  objects w !! r = Some d ->
  call_on_complete r w = (Ok (), log (on_complete r d) w).
Proof.
  intros H. unfold call_on_complete, bind, read. rewrite H. reflexivity.
Qed.

Lemma completed_world_lookup r p w d :
  objects w !! r = Some d ->
  objects (completed_world r p w) !! r
  = Some (completed_record p (clock w) d).
Proof.
  intros H. unfold completed_world, completed_record.
  rewrite (marked_lookup r _ _ (Download.set_output_path p d)); [reflexivity |].
  simpl. rewrite lookup_alter_eq, H. reflexivity.
Qed.

(** The three [except]/no-[except] exits of the worker. *)
Lemma on_cancelled r w d :
  objects w !! r = Some d ->
  on_engine_result self r (Raise CancelledException) w
  = (Ok (), log (on_complete r (Download.mark_cancelled (clock w) d))
                (marked r Download.mark_cancelled w)).
Proof.
  intros H. unfold on_engine_result, try_except, bind, lift.
  rewrite mark_run.
  apply call_on_complete_run, marked_lookup, H.
Qed.

Lemma handler_failed r w e :
  e <> CancelledException ->
  match e with
  | CancelledException =>
      bind (mark r Download.mark_cancelled) (fun _ => call_on_complete r)
  | _ =>
      bind (mark r (Download.mark_error (reported_message e)))
           (fun _ => call (on_error (reported_message e)))
  end w
  = (Ok (), log (on_error (reported_message e))
                (marked r (Download.mark_error (reported_message e)) w)).
Proof. intros He. destruct e; try reflexivity. contradiction. Qed.

Lemma on_failed r w e :
  e <> CancelledException ->
  on_engine_result self r (Raise e) w
  = (Ok (), log (on_error (reported_message e))
                (marked r (Download.mark_error (reported_message e)) w)).
Proof.
  intros He. unfold on_engine_result, try_except, bind at 1, lift.
  apply (handler_failed r w e He).
Qed.

Lemma on_returned_without_history r w d p :
  objects w !! r = Some d ->
  history_store self = None ->
  on_engine_result self r (Ok p) w
  = (Ok (), log (on_complete r (completed_record p (clock w) d))
                (completed_world r p w)).
Proof.
  intros H Hh. unfold on_engine_result, try_except, bind, lift, modify.
  rewrite mark_run, Hh. fold (completed_world r p w). unfold ret.
  rewrite (call_on_complete_run r _ _ (completed_world_lookup r p w d H)).
  reflexivity.
Qed.

Lemma on_returned_history_raises r w d p add e :
  objects w !! r = Some d ->
  history_store self = Some add ->
  add (HistoryEntry.from_download (isoformat self)
         (completed_record p (clock w) d)) = Some e ->
  e <> CancelledException ->
  on_engine_result self r (Ok p) w
  = (Ok (), log (on_error (reported_message e))
                (marked r (Download.mark_error (reported_message e))
                        (completed_world r p w))).
Proof.
  intros H Hh Hadd He.
  unfold on_engine_result, try_except, bind at 1 2 3 4, lift, modify.
  rewrite mark_run, Hh. fold (completed_world r p w).
  unfold bind at 1, read.
  rewrite (completed_world_lookup r p w d H).
  unfold history_add. rewrite Hadd. unfold raise.
  apply (handler_failed r _ e He).
Qed.

Lemma on_returned_history_records r w d p add :
  objects w !! r = Some d ->
  history_store self = Some add ->
  add (HistoryEntry.from_download (isoformat self)
         (completed_record p (clock w) d)) = None ->
  on_engine_result self r (Ok p) w
  = (Ok (), log (on_complete r (completed_record p (clock w) d))
                (add_history
                   (HistoryEntry.from_download (isoformat self)
                      (completed_record p (clock w) d))
                   (completed_world r p w))).
Proof.
  intros H Hh Hadd.
  unfold on_engine_result, try_except, bind at 1 2 3 4, lift, modify.
  rewrite mark_run, Hh. fold (completed_world r p w).
  unfold bind at 1, read.
  rewrite (completed_world_lookup r p w d H).
  unfold history_add. rewrite Hadd. unfold update.
  rewrite (call_on_complete_run r _ (completed_record p (clock w) d)).
  - reflexivity.
  - simpl. apply (completed_world_lookup r p w d H).
Qed.

Lemma count_app p l1 : forall l2,
  count p (l1 ++ l2) = (count p l1 + count p l2)%nat.
Proof.
  induction l1 as [|e l1 IH]; intros l2; simpl; [reflexivity |].
  rewrite IH. lia.
Qed.

Lemma count_reports p reports :
  (forall progress_info, p (event_of progress_info) = false) ->
  count p (map event_of reports) = 0%nat.
Proof.
  intros Hp. induction reports as [|x rest IH]; simpl; [reflexivity |].
  rewrite Hp, IH. reflexivity.
Qed.

End ServiceFacts.

(** C6.  When the engine call raises the cancellation outcome, the
    worker marks the record CANCELLED with [completed_at] set, invokes
    the completion sink once, last, with the record, and never invokes
    the error sink. *)
Theorem C6_cancellation_routed_to_completion
    (self : DownloadService.Collaborators) (r : DownloadService.ref)
    (folder : Path) (w : DownloadService.World) (d : Download.t) :
  DownloadService.objects w !! r = Some d ->
  DownloadService.outcome (engine_run self folder d) = Raise CancelledException ->
  exists w' d' new_calls,
    DownloadService._execute_download self r folder w = (Ok (), w')
    /\ DownloadService.objects w' !! r = Some d'
    /\ Download.status d' = CANCELLED
    /\ Download.completed_at d' = Some (DownloadService.clock w)
    /\ DownloadService.sink_calls w'
       = (DownloadService.sink_calls w ++ new_calls)%list
    /\ last new_calls = Some (DownloadService.on_complete r d')
    /\ completion_calls new_calls = 1%nat
    /\ error_calls new_calls = 0%nat.
Proof.
  intros Hr Hout.
  pose proof (engine_done_lookup self r folder d w Hr) as Hd3.
  set (w3 := engine_done self r folder d w) in *.
  set (d3 := record_at_engine_end self folder d) in *.
  exists (DownloadService.log
            (DownloadService.on_complete r
               (Download.mark_cancelled (DownloadService.clock w3) d3))
            (marked r Download.mark_cancelled w3)),
         (Download.mark_cancelled (DownloadService.clock w3) d3),
         (DownloadService.on_progress 0 CONNECTING None
            :: map event_of (DownloadService.reports (engine_run self folder d))
            ++ [DownloadService.on_complete r
                  (Download.mark_cancelled (DownloadService.clock w3) d3)]).
  split.
  { rewrite (execute_download_run self r folder w d Hr), Hout.
    apply on_cancelled, Hd3. }
  split; [apply (marked_lookup r _ w3 d3 Hd3) |].
  split; [reflexivity |].
  split; [simpl; f_equal; apply engine_done_clock |].
  split.
  { simpl. unfold w3. rewrite engine_done_sink_calls.
    rewrite <- app_assoc. reflexivity. }
  split; [rewrite app_comm_cons; apply last_snoc |].
  unfold completion_calls, error_calls.
  split; simpl; rewrite count_app, count_reports by reflexivity; reflexivity.
Qed.

Lemma C6_cancellation_witness :
  exists w' d' new_calls,
    DownloadService._execute_download
      (sample_service None (Raise CancelledException)) 0%nat "/output"
      sample_world = (Ok (), w')
    /\ DownloadService.objects w' !! 0%nat = Some d'
    /\ Download.status d' = CANCELLED
    /\ Download.completed_at d' = Some 1%nat
    /\ DownloadService.sink_calls w' = ([] ++ new_calls)%list
    /\ last new_calls = Some (DownloadService.on_complete 0%nat d')
    /\ completion_calls new_calls = 1%nat
    /\ error_calls new_calls = 0%nat.
Proof.
  apply (C6_cancellation_routed_to_completion
           (sample_service None (Raise CancelledException)) 0%nat "/output"
           sample_world sample_download).
  - reflexivity.
  - reflexivity.
Defined.

(** C2, as the code has it.  [self._history_store.add(entry)] is called
    inside the [try] block, after [mark_completed] and before
    [on_complete].  When it raises an exception other than the
    cancellation, the generic [except] clause runs: the record, already
    COMPLETED, is marked ERROR, the error sink is invoked once with the
    exception's message, and the completion sink is never invoked. *)
Theorem C2_history_failure_reaches_error_sink
    (self : DownloadService.Collaborators) (r : DownloadService.ref)
    (folder : Path) (w : DownloadService.World) (d : Download.t)
    (p : Path) (add : HistoryEntry.t -> option PyExc) (e : PyExc) :
  DownloadService.objects w !! r = Some d ->
  DownloadService.outcome (engine_run self folder d) = Ok p ->
  DownloadService.history_store self = Some add ->
  add (HistoryEntry.from_download (DownloadService.isoformat self)
         (completed_record p (DownloadService.clock w)
                           (record_at_engine_end self folder d))) = Some e ->
  e <> CancelledException ->
  exists w' d' new_calls,
    DownloadService._execute_download self r folder w = (Ok (), w')
    /\ DownloadService.objects w' !! r = Some d'
    /\ Download.status d' = ERROR
    /\ Download.error_message d' = Some (reported_message e)
    /\ DownloadService.sink_calls w'
       = (DownloadService.sink_calls w ++ new_calls)%list
    /\ last new_calls = Some (DownloadService.on_error (reported_message e))
    /\ completion_calls new_calls = 0%nat
    /\ error_calls new_calls = 1%nat.
Proof.
  intros Hr Hout Hh Hadd He.
  pose proof (engine_done_lookup self r folder d w Hr) as Hd3.
  pose proof (engine_done_clock self r folder d w) as Hclock.
  set (w3 := engine_done self r folder d w) in *.
  set (d3 := record_at_engine_end self folder d) in *.
  rewrite <- Hclock in Hadd.
  pose proof (completed_world_lookup r p w3 d3 Hd3) as Hd4.
  set (w4 := completed_world r p w3) in *.
  exists (DownloadService.log
            (DownloadService.on_error (reported_message e))
            (marked r (Download.mark_error (reported_message e)) w4)),
         (Download.mark_error (reported_message e) (DownloadService.clock w4)
            (completed_record p (DownloadService.clock w3) d3)),
         (DownloadService.on_progress 0 CONNECTING None
            :: map event_of (DownloadService.reports (engine_run self folder d))
            ++ [DownloadService.on_error (reported_message e)]).
  split.
  { rewrite (execute_download_run self r folder w d Hr), Hout.
    apply (on_returned_history_raises self r w3 d3 p add e Hd3 Hh Hadd He). }
  split; [apply (marked_lookup r _ w4 _ Hd4) |].
  split; [reflexivity |].
  split; [reflexivity |].
  split.
  { simpl. unfold w3. rewrite engine_done_sink_calls.
    rewrite <- app_assoc. reflexivity. }
  split; [rewrite app_comm_cons; apply last_snoc |].
  unfold completion_calls, error_calls.
  split; simpl; rewrite count_app, count_reports by reflexivity; reflexivity.
Qed.

Lemma C2_history_failure_witness :
  exists w' d' new_calls,
    DownloadService._execute_download
      (sample_service (Some failing_history) (Ok "/output/video.mp4"))
      0%nat "/output" sample_world = (Ok (), w')
    /\ DownloadService.objects w' !! 0%nat = Some d'
    /\ Download.status d' = ERROR
    /\ Download.error_message d'
       = Some "[Errno 13] Permission denied: 'history.json'"
    /\ DownloadService.sink_calls w' = ([] ++ new_calls)%list
    /\ last new_calls
       = Some (DownloadService.on_error
                 "[Errno 13] Permission denied: 'history.json'")
    /\ completion_calls new_calls = 0%nat
    /\ error_calls new_calls = 1%nat.
Proof.
  apply (C2_history_failure_reaches_error_sink
           (sample_service (Some failing_history) (Ok "/output/video.mp4"))
           0%nat "/output" sample_world sample_download
           "/output/video.mp4" failing_history
           (Exception_ "[Errno 13] Permission denied: 'history.json'")).
  - reflexivity.
  - reflexivity.
  - reflexivity.
  - reflexivity.
  - discriminate.
Defined.


Lemma start_download_rejects_active self url folder format w r d :
  DownloadService._current_download w = Some r ->
  DownloadService.objects w !! r = Some d ->
  Download.is_terminal d = false ->
  DownloadService.start_download self url folder format w
  = (Ok None,
     DownloadService.log (DownloadService.on_error already_in_progress) w).
Proof.
  intros Hc Hr Ht.
  unfold DownloadService.start_download, DownloadService.bind at 1.
  unfold DownloadService.current_is_active. rewrite Hc.
  unfold DownloadService.bind at 1, DownloadService.read. rewrite Hr.
  unfold DownloadService.ret at 1.
  rewrite is_active_not_terminal, Ht. reflexivity.
Qed.

Lemma start_all_rejects_active self calls : forall w r d,
  DownloadService._current_download w = Some r ->
  DownloadService.objects w !! r = Some d ->
  Download.is_terminal d = false ->
  start_all self calls w
  = (repeat (Ok None) (length calls),
     DownloadService.mkWorld
       (DownloadService.objects w) (DownloadService._current_download w)
       (DownloadService.threads w) (DownloadService.cancel_calls w)
       (DownloadService.clock w) (DownloadService.uuid_drawn w)
       (DownloadService.sink_calls w
        ++ repeat (DownloadService.on_error already_in_progress) (length calls))
       (DownloadService.history_added w)).
Proof.
  induction calls as [|[[url folder] format] rest IH]; intros w r d Hc Hr Ht.
  - simpl. rewrite app_nil_r. destruct w; reflexivity.
  - cbn [start_all].
    rewrite (start_download_rejects_active self url folder format w r d Hc Hr Ht).
    cbv iota beta.
    rewrite (IH (DownloadService.log
                   (DownloadService.on_error already_in_progress) w)
                r d Hc Hr Ht).
    simpl. rewrite <- app_assoc. reflexivity.
Qed.

(** C4.  While the current record is non-terminal, every call of
    [start_download] returns [None], invokes the error sink once with the
    "already in progress" message, and changes nothing else: the records,
    the slot, the started threads, the clock and the history are as
    before, so no background work was started.  The same holds along
    every sequence of such calls. *)
Theorem C4_start_rejected_while_active
    (self : DownloadService.Collaborators) (url : string) (folder : Path)
    (format : DownloadFormat) (w : DownloadService.World)
    (r : DownloadService.ref) (d : Download.t)
    (calls : list (string * Path * DownloadFormat)) :
  DownloadService._current_download w = Some r ->
  DownloadService.objects w !! r = Some d ->
  Download.is_terminal d = false ->
  (exists w',
     DownloadService.start_download self url folder format w = (Ok None, w')
     /\ DownloadService.sink_calls w'
        = (DownloadService.sink_calls w
           ++ [DownloadService.on_error already_in_progress])%list
     /\ DownloadService.objects w' = DownloadService.objects w
     /\ DownloadService._current_download w' = Some r
     /\ DownloadService.threads w' = DownloadService.threads w
     /\ DownloadService.cancel_calls w' = DownloadService.cancel_calls w
     /\ DownloadService.clock w' = DownloadService.clock w
     /\ DownloadService.uuid_drawn w' = DownloadService.uuid_drawn w
     /\ DownloadService.history_added w' = DownloadService.history_added w)
  /\ (exists w',
        start_all self calls w = (repeat (Ok None) (length calls), w')
        /\ DownloadService.sink_calls w'
           = (DownloadService.sink_calls w
              ++ repeat (DownloadService.on_error already_in_progress)
                        (length calls))%list
        /\ DownloadService.objects w' !! r = Some d
        /\ DownloadService._current_download w' = Some r
        /\ DownloadService.threads w' = DownloadService.threads w).
Proof.
  intros Hc Hr Ht. split.
  - eexists. split.
    + apply (start_download_rejects_active self url folder format w r d Hc Hr Ht).
    + simpl. repeat split. exact Hc.
  - eexists. split.
    + apply (start_all_rejects_active self calls w r d Hc Hr Ht).
    + simpl. repeat split; assumption.
Qed.

Lemma C4_start_rejected_witness :
  exists w',
    DownloadService.start_download
      (sample_service None (Ok "/output/video.mp4"))
      "https://www.youtube.com/watch?v=test2" "/output" VIDEO sample_world
    = (Ok None, w')
    /\ DownloadService.sink_calls w'
       = [DownloadService.on_error already_in_progress]
    /\ DownloadService.objects w' = DownloadService.objects sample_world
    /\ DownloadService.threads w' = [].
Proof.
  destruct (C4_start_rejected_while_active
              (sample_service None (Ok "/output/video.mp4"))
              "https://www.youtube.com/watch?v=test2" "/output" VIDEO
              sample_world 0%nat sample_download [])
    as [(w' & Hrun & Hcalls & Hobjects & _ & Hthreads & _) _].
  - reflexivity.
  - reflexivity.
  - reflexivity.
  - exists w'. repeat split; assumption.
Defined.

(** C5.  [cancel_download] returns [False], and does nothing, exactly
    when there is no current record, or the id differs from the current
    record's, or the current record is terminal.  Otherwise it calls the
    engine's [cancel] once and returns [True]; in both cases the records,
    the slot and the sinks are untouched, so the job is still active when
    the call returns. *)
Theorem C5_cancel_download (download_id : string) (w : DownloadService.World) :
  slot_valid w = true ->
  exists b : bool,
    DownloadService.cancel_download download_id w
    = (Ok b, if b then DownloadService.incr_cancel_calls w else w)
    /\ (b = false <-> refused download_id w)
    /\ DownloadService.objects
         (if b then DownloadService.incr_cancel_calls w else w)
       = DownloadService.objects w
    /\ DownloadService._current_download
         (if b then DownloadService.incr_cancel_calls w else w)
       = DownloadService._current_download w
    /\ DownloadService.sink_calls
         (if b then DownloadService.incr_cancel_calls w else w)
       = DownloadService.sink_calls w
    /\ DownloadService.cancel_calls
         (if b then DownloadService.incr_cancel_calls w else w)
       = if b then S (DownloadService.cancel_calls w)
         else DownloadService.cancel_calls w.
Proof.
  intros Hv. unfold slot_valid in Hv.
  unfold DownloadService.cancel_download, refused.
  destruct (DownloadService._current_download w) as [r|] eqn:Hc.
  - destruct (DownloadService.objects w !! r) as [d|] eqn:Hr; [| discriminate].
    unfold DownloadService.bind at 1, DownloadService.read. rewrite Hr.
    destruct (String.eqb_spec (Download.id d) download_id) as [Hid|Hid].
    + rewrite is_active_not_terminal.
      destruct (Download.is_terminal d) eqn:Ht.
      * exists false. split; [reflexivity |]. split; [| repeat split; try assumption].
        split; [| reflexivity]. intros _. right. exists r, d. auto.
      * exists true. split; [reflexivity |]. split; [| repeat split; try assumption].
        split; [discriminate |].
        intros [Hno | (r' & d' & Hr' & Hd' & Hcase)]; [discriminate |].
        inversion Hr'; subst r'. rewrite Hr in Hd'. inversion Hd'; subst d'.
        destruct Hcase as [Hne | Hterm]; [contradiction | congruence].
    + exists false. split; [reflexivity |]. split; [| repeat split; try assumption].
      split; [| reflexivity]. intros _. right. exists r, d. auto.
  - exists false. split; [reflexivity |]. split; [| repeat split; try assumption].
    split; [| reflexivity]. intros _. left. reflexivity.
Qed.

Lemma C5_cancel_download_witness :
  exists b : bool,
    DownloadService.cancel_download "7f0c" sample_world
    = (Ok b, if b then DownloadService.incr_cancel_calls sample_world
             else sample_world)
    /\ (b = false <-> refused "7f0c" sample_world).
Proof.
  destruct (C5_cancel_download "7f0c" sample_world) as (b & Hrun & Hb & _).
  - reflexivity.
  - exists b. split; assumption.
Defined.

(** ** The worker always ends, and ends in a terminal state *)

Lemma on_returned_history_cancelled self r w d p add :
  DownloadService.objects w !! r = Some d ->
  DownloadService.history_store self = Some add ->
  add (HistoryEntry.from_download (DownloadService.isoformat self)
         (completed_record p (DownloadService.clock w) d))
  = Some CancelledException ->
  on_engine_result self r (Ok p) w
  = (Ok (),
     DownloadService.log
       (DownloadService.on_complete r
          (Download.mark_cancelled
             (DownloadService.clock (completed_world r p w))
             (completed_record p (DownloadService.clock w) d)))
       (marked r Download.mark_cancelled (completed_world r p w))).
Proof.
  intros H Hh Hadd.
  unfold on_engine_result, DownloadService.try_except,
    DownloadService.bind at 1 2 3 4, DownloadService.lift,
    DownloadService.modify.
  rewrite mark_run, Hh. fold (completed_world r p w).
  unfold DownloadService.bind at 1, DownloadService.read.
  rewrite (completed_world_lookup r p w d H).
  unfold DownloadService.history_add. rewrite Hadd.
  unfold DownloadService.raise, DownloadService.bind. rewrite mark_run.
  apply call_on_complete_run, marked_lookup, completed_world_lookup, H.
Qed.

Lemma exception_cases (e : PyExc) :
  e = CancelledException \/ e <> CancelledException.
Proof. destruct e; first [left; reflexivity | right; discriminate]. Qed.

(** Whatever the engine and the history store do, the worker returns
    normally and leaves its record in a terminal state with
    [completed_at] set. *)
Lemma execute_download_ends_terminal self r folder w d :
  DownloadService.objects w !! r = Some d ->
  exists w' d',
    DownloadService._execute_download self r folder w = (Ok (), w')
    /\ DownloadService.objects w' !! r = Some d'
    /\ Download.is_terminal d' = true
    /\ is_Some (Download.completed_at d').
Proof.
  intros Hr.
  pose proof (engine_done_lookup self r folder d w Hr) as Hd3.
  rewrite (execute_download_run self r folder w d Hr).
  set (w3 := engine_done self r folder d w) in *.
  set (d3 := record_at_engine_end self folder d) in *.
  destruct (DownloadService.outcome (engine_run self folder d)) as [p|e].
  - pose proof (completed_world_lookup r p w3 d3 Hd3) as Hd4.
    destruct (DownloadService.history_store self) as [add|] eqn:Hh.
    + destruct (add (HistoryEntry.from_download (DownloadService.isoformat self)
                       (completed_record p (DownloadService.clock w3) d3)))
        as [e|] eqn:Hadd.
      * destruct (exception_cases e) as [-> | He].
        -- rewrite (on_returned_history_cancelled self r w3 d3 p add Hd3 Hh Hadd).
           eexists _, _. split; [reflexivity |].
           split; [apply (marked_lookup r _ _ _ Hd4) |].
           split; [reflexivity | eexists; reflexivity].
        -- rewrite (on_returned_history_raises self r w3 d3 p add e Hd3 Hh Hadd He).
           eexists _, _. split; [reflexivity |].
           split; [apply (marked_lookup r _ _ _ Hd4) |].
           split; [reflexivity | eexists; reflexivity].
      * rewrite (on_returned_history_records self r w3 d3 p add Hd3 Hh Hadd).
        eexists _, _. split; [reflexivity |].
        split; [apply Hd4 |].
        split; [reflexivity | eexists; reflexivity].
    + rewrite (on_returned_without_history self r w3 d3 p Hd3 Hh).
      eexists _, _. split; [reflexivity |].
      split; [apply Hd4 |].
      split; [reflexivity | eexists; reflexivity].
  - destruct (exception_cases e) as [-> | He].
    + rewrite (on_cancelled self r w3 d3 Hd3).
      eexists _, _. split; [reflexivity |].
      split; [apply (marked_lookup r _ _ _ Hd3) |].
      split; [reflexivity | eexists; reflexivity].
    + rewrite (on_failed self r w3 e He).
      eexists _, _. split; [reflexivity |].
      split; [apply (marked_lookup r _ _ _ Hd3) |].
      split; [reflexivity | eexists; reflexivity].
Qed.

(** ** Admission of a new job *)

(** With no current record or a terminal one, a valid URL and a writable
    folder, [start_download] builds a PENDING record with progress 0,
    makes it the current one, starts one thread for it and returns it. *)
Lemma start_download_accepts self url folder format w :
  match DownloadService._current_download w with
  | Some r0 => exists d0, DownloadService.objects w !! r0 = Some d0
                          /\ Download.is_terminal d0 = true
  | None => True
  end ->
  Validators.is_valid (DownloadService.validator_validate self url) = true ->
  DownloadService.file_system_can_write self folder = true ->
  DownloadService.start_download self url folder format w
  = (Ok (Some (fresh (dom (DownloadService.objects w)))),
     DownloadService.mkWorld
       (<[fresh (dom (DownloadService.objects w)) :=
            Download.mk url (path_div folder "downloading") format
              (DownloadService.uuid4 self (DownloadService.uuid_drawn w))
              PENDING 0 None None (DownloadService.clock w) None]>
          (DownloadService.objects w))
       (Some (fresh (dom (DownloadService.objects w))))
       (DownloadService.threads w
        ++ [DownloadService.mkThread (fresh (dom (DownloadService.objects w)))
                                     folder])
       (DownloadService.cancel_calls w)
       (S (DownloadService.clock w))
       (S (DownloadService.uuid_drawn w))
       (DownloadService.sink_calls w)
       (DownloadService.history_added w)).
Proof.
  intros Hcur Hvalid Hwrite.
  unfold DownloadService.start_download, DownloadService.bind at 1.
  assert (Hactive : DownloadService.current_is_active w = (Ok false, w)).
  { unfold DownloadService.current_is_active.
    destruct (DownloadService._current_download w) as [r0|]; [| reflexivity].
    destruct Hcur as (d0 & Hd0 & Ht).
    unfold DownloadService.bind, DownloadService.read. rewrite Hd0.
    unfold DownloadService.ret. rewrite is_active_not_terminal, Ht.
    reflexivity. }
  rewrite Hactive, Hvalid, Hwrite. reflexivity.
Qed.

(** The slot keeps referring to an object of the store. *)
Lemma slot_valid_start_download self url folder format w :
  slot_valid w = true ->
  slot_valid (DownloadService.start_download self url folder format w).2 = true.
Proof.
  intros Hv.
  unfold DownloadService.start_download, DownloadService.current_is_active,
    DownloadService.bind, DownloadService.read, DownloadService.ret,
    DownloadService.call.
  destruct (DownloadService._current_download w) as [r0|] eqn:Hc;
    [destruct (DownloadService.objects w !! r0) as [d0|] eqn:Hd0;
       [destruct (Download.is_active d0) |] |];
    try exact Hv;
    destruct (Validators.is_valid (DownloadService.validator_validate self url));
    try exact Hv;
    destruct (DownloadService.file_system_can_write self folder);
    try exact Hv;
    unfold slot_valid; simpl; rewrite lookup_insert_eq; reflexivity.
Qed.

Lemma slot_valid_cancel_download download_id w :
  slot_valid w = true ->
  slot_valid (DownloadService.cancel_download download_id w).2 = true.
Proof.
  intros Hv.
  unfold DownloadService.cancel_download, DownloadService.bind,
    DownloadService.read, DownloadService.ret.
  destruct (DownloadService._current_download w) as [r0|] eqn:Hc;
    [| exact Hv].
  destruct (DownloadService.objects w !! r0) as [d0|] eqn:Hd0; [| exact Hv].
  destruct (negb _); [exact Hv |].
  destruct (negb _); [exact Hv |].
  unfold slot_valid. simpl. rewrite Hc, Hd0. reflexivity.
Qed.

(** * Further properties *)

(** ** The record, along sequences of operations *)

Lemma apply_ops_app ops1 : forall ops2 now d,
  apply_ops now (ops1 ++ ops2) d
  = apply_ops (now + length ops1)%nat ops2 (apply_ops now ops1 d).
Proof.
  induction ops1 as [|op ops1 IH]; intros ops2 now d; simpl.
  - rewrite Nat.add_0_r. reflexivity.
  - rewrite IH. f_equal. lia.
Qed.

(** X1.  The state is decided by the last operation alone, whatever came
    before it; and in every state the record is either active or
    terminal, never both and never neither. *)
Theorem X1_last_operation_decides_state now ops op (d : Download.t) :
  Download.status (apply_ops now (ops ++ [op]) d) = op_status op
  /\ Download.is_active (apply_ops now (ops ++ [op]) d)
     = negb (terminal (op_status op))
  /\ Download.is_active d = negb (Download.is_terminal d).
Proof.
  assert (H : Download.status (apply_ops now (ops ++ [op]) d) = op_status op).
  { rewrite apply_ops_app. simpl. apply apply_op_status. }
  split; [exact H |]. split; [| apply is_active_not_terminal].
  rewrite is_active_not_terminal, is_terminal_status, H. reflexivity.
Qed.

Lemma apply_op_completed_at now op d :
  Download.completed_at (apply_op now op d)
  = if is_mark op then Some now else Download.completed_at d.
Proof. destruct op; reflexivity. Qed.

Lemma apply_op_error_message now op d :
  is_Some (Download.error_message d) ->
  is_Some (Download.error_message (apply_op now op d)).
Proof. destruct op; simpl; intros H; try exact H. eexists; reflexivity. Qed.

Lemma apply_ops_keeps_completed_at ops : forall now d,
  is_Some (Download.completed_at d) ->
  is_Some (Download.completed_at (apply_ops now ops d)).
Proof.
  induction ops as [|op ops IH]; intros now d H; simpl; [exact H |].
  apply IH. rewrite apply_op_completed_at.
  destruct (is_mark op); [eexists; reflexivity | exact H].
Qed.

Lemma apply_ops_keeps_error_message ops : forall now d,
  is_Some (Download.error_message d) ->
  is_Some (Download.error_message (apply_ops now ops d)).
Proof.
  induction ops as [|op ops IH]; intros now d H; simpl; [exact H |].
  apply IH, apply_op_error_message, H.
Qed.

Lemma apply_ops_mark_sets_completed_at ops : forall now d,
  existsb is_mark ops = true ->
  is_Some (Download.completed_at (apply_ops now ops d)).
Proof.
  induction ops as [|op ops IH]; intros now d H; simpl in *; [discriminate |].
  destruct (is_mark op) eqn:Hm.
  - apply apply_ops_keeps_completed_at. rewrite apply_op_completed_at, Hm.
    eexists; reflexivity.
  - apply IH. exact H.
Qed.

(** X2.  No operation clears [completed_at] or [error_message]: once
    set they stay set along every sequence of operations, and a sequence
    that contains a [mark_*] call ends with [completed_at] set. *)
Theorem X2_completion_stamp_is_never_cleared now ops (d : Download.t) :
  (is_Some (Download.completed_at d) ->
   is_Some (Download.completed_at (apply_ops now ops d)))
  /\ (is_Some (Download.error_message d) ->
      is_Some (Download.error_message (apply_ops now ops d)))
  /\ (existsb is_mark ops = true ->
      is_Some (Download.completed_at (apply_ops now ops d))).
Proof.
  split; [apply apply_ops_keeps_completed_at |].
  split; [apply apply_ops_keeps_error_message |].
  apply apply_ops_mark_sets_completed_at.
Qed.

Lemma X2_completion_stamp_witness :
  is_Some (Download.completed_at
             (apply_ops 3%nat [UpdateProgress 10 DOWNLOADING None; MarkCancelled;
                               UpdateProgress 20 DOWNLOADING (Some "again")]
                        sample_download))
  /\ is_Some (Download.error_message
                (apply_ops 5%nat [MarkCompleted; UpdateProgress 0 PENDING None]
                           (Download.mark_error "boom" 4%nat sample_download))).
Proof.
  split.
  - destruct (X2_completion_stamp_is_never_cleared 3%nat
                [UpdateProgress 10 DOWNLOADING None; MarkCancelled;
                 UpdateProgress 20 DOWNLOADING (Some "again")] sample_download)
      as (_ & _ & Hmark).
    apply Hmark. reflexivity.
  - destruct (X2_completion_stamp_is_never_cleared 5%nat
                [MarkCompleted; UpdateProgress 0 PENDING None]
                (Download.mark_error "boom" 4%nat sample_download))
      as (_ & Herr & _).
    apply Herr. eexists. reflexivity.
Defined.

Lemma apply_op_identity now op d :
  Download.id (apply_op now op d) = Download.id d
  /\ Download.url (apply_op now op d) = Download.url d
  /\ Download.output_path (apply_op now op d) = Download.output_path d
  /\ Download.format (apply_op now op d) = Download.format d
  /\ Download.started_at (apply_op now op d) = Download.started_at d.
Proof. destruct op; repeat split. Qed.

(** X3.  No sequence of [update_progress] and [mark_*] calls changes a
    record's [id], [url], [output_path], [format] or [started_at]. *)
Theorem X3_identity_fields_are_kept ops : forall now (d : Download.t),
  Download.id (apply_ops now ops d) = Download.id d
  /\ Download.url (apply_ops now ops d) = Download.url d
  /\ Download.output_path (apply_ops now ops d) = Download.output_path d
  /\ Download.format (apply_ops now ops d) = Download.format d
  /\ Download.started_at (apply_ops now ops d) = Download.started_at d.
Proof.
  induction ops as [|op ops IH]; intros now d; simpl; [repeat split |].
  destruct (IH (S now) (apply_op now op d)) as (H1 & H2 & H3 & H4 & H5).
  destruct (apply_op_identity now op d) as (E1 & E2 & E3 & E4 & E5).
  rewrite H1, H2, H3, H4, H5. repeat split; assumption.
Qed.

(** ** History entries *)

Lemma status_value_inj s1 s2 : status_value s1 = status_value s2 -> s1 = s2.
Proof. destruct s1, s2; simpl; intros H; first [reflexivity | discriminate]. Qed.

Lemma format_value_inj f1 f2 : format_value f1 = format_value f2 -> f1 = f2.
Proof. destruct f1, f2; simpl; intros H; first [reflexivity | discriminate]. Qed.

(** X4.  The history entry built from a record always has a title: the
    record's own when it is a non-empty string, "Sin título" otherwise.
    It keeps the record's id and path, and its status and format strings
    determine the record's state and format. *)
Theorem X4_history_entry_of_download
    (isoformat : datetime -> string) (d d' : Download.t) :
  HistoryEntry.title (HistoryEntry.from_download isoformat d) <> ""
  /\ (truthy_str (Download.title d) = true ->
      Some (HistoryEntry.title (HistoryEntry.from_download isoformat d))
      = Download.title d)
  /\ (truthy_str (Download.title d) = false ->
      HistoryEntry.title (HistoryEntry.from_download isoformat d) = "Sin título")
  /\ HistoryEntry.id (HistoryEntry.from_download isoformat d) = Download.id d
  /\ HistoryEntry.output_path (HistoryEntry.from_download isoformat d)
     = Download.output_path d
  /\ (HistoryEntry.status (HistoryEntry.from_download isoformat d)
      = HistoryEntry.status (HistoryEntry.from_download isoformat d') ->
      Download.status d = Download.status d')
  /\ (HistoryEntry.format (HistoryEntry.from_download isoformat d)
      = HistoryEntry.format (HistoryEntry.from_download isoformat d') ->
      Download.format d = Download.format d').
Proof.
  unfold HistoryEntry.from_download, truthy_str; simpl.
  split; [| split; [| split; [| split; [| split; [| split]]]]];
    try reflexivity.
  - destruct (Download.title d) as [t|]; [| discriminate].
    destruct (String.eqb_spec t ""); [discriminate | assumption].
  - destruct (Download.title d) as [t|]; [| discriminate].
    destruct (String.eqb_spec t ""); [discriminate | reflexivity].
  - destruct (Download.title d) as [t|]; [| reflexivity].
    destruct (String.eqb_spec t ""); [reflexivity | discriminate].
  - apply status_value_inj.
  - apply format_value_inj.
Qed.

Lemma X4_history_entry_witness :
  HistoryEntry.title
    (HistoryEntry.from_download (fun t => pretty t)
       (Download.update_progress 10 DOWNLOADING (Some "") sample_download))
  = "Sin título"
  /\ Some (HistoryEntry.title
             (HistoryEntry.from_download (fun t => pretty t)
                (Download.update_progress 10 DOWNLOADING (Some "Test Video")
                                          sample_download)))
     = Some "Test Video"
  /\ Download.status (Download.mark_completed 1%nat sample_download)
     = Download.status (Download.mark_completed 2%nat sample_download).
Proof.
  split; [| split].
  - destruct (X4_history_entry_of_download (fun t => pretty t)
                (Download.update_progress 10 DOWNLOADING (Some "") sample_download)
                sample_download) as (_ & _ & Hdefault & _).
    apply Hdefault. reflexivity.
  - destruct (X4_history_entry_of_download (fun t => pretty t)
                (Download.update_progress 10 DOWNLOADING (Some "Test Video")
                                          sample_download)
                sample_download) as (_ & Hown & _).
    apply Hown. reflexivity.
  - destruct (X4_history_entry_of_download (fun t => pretty t)
                (Download.mark_completed 1%nat sample_download)
                (Download.mark_completed 2%nat sample_download))
      as (_ & _ & _ & _ & _ & Hstatus & _).
    apply Hstatus. reflexivity.
Defined.

Lemma getitem_Ok data key v :
  HistoryEntry.getitem data key = Ok v <-> data !! key = Some v.
Proof.
  unfold HistoryEntry.getitem. destruct (data !! key); split; intros H;
    inversion H; reflexivity.
Qed.

Lemma from_dict_Ok data e :
  HistoryEntry.from_dict data = Ok e <->
  data !! "id" = Some (HistoryEntry.id e)
  /\ data !! "title" = Some (HistoryEntry.title e)
  /\ data !! "output_path" = Some (HistoryEntry.output_path e)
  /\ data !! "status" = Some (HistoryEntry.status e)
  /\ data !! "format" = Some (HistoryEntry.format e)
  /\ data !! "completed_at" = Some (HistoryEntry.completed_at e).
Proof.
  unfold HistoryEntry.from_dict, HistoryEntry.getitem. split.
  - destruct (data !! "id"); [| discriminate].
    destruct (data !! "title"); [| discriminate].
    destruct (data !! "output_path"); [| discriminate].
    destruct (data !! "status"); [| discriminate].
    destruct (data !! "format"); [| discriminate].
    destruct (data !! "completed_at"); [| discriminate].
    intros H. inversion H; subst. repeat split.
  - intros (-> & -> & -> & -> & -> & ->). destruct e; reflexivity.
Qed.

Lemma from_dict_Raise data x :
  HistoryEntry.from_dict data = Raise x ->
  exists key, In key history_keys /\ data !! key = None /\ x = KeyError key.
Proof.
  unfold HistoryEntry.from_dict, HistoryEntry.getitem, history_keys.
  destruct (data !! "id") eqn:E1;
    [| intros H; inversion H; exists "id"; simpl; auto].
  destruct (data !! "title") eqn:E2;
    [| intros H; inversion H; exists "title"; simpl; auto].
  destruct (data !! "output_path") eqn:E3;
    [| intros H; inversion H; exists "output_path"; simpl; auto].
  destruct (data !! "status") eqn:E4;
    [| intros H; inversion H; exists "status"; simpl; auto 6].
  destruct (data !! "format") eqn:E5;
    [| intros H; inversion H; exists "format"; simpl; auto 7].
  destruct (data !! "completed_at") eqn:E6;
    [| intros H; inversion H; exists "completed_at"; simpl; auto 8].
  discriminate.
Qed.

(** X5.  [HistoryEntry.from_dict] returns an entry exactly when the
    dictionary has the six keys, and then the entry holds their values
    (other keys are ignored); otherwise it raises [KeyError] for one of
    the six keys, which the dictionary lacks. *)
Theorem X5_from_dict_needs_the_six_keys
    (data : gmap string string) (e : HistoryEntry.t) (x : PyExc) :
  (HistoryEntry.from_dict data = Ok e <->
   data !! "id" = Some (HistoryEntry.id e)
   /\ data !! "title" = Some (HistoryEntry.title e)
   /\ data !! "output_path" = Some (HistoryEntry.output_path e)
   /\ data !! "status" = Some (HistoryEntry.status e)
   /\ data !! "format" = Some (HistoryEntry.format e)
   /\ data !! "completed_at" = Some (HistoryEntry.completed_at e))
  /\ (HistoryEntry.from_dict data = Raise x ->
      exists key, In key history_keys /\ data !! key = None
                  /\ x = KeyError key).
Proof. split; [apply from_dict_Ok | apply from_dict_Raise]. Qed.

Lemma X5_from_dict_witness :
  exists key,
    In key history_keys
    /\ (<["id" := "test-id"]> (<["title" := "Test Video"]> ∅)
         : gmap string string) !! key = None
    /\ KeyError "output_path" = KeyError key.
Proof.
  destruct (X5_from_dict_needs_the_six_keys
              (<["id" := "test-id"]> (<["title" := "Test Video"]> ∅))
              (HistoryEntry.mk "" "" "" "" "" "") (KeyError "output_path"))
    as (_ & Hraise).
  apply Hraise. reflexivity.
Defined.

(** ** Settings and the configuration store *)

Lemma settings_roundtrip (s : Settings.t) :
  Settings.from_dict (Settings.to_dict s) = s.
Proof.
  destruct s as [folder fmt shown].
  unfold Settings.from_dict, Settings.get, Settings.to_dict.
  cbn [Settings.last_output_folder Settings.default_format
       Settings.show_disclaimer].
  repeat (first [rewrite lookup_insert_eq | rewrite lookup_insert_ne by done]).
  reflexivity.
Qed.

Lemma settings_ignores_other_keys data key v :
  key <> "last_output_folder" -> key <> "default_format" ->
  key <> "show_disclaimer" ->
  Settings.from_dict (<[key := v]> data) = Settings.from_dict data.
Proof.
  intros H1 H2 H3. unfold Settings.from_dict, Settings.get.
  rewrite !lookup_insert_ne by assumption. reflexivity.
Qed.

(** X6.  [Settings.from_dict] undoes [Settings.to_dict]; it reads three
    keys only, so the version number and any other key are ignored; an
    empty dictionary gives the defaults; and a key that is present with
    the value [None] keeps [None], the default being for absent keys. *)
Theorem X6_settings_dictionary
    (s : Settings.t) (data : gmap string Settings.Value)
    (key : string) (v : Settings.Value) :
  Settings.from_dict (Settings.to_dict s) = s
  /\ Settings.from_dict ∅ = Settings.init
  /\ (key <> "last_output_folder" -> key <> "default_format" ->
      key <> "show_disclaimer" ->
      Settings.from_dict (<[key := v]> data) = Settings.from_dict data)
  /\ Settings.default_format
       (Settings.from_dict (<["default_format" := Settings.VNone]> data))
     = Settings.VNone.
Proof.
  split; [apply settings_roundtrip |].
  split; [reflexivity |].
  split; [apply settings_ignores_other_keys |].
  unfold Settings.from_dict, Settings.get. simpl.
  rewrite lookup_insert_eq. reflexivity.
Qed.

Lemma X6_settings_dictionary_witness :
  Settings.from_dict (<["version" := Settings.VInt 2]> ∅) = Settings.from_dict ∅.
Proof.
  destruct (X6_settings_dictionary Settings.init ∅ "version" (Settings.VInt 2))
    as (_ & _ & Hother & _).
  apply Hother; discriminate.
Defined.

Lemma config_load_cached st f w dirs :
  ConfigStore.load (ConfigStore.mk (Some st) f w dirs)
  = (Ok st, ConfigStore.mk (Some st) f w dirs).
Proof. reflexivity. Qed.

Lemma config_load_Ok self st self1 :
  ConfigStore.load self = (Ok st, self1) ->
  ConfigStore._settings self1 = Some st
  /\ ConfigStore.file self1 = ConfigStore.file self
  /\ ConfigStore.writable self1 = ConfigStore.writable self
  /\ ConfigStore.is_dir self1 = ConfigStore.is_dir self.
Proof.
  unfold ConfigStore.load.
  destruct (ConfigStore._settings self) as [c|] eqn:Hc.
  - intros H. inversion H; subst. rewrite Hc. repeat split.
  - destruct (ConfigStore.file self) as [|data|e] eqn:Hf.
    + intros H. inversion H; subst. repeat split; simpl; congruence.
    + intros H. inversion H; subst. repeat split; simpl; congruence.
    + destruct (caught e); intros H; inversion H; subst.
      repeat split; simpl; congruence.
Qed.

Lemma config_load_Raise self e self1 :
  ConfigStore.load self = (Raise e, self1) -> self1 = self.
Proof.
  unfold ConfigStore.load.
  destruct (ConfigStore._settings self); [discriminate |].
  destruct (ConfigStore.file self) as [|data|x]; try discriminate.
  destruct (caught x); [discriminate |].
  intros H. inversion H. reflexivity.
Qed.

Lemma config_save_cache self :
  ConfigStore._settings (ConfigStore.save self).2
  = ConfigStore._settings (ConfigStore.load self).2
  /\ ConfigStore.is_dir (ConfigStore.save self).2 = ConfigStore.is_dir self
  /\ ConfigStore.writable (ConfigStore.save self).2 = ConfigStore.writable self.
Proof.
  unfold ConfigStore.save.
  destruct (ConfigStore.load self) as [[st|e] self1] eqn:Hl; simpl.
  - destruct (config_load_Ok self st self1 Hl) as (_ & _ & Hw & Hd).
    destruct (ConfigStore.writable self1) eqn:Hw1; simpl;
      repeat split; simpl; congruence.
  - unfold ConfigStore.load in Hl.
    destruct (ConfigStore._settings self); [inversion Hl |].
    destruct (ConfigStore.file self) as [|data|x]; try (inversion Hl; fail).
    destruct (caught x); inversion Hl; subst. repeat split.
Qed.

Lemma config_assign_Ok g self self' :
  ConfigStore.assign g self = (Ok (), self') ->
  exists st, (ConfigStore.load self).1 = Ok st
             /\ ConfigStore._settings self' = Some (g st)
             /\ ConfigStore.is_dir self' = ConfigStore.is_dir self.
Proof.
  unfold ConfigStore.assign.
  destruct (ConfigStore.load self) as [[st|e] self1] eqn:Hl; [| discriminate].
  intros H. inversion H; subst. exists st. split; [reflexivity |].
  destruct (config_load_Ok self st self1 Hl) as (_ & _ & _ & Hd).
  destruct (config_save_cache (ConfigStore.set_settings (g st) self1))
    as (Hc & Hd' & _).
  rewrite Hc, Hd'. simpl. split; [reflexivity | exact Hd].
Qed.

Lemma config_load_of_cache self st :
  ConfigStore._settings self = Some st -> ConfigStore.load self = (Ok st, self).
Proof. unfold ConfigStore.load. intros ->. reflexivity. Qed.

(** X7.  What a setter of the configuration store assigns is what the
    matching getter returns afterwards, whether or not the file could be
    written: the stored format is read back as the same format, the
    disclaimer flag as [False], and the folder as itself when it is an
    existing directory and as [None] when it is not.  Each setter leaves
    the two other settings as they were. *)
Theorem X7_config_setters_are_read_back
    (self self' : ConfigStore.t) (format : DownloadFormat) (folder : Path) :
  (ConfigStore.set_default_format format self = (Ok (), self') ->
   ConfigStore.get_default_format self' = (Ok format, self')
   /\ exists st, (ConfigStore.load self).1 = Ok st
        /\ (ConfigStore.should_show_disclaimer self').1
           = Ok (Settings.show_disclaimer st))
  /\ (ConfigStore.mark_disclaimer_shown self = (Ok (), self') ->
      ConfigStore.should_show_disclaimer self'
      = (Ok (Settings.VBool false), self')
      /\ (ConfigStore.get_default_format self').1
         = (ConfigStore.get_default_format self).1)
  /\ (folder <> "" ->
      ConfigStore.set_last_output_folder folder self = (Ok (), self') ->
      ConfigStore.get_last_output_folder self'
      = (Ok (if ConfigStore.is_dir self folder then Some folder else None),
         self')).
Proof.
  split; [| split].
  - intros H. apply config_assign_Ok in H as (st & Hl & Hc & _).
    unfold ConfigStore.get_default_format, ConfigStore.should_show_disclaimer.
    rewrite (config_load_of_cache self' _ Hc). simpl. split.
    + destruct format; reflexivity.
    + exists st. split; [exact Hl | reflexivity].
  - intros H. apply config_assign_Ok in H as (st & Hl & Hc & _).
    unfold ConfigStore.get_default_format, ConfigStore.should_show_disclaimer.
    rewrite (config_load_of_cache self' _ Hc). simpl.
    split; [reflexivity |].
    destruct (ConfigStore.load self) as [[st0|e] self1]; simpl in *;
      inversion Hl; subst. reflexivity.
  - intros Hne H. apply config_assign_Ok in H as (st & Hl & Hc & Hd).
    unfold ConfigStore.get_last_output_folder.
    rewrite (config_load_of_cache self' _ Hc). simpl.
    destruct (String.eqb_spec folder ""); [contradiction |]. simpl.
    rewrite Hd. reflexivity.
Qed.

Lemma X7_config_setters_witness :
  ConfigStore.get_default_format
    (ConfigStore.set_default_format AUDIO sample_config).2
  = (Ok AUDIO, (ConfigStore.set_default_format AUDIO sample_config).2)
  /\ ConfigStore.should_show_disclaimer
       (ConfigStore.mark_disclaimer_shown sample_config).2
     = (Ok (Settings.VBool false),
        (ConfigStore.mark_disclaimer_shown sample_config).2)
  /\ ConfigStore.get_last_output_folder
       (ConfigStore.set_last_output_folder "/home/user/Downloads" sample_config).2
     = (Ok (Some "/home/user/Downloads"),
        (ConfigStore.set_last_output_folder "/home/user/Downloads"
                                            sample_config).2).
Proof.
  split; [| split].
  - destruct (X7_config_setters_are_read_back sample_config
                (ConfigStore.set_default_format AUDIO sample_config).2
                AUDIO "") as (Hformat & _).
    apply Hformat. reflexivity.
  - destruct (X7_config_setters_are_read_back sample_config
                (ConfigStore.mark_disclaimer_shown sample_config).2
                VIDEO "") as (_ & Hshown & _).
    apply Hshown. reflexivity.
  - destruct (X7_config_setters_are_read_back sample_config
                (ConfigStore.set_last_output_folder "/home/user/Downloads"
                                                    sample_config).2
                VIDEO "/home/user/Downloads") as (_ & _ & Hfolder).
    apply Hfolder; [discriminate | reflexivity].
Defined.

(** X8.  With nothing cached, a configuration file that fails with
    [JSONDecodeError], [KeyError] or [TypeError] is replaced by the
    default settings, which are cached.  Any other failure is not caught
    by [load]: it escapes from the getters and setters and nothing is
    cached, while [save] returns [False]; the file is left as it was. *)
Theorem X8_config_load_failures
    (e : ReadError) (w : bool) (dirs : Path -> bool) (format : DownloadFormat) :
  let self := ConfigStore.mk None (ConfigStore.ReadFails e) w dirs in
  (caught e = true ->
   ConfigStore.load self
   = (Ok Settings.init,
      ConfigStore.mk (Some Settings.init) (ConfigStore.ReadFails e) w dirs)
   /\ ConfigStore.get_default_format self
      = (Ok VIDEO,
         ConfigStore.mk (Some Settings.init) (ConfigStore.ReadFails e) w dirs))
  /\ (caught e = false ->
      ConfigStore.load self = (Raise (escaping e), self)
      /\ ConfigStore.get_default_format self = (Raise (escaping e), self)
      /\ ConfigStore.set_default_format format self = (Raise (escaping e), self)
      /\ ConfigStore.mark_disclaimer_shown self = (Raise (escaping e), self)
      /\ ConfigStore.save self = (false, self)).
Proof.
  intros self. split; intros Hc.
  - unfold ConfigStore.get_default_format, ConfigStore.load; simpl.
    rewrite Hc. split; reflexivity.
  - unfold ConfigStore.get_default_format, ConfigStore.set_default_format,
      ConfigStore.mark_disclaimer_shown, ConfigStore.assign, ConfigStore.save,
      ConfigStore.load; simpl.
    rewrite Hc. repeat split.
Qed.

Lemma X8_config_load_failures_witness :
  ConfigStore.load
    (ConfigStore.mk None (ConfigStore.ReadFails (JSONDecodeError "Expecting value"))
                    true (fun _ => false))
  = (Ok Settings.init,
     ConfigStore.mk (Some Settings.init)
       (ConfigStore.ReadFails (JSONDecodeError "Expecting value"))
       true (fun _ => false))
  /\ ConfigStore.save
       (ConfigStore.mk None
          (ConfigStore.ReadFails
             (OtherError (Exception_ "'list' object has no attribute 'get'")))
          true (fun _ => false))
     = (false,
        ConfigStore.mk None
          (ConfigStore.ReadFails
             (OtherError (Exception_ "'list' object has no attribute 'get'")))
          true (fun _ => false)).
Proof.
  split.
  - destruct (X8_config_load_failures (JSONDecodeError "Expecting value")
                true (fun _ => false) VIDEO) as (Hcaught & _).
    apply Hcaught. reflexivity.
  - destruct (X8_config_load_failures
                (OtherError (Exception_ "'list' object has no attribute 'get'"))
                true (fun _ => false) VIDEO) as (_ & Hescapes).
    apply Hescapes. reflexivity.
Defined.

(** X9.  When [save] returns [True], the file holds the cached settings:
    a new store over that file, with an empty cache, loads exactly them.
    When [save] returns [False] the file is unchanged. *)
Theorem X9_config_save_then_load (self self' : ConfigStore.t) :
  (ConfigStore.save self = (true, self') ->
   exists st,
     ConfigStore._settings self' = Some st
     /\ (ConfigStore.load
           (ConfigStore.mk None (ConfigStore.file self')
                           (ConfigStore.writable self')
                           (ConfigStore.is_dir self'))).1 = Ok st)
  /\ (ConfigStore.save self = (false, self') ->
      ConfigStore.file self' = ConfigStore.file self).
Proof.
  unfold ConfigStore.save.
  destruct (ConfigStore.load self) as [[st|e] self1] eqn:Hl.
  - destruct (config_load_Ok self st self1 Hl) as (Hc & Hf & _).
    destruct (ConfigStore.writable self1) eqn:Hw; split; intros H;
      inversion H; subst; simpl.
    + exists st. split; [exact Hc |].
      unfold ConfigStore.load; simpl. rewrite settings_roundtrip. reflexivity.
    + exact Hf.
  - apply config_load_Raise in Hl. subst self1.
    split; intros H; inversion H; subst. reflexivity.
Qed.

Lemma X9_config_save_then_load_witness :
  exists st,
    ConfigStore._settings
      (ConfigStore.save
         (ConfigStore.mk (Some (Settings.mk (Settings.VStr "/downloads")
                                            (Settings.VStr "audio")
                                            (Settings.VBool false)))
                         ConfigStore.NoFile true (fun _ => true))).2 = Some st
    /\ (ConfigStore.load
          (ConfigStore.mk None
             (ConfigStore.Holds
                (Settings.to_dict (Settings.mk (Settings.VStr "/downloads")
                                               (Settings.VStr "audio")
                                               (Settings.VBool false))))
             true (fun _ => true))).1 = Ok st.
Proof.
  destruct (X9_config_save_then_load
              (ConfigStore.mk (Some (Settings.mk (Settings.VStr "/downloads")
                                                 (Settings.VStr "audio")
                                                 (Settings.VBool false)))
                              ConfigStore.NoFile true (fun _ => true))
              (ConfigStore.save
                 (ConfigStore.mk (Some (Settings.mk (Settings.VStr "/downloads")
                                                    (Settings.VStr "audio")
                                                    (Settings.VBool false)))
                                 ConfigStore.NoFile true (fun _ => true))).2)
    as (Hsaved & _).
  apply Hsaved. reflexivity.
Defined.

(** ** The history store *)

Lemma history_entry_roundtrip (e : HistoryEntry.t) :
  HistoryEntry.from_dict (HistoryEntry.to_dict e) = Ok e.
Proof.
  apply from_dict_Ok. unfold HistoryEntry.to_dict.
  repeat split;
    repeat (first [rewrite lookup_insert_eq | rewrite lookup_insert_ne by done]);
    reflexivity.
Qed.

Lemma from_dicts_to_dicts entries :
  HistoryStore.from_dicts (map HistoryEntry.to_dict entries) = Ok entries.
Proof.
  induction entries as [|e es IH]; simpl; [reflexivity |].
  rewrite history_entry_roundtrip, IH. reflexivity.
Qed.

Lemma hist_load_Ok self es self1 :
  HistoryStore.load self = (Ok es, self1) ->
  HistoryStore._entries self1 = Some es
  /\ HistoryStore.file self1 = HistoryStore.file self
  /\ HistoryStore.writable self1 = HistoryStore.writable self.
Proof.
  unfold HistoryStore.load.
  destruct (HistoryStore._entries self) as [c|] eqn:Hc.
  - intros H. inversion H; subst. rewrite Hc. repeat split.
  - destruct (HistoryStore.read (HistoryStore.file self)) as [l|x].
    + intros H. inversion H; subst. repeat split.
    + destruct (caught x); intros H; inversion H; subst. repeat split.
Qed.

Lemma hist_load_Raise self e self1 :
  HistoryStore.load self = (Raise e, self1) ->
  self1 = self
  /\ HistoryStore._entries self = None
  /\ exists x, HistoryStore.read (HistoryStore.file self) = inr x
               /\ caught x = false /\ e = escaping x.
Proof.
  unfold HistoryStore.load.
  destruct (HistoryStore._entries self) as [c|] eqn:Hc; [discriminate |].
  destruct (HistoryStore.read (HistoryStore.file self)) as [l|x];
    [discriminate |].
  destruct (caught x) eqn:Hx; [discriminate |].
  intros H. inversion H; subst. repeat split. exists x. auto.
Qed.

Lemma truncate_is_take (l : list HistoryEntry.t) :
  (if decide (HistoryStore.MAX_HISTORY_ENTRIES < length l)%nat
   then take HistoryStore.MAX_HISTORY_ENTRIES l else l)
  = take HistoryStore.MAX_HISTORY_ENTRIES l.
Proof.
  destruct (decide _) as [|Hge]; [reflexivity |].
  symmetry. apply take_ge. lia.
Qed.

Lemma add_run entry self old self1 :
  HistoryStore.load self = (Ok old, self1) ->
  HistoryStore.add entry self
  = (Ok (),
     if HistoryStore.writable self
     then HistoryStore.mk
            (Some (take HistoryStore.MAX_HISTORY_ENTRIES (entry :: old)))
            (HistoryStore.Holds
               (map HistoryEntry.to_dict
                    (take HistoryStore.MAX_HISTORY_ENTRIES (entry :: old))))
            true
     else HistoryStore.mk (Some (entry :: old)) (HistoryStore.file self) false).
Proof.
  intros Hl. unfold HistoryStore.add. rewrite Hl.
  destruct (hist_load_Ok self old self1 Hl) as (_ & Hf & Hw).
  cbv zeta. rewrite truncate_is_take.
  unfold HistoryStore.save, HistoryStore.set_entries.
  cbn [HistoryStore.writable HistoryStore.file HistoryStore._entries].
  rewrite Hw, Hf. destruct (HistoryStore.writable self); reflexivity.
Qed.

(** X10.  [add] puts the new entry first.  When the file can be written
    the cache and the file keep the five newest entries; when it cannot,
    the cache keeps the new entry and all the old ones, without a limit,
    and the file is unchanged. *)
Theorem X10_history_add (entry : HistoryEntry.t) (self self1 : HistoryStore.t)
    (old : list HistoryEntry.t) :
  HistoryStore.load self = (Ok old, self1) ->
  exists self',
    HistoryStore.add entry self = (Ok (), self')
    /\ (HistoryStore.writable self = true ->
        HistoryStore.get_entries self'
        = (Ok (entry :: take 4 old), self')
        /\ HistoryStore.file self'
           = HistoryStore.Holds
               (map HistoryEntry.to_dict (entry :: take 4 old))
        /\ (length (entry :: take 4 old) <= 5)%nat)
    /\ (HistoryStore.writable self = false ->
        HistoryStore.get_entries self' = (Ok (entry :: old), self')
        /\ HistoryStore.file self' = HistoryStore.file self).
Proof.
  intros Hl. eexists. split; [apply (add_run entry self old self1 Hl) |].
  split; intros Hw; rewrite Hw.
  - split; [reflexivity |]. split; [reflexivity |].
    simpl. rewrite length_take. lia.
  - split; reflexivity.
Qed.

Lemma X10_history_add_witness :
  exists self',
    HistoryStore.add (sample_entry 9)
      (HistoryStore.mk (Some (map sample_entry [5; 4; 3; 2; 1; 0]%nat))
                       HistoryStore.NoFile false)
    = (Ok (), self')
    /\ (false = false ->
        HistoryStore.get_entries self'
        = (Ok (map sample_entry [9; 5; 4; 3; 2; 1; 0]%nat), self')
        /\ HistoryStore.file self' = HistoryStore.NoFile).
Proof.
  destruct (X10_history_add (sample_entry 9)
              (HistoryStore.mk (Some (map sample_entry [5; 4; 3; 2; 1; 0]%nat))
                               HistoryStore.NoFile false)
              (HistoryStore.mk (Some (map sample_entry [5; 4; 3; 2; 1; 0]%nat))
                               HistoryStore.NoFile false)
              (map sample_entry [5; 4; 3; 2; 1; 0]%nat))
    as (self' & Hadd & _ & Hfull).
  - reflexivity.
  - exists self'. split; [exact Hadd | exact Hfull].
Defined.

Lemma take_app_take {A} (l : list A) : forall (n k : nat) (m : list A),
  (n <= k)%nat -> take n (l ++ take k m) = take n (l ++ m).
Proof.
  induction l as [|x l IH]; intros n k m Hnk.
  - simpl. rewrite take_take. f_equal. lia.
  - destruct n as [|n]; [reflexivity |]. simpl. f_equal.
    apply IH. lia.
Qed.

Lemma add_all_load es : forall e self old self1,
  HistoryStore.writable self = true ->
  HistoryStore.load self = (Ok old, self1) ->
  exists self',
    HistoryStore.load (add_all (e :: es) self)
    = (Ok (take HistoryStore.MAX_HISTORY_ENTRIES (rev (e :: es) ++ old)), self')
    /\ HistoryStore.writable (add_all (e :: es) self) = true.
Proof.
  induction es as [|e' es IH]; intros e self old self1 Hw Hl.
  - cbn [add_all]. rewrite (add_run e self old self1 Hl), Hw.
    eexists. split; reflexivity.
  - change (add_all (e :: e' :: es) self)
      with (add_all (e' :: es) (HistoryStore.add e self).2).
    rewrite (add_run e self old self1 Hl), Hw. cbn [snd].
    edestruct (IH e'
                 (HistoryStore.mk
                    (Some (take HistoryStore.MAX_HISTORY_ENTRIES (e :: old)))
                    (HistoryStore.Holds
                       (map HistoryEntry.to_dict
                            (take HistoryStore.MAX_HISTORY_ENTRIES (e :: old))))
                    true)
                 (take HistoryStore.MAX_HISTORY_ENTRIES (e :: old)))
      as (self' & Hload & Hw'); [reflexivity | reflexivity |].
    exists self'. split; [| exact Hw'].
    rewrite Hload. f_equal. f_equal.
    rewrite take_app_take by lia.
    change (rev (e :: e' :: es)) with (rev (e' :: es) ++ [e])%list.
    rewrite <- app_assoc. reflexivity.
Qed.

(** X11.  After one or more [add] calls on a store whose file can be
    written, the entries are the five newest, newest first: the added
    ones in reverse order of addition, then the old ones, cut to five. *)
Theorem X11_history_keeps_five_newest
    (e : HistoryEntry.t) (es old : list HistoryEntry.t)
    (self self1 : HistoryStore.t) :
  HistoryStore.writable self = true ->
  HistoryStore.load self = (Ok old, self1) ->
  (HistoryStore.get_entries (add_all (e :: es) self)).1
  = Ok (take 5 (rev (e :: es) ++ old))
  /\ (length (take 5 (rev (e :: es) ++ old)) <= 5)%nat.
Proof.
  intros Hw Hl.
  destruct (add_all_load es e self old self1 Hw Hl) as (self' & Hload & _).
  unfold HistoryStore.get_entries. rewrite Hload.
  split; [reflexivity |]. rewrite length_take. lia.
Qed.

Lemma X11_history_keeps_five_newest_witness :
  (HistoryStore.get_entries
     (add_all (map sample_entry [3; 4; 5; 6]%nat)
        (HistoryStore.mk None
           (HistoryStore.Holds
              (map HistoryEntry.to_dict (map sample_entry [2; 1; 0]%nat)))
           true))).1
  = Ok (take 5 (rev (map sample_entry [3; 4; 5; 6]%nat)
                ++ map sample_entry [2; 1; 0]%nat))
  /\ (length (take 5 (rev (map sample_entry [3; 4; 5; 6]%nat)
                      ++ map sample_entry [2; 1; 0]%nat)) <= 5)%nat.
Proof.
  apply (X11_history_keeps_five_newest (sample_entry 3)
           (map sample_entry [4; 5; 6]%nat) (map sample_entry [2; 1; 0]%nat)
           (HistoryStore.mk None
              (HistoryStore.Holds
                 (map HistoryEntry.to_dict (map sample_entry [2; 1; 0]%nat)))
              true)
           (HistoryStore.mk (Some (map sample_entry [2; 1; 0]%nat))
              (HistoryStore.Holds
                 (map HistoryEntry.to_dict (map sample_entry [2; 1; 0]%nat)))
              true)).
  - reflexivity.
  - vm_compute. reflexivity.
Defined.

Lemma from_dict_lacking doc key :
  In key history_keys -> doc !! key = None ->
  exists k, HistoryEntry.from_dict doc = Raise (KeyError k).
Proof.
  intros Hin Hnone.
  destruct (HistoryEntry.from_dict doc) as [e|x] eqn:E.
  - exfalso. apply from_dict_Ok in E as (E1 & E2 & E3 & E4 & E5 & E6).
    unfold history_keys in Hin. simpl in Hin.
    destruct Hin as [<-|[<-|[<-|[<-|[<-|[<-|[]]]]]]]; congruence.
  - apply from_dict_Raise in E as (k & _ & _ & ->). exists k. reflexivity.
Qed.

Lemma from_dicts_lacking docs1 : forall doc docs2 key,
  In key history_keys -> doc !! key = None ->
  exists k, HistoryStore.from_dicts (docs1 ++ doc :: docs2) = Raise (KeyError k).
Proof.
  induction docs1 as [|d docs1 IH]; intros doc docs2 key Hin Hnone; simpl.
  - destruct (from_dict_lacking doc key Hin Hnone) as (k & ->).
    exists k. reflexivity.
  - destruct (HistoryEntry.from_dict d) as [e|x] eqn:E.
    + destruct (IH doc docs2 key Hin Hnone) as (k & ->). exists k. reflexivity.
    + apply from_dict_Raise in E as (k & _ & _ & ->). exists k. reflexivity.
Qed.

(** X12.  One dictionary of the history file that lacks one of the six
    keys makes [load] discard the whole file: the history is the empty
    list, and the next [add] (the file being writable) replaces the file
    by the new entry alone. *)
Theorem X12_history_file_with_a_bad_entry
    (docs1 docs2 : list (gmap string string)) (doc : gmap string string)
    (key : string) (w : bool) (entry : HistoryEntry.t) :
  In key history_keys ->
  doc !! key = None ->
  let self := HistoryStore.mk None (HistoryStore.Holds (docs1 ++ doc :: docs2)) w in
  HistoryStore.load self
  = (Ok [], HistoryStore.mk (Some []) (HistoryStore.Holds (docs1 ++ doc :: docs2)) w)
  /\ (w = true ->
      HistoryStore.add entry self
      = (Ok (), HistoryStore.mk (Some [entry])
                  (HistoryStore.Holds [HistoryEntry.to_dict entry]) true)).
Proof.
  intros Hin Hnone self.
  assert (Hload : HistoryStore.load self
    = (Ok [], HistoryStore.mk (Some [])
                (HistoryStore.Holds (docs1 ++ doc :: docs2)) w)).
  { unfold HistoryStore.load, self; simpl.
    destruct (from_dicts_lacking docs1 doc docs2 key Hin Hnone) as (k & ->).
    reflexivity. }
  split; [exact Hload |].
  intros ->. rewrite (add_run entry self [] _ Hload). reflexivity.
Qed.

Lemma X12_history_file_witness :
  HistoryStore.load
    (HistoryStore.mk None
       (HistoryStore.Holds
          ([HistoryEntry.to_dict (sample_entry 1)]
           ++ delete "status" (HistoryEntry.to_dict (sample_entry 2))
           :: [HistoryEntry.to_dict (sample_entry 3)])) true)
  = (Ok [],
     HistoryStore.mk (Some [])
       (HistoryStore.Holds
          ([HistoryEntry.to_dict (sample_entry 1)]
           ++ delete "status" (HistoryEntry.to_dict (sample_entry 2))
           :: [HistoryEntry.to_dict (sample_entry 3)])) true).
Proof.
  apply (X12_history_file_with_a_bad_entry
           [HistoryEntry.to_dict (sample_entry 1)]
           [HistoryEntry.to_dict (sample_entry 3)]
           (delete "status" (HistoryEntry.to_dict (sample_entry 2)))
           "status" true (sample_entry 4)).
  - unfold history_keys. simpl. auto.
  - vm_compute. reflexivity.
Defined.

(** X13.  [add] and [get_entries] raise exactly when nothing is cached
    and reading the file fails with an exception other than
    [JSONDecodeError], [KeyError] and [TypeError]; that exception escapes
    and the store is unchanged.  With a cache, or with a missing file,
    they do not raise. *)
Theorem X13_history_add_raises
    (entry : HistoryEntry.t) (self self' : HistoryStore.t) (x : PyExc)
    (r : ReadError) :
  (HistoryStore.add entry self = (Raise x, self') ->
   self' = self
   /\ HistoryStore._entries self = None
   /\ exists r', HistoryStore.read (HistoryStore.file self) = inr r'
                 /\ caught r' = false /\ x = escaping r')
  /\ (HistoryStore._entries self = None ->
      HistoryStore.read (HistoryStore.file self) = inr r ->
      caught r = false ->
      HistoryStore.add entry self = (Raise (escaping r), self)
      /\ HistoryStore.get_entries self = (Raise (escaping r), self))
  /\ (is_Some (HistoryStore._entries self)
      \/ HistoryStore.file self = HistoryStore.NoFile ->
      exists self2, HistoryStore.add entry self = (Ok (), self2)).
Proof.
  split; [| split].
  - unfold HistoryStore.add.
    destruct (HistoryStore.load self) as [[old|e] self1] eqn:Hl;
      [discriminate |].
    intros H. inversion H; subst. apply (hist_load_Raise self x self' Hl).
  - intros Hc Hr Hx.
    unfold HistoryStore.add, HistoryStore.get_entries, HistoryStore.load.
    rewrite Hc, Hr, Hx. split; reflexivity.
  - intros H. unfold HistoryStore.add.
    destruct (HistoryStore.load self) as [[old|e] self1] eqn:Hl.
    + eexists. reflexivity.
    + exfalso. apply hist_load_Raise in Hl as (_ & Hc & r' & Hr & _).
      destruct H as [[c Hsome] | Hf]; [congruence |].
      rewrite Hf in Hr. discriminate.
Qed.

Lemma X13_history_add_raises_witness :
  HistoryStore.add (sample_entry 1)
    (HistoryStore.mk None
       (HistoryStore.ReadFails
          (OtherError (Exception_ "[Errno 13] Permission denied: 'history.json'")))
       true)
  = (Raise (Exception_ "[Errno 13] Permission denied: 'history.json'"),
     HistoryStore.mk None
       (HistoryStore.ReadFails
          (OtherError (Exception_ "[Errno 13] Permission denied: 'history.json'")))
       true).
Proof.
  destruct (X13_history_add_raises (sample_entry 1)
              (HistoryStore.mk None
                 (HistoryStore.ReadFails
                    (OtherError
                       (Exception_ "[Errno 13] Permission denied: 'history.json'")))
                 true)
              (HistoryStore.mk None HistoryStore.NoFile true)
              (Exception_ "")
              (OtherError
                 (Exception_ "[Errno 13] Permission denied: 'history.json'")))
    as (_ & Hraises & _).
  apply Hraises; reflexivity.
Defined.

(** X14.  What [save] writes, a new store reads back: after a successful
    [save] (or [add], or [clear]) a store with an empty cache over the
    same file loads exactly the saved entries.  When the file cannot be
    written [save] changes nothing, and [clear] still empties the cache
    while the file keeps its entries. *)
Theorem X14_history_save_then_load
    (entries : list HistoryEntry.t) (self : HistoryStore.t) :
  (HistoryStore.writable self = true ->
   (HistoryStore.save entries self).1 = true
   /\ HistoryStore.load
        (HistoryStore.mk None
           (HistoryStore.file (HistoryStore.save entries self).2) true)
      = (Ok entries,
         HistoryStore.mk (Some entries)
           (HistoryStore.file (HistoryStore.save entries self).2) true)
   /\ (HistoryStore.load
         (HistoryStore.mk None
            (HistoryStore.file (HistoryStore.clear self).2) true)).1 = Ok [])
  /\ (HistoryStore.writable self = false ->
      HistoryStore.save entries self = (false, self)
      /\ HistoryStore.clear self
         = (false, HistoryStore.mk (Some []) (HistoryStore.file self) false)).
Proof.
  split; intros Hw.
  - unfold HistoryStore.clear, HistoryStore.save, HistoryStore.set_entries.
    cbn [HistoryStore.writable]. rewrite Hw.
    split; [reflexivity |]. split.
    + unfold HistoryStore.load; simpl. rewrite from_dicts_to_dicts. reflexivity.
    + reflexivity.
  - unfold HistoryStore.clear, HistoryStore.save, HistoryStore.set_entries.
    cbn [HistoryStore.writable]. rewrite Hw. split; [reflexivity |].
    reflexivity.
Qed.

Lemma X14_history_save_then_load_witness :
  HistoryStore.load
    (HistoryStore.mk None
       (HistoryStore.file
          (HistoryStore.save (map sample_entry [2; 1]%nat)
             (HistoryStore.mk None HistoryStore.NoFile true)).2) true)
  = (Ok (map sample_entry [2; 1]%nat),
     HistoryStore.mk (Some (map sample_entry [2; 1]%nat))
       (HistoryStore.file
          (HistoryStore.save (map sample_entry [2; 1]%nat)
             (HistoryStore.mk None HistoryStore.NoFile true)).2) true).
Proof.
  destruct (X14_history_save_then_load (map sample_entry [2; 1]%nat)
              (HistoryStore.mk None HistoryStore.NoFile true))
    as (Hsaved & _).
  apply Hsaved. reflexivity.
Defined.

(** ** File names *)

Lemma replace_all_spec (l : list N) : forall s,
  ~ In FileSystem.underscore l ->
  fold_left (fun result char => FileSystem.replace char result) l s
  = map (fun c => if existsb (N.eqb c) l then FileSystem.underscore else c) s.
Proof.
  induction l as [|a l IH]; intros s Hu; simpl.
  - symmetry. apply map_id.
  - rewrite IH by (intros H; apply Hu; right; exact H).
    unfold FileSystem.replace. rewrite map_map. apply map_ext. intros c.
    destruct (N.eqb_spec c a) as [->|Hne]; simpl.
    + destruct (existsb (N.eqb FileSystem.underscore) l) eqn:E; [reflexivity |].
      reflexivity.
    + reflexivity.
Qed.

Lemma replace_all_valid s :
  Forall (fun c => ~ In c FileSystem.invalid_chars)
    (fold_left (fun result char => FileSystem.replace char result)
               FileSystem.invalid_chars s).
Proof.
  rewrite replace_all_spec.
  - apply List.Forall_forall. intros c Hc.
    apply in_map_iff in Hc as (c0 & <- & _).
    destruct (existsb (N.eqb c0) FileSystem.invalid_chars) eqn:E.
    + vm_compute. intuition discriminate.
    + intros Hin. apply Bool.not_true_iff_false in E. apply E.
      apply existsb_exists. exists c0. split; [exact Hin | apply N.eqb_refl].
  - vm_compute. intuition discriminate.
Qed.

Lemma replace_all_clean s :
  Forall (fun c => ~ In c FileSystem.invalid_chars) s ->
  fold_left (fun result char => FileSystem.replace char result)
            FileSystem.invalid_chars s = s.
Proof.
  intros H. rewrite replace_all_spec by (vm_compute; intuition discriminate).
  induction H as [|c s Hc _ IH]; cbn [map]; [reflexivity |].
  rewrite IH. f_equal.
  destruct (existsb (N.eqb c) FileSystem.invalid_chars) eqn:E; [| reflexivity].
  exfalso. apply existsb_exists in E as (x & Hx & Ex).
  apply N.eqb_eq in Ex. subst. contradiction.
Qed.

Lemma lstrip_set_suffix s :
  exists p, s = (p ++ FileSystem.lstrip_set s)%list.
Proof.
  induction s as [|c s (p & IH)]; simpl.
  - exists []. reflexivity.
  - destruct (FileSystem.in_strip_set c).
    + exists (c :: p). simpl. f_equal. exact IH.
    + exists []. reflexivity.
Qed.

Lemma lstrip_set_starts_clean s : starts_clean (FileSystem.lstrip_set s).
Proof.
  induction s as [|c s IH]; simpl; [exact I |].
  destruct (FileSystem.in_strip_set c) eqn:E; [exact IH | exact E].
Qed.

Lemma lstrip_set_id s : starts_clean s -> FileSystem.lstrip_set s = s.
Proof. destruct s as [|c s]; simpl; [reflexivity |]. intros ->. reflexivity. Qed.

(** What [strip] returns is a prefix of what its first pass returns. *)
Lemma strip_set_prefix s :
  exists q, FileSystem.lstrip_set s = (FileSystem.strip_set s ++ q)%list.
Proof.
  unfold FileSystem.strip_set.
  destruct (lstrip_set_suffix (rev (FileSystem.lstrip_set s))) as (p & Hp).
  exists (rev p).
  rewrite <- (rev_involutive (FileSystem.lstrip_set s)) at 1.
  rewrite Hp at 1. rewrite rev_app_distr. reflexivity.
Qed.

Lemma prefix_starts_clean (u q : FileSystem.str) :
  starts_clean (u ++ q)%list -> u <> [] -> starts_clean u.
Proof. destruct u; [contradiction | simpl; auto]. Qed.

Lemma Forall_lstrip_set (P : N -> Prop) s :
  Forall P s -> Forall P (FileSystem.lstrip_set s).
Proof.
  induction 1 as [|c s Hc Hs IH]; simpl; [constructor |].
  destruct (FileSystem.in_strip_set c); [exact IH | constructor; assumption].
Qed.

Lemma Forall_strip_set (P : N -> Prop) s :
  Forall P s -> Forall P (FileSystem.strip_set s).
Proof.
  intros H. unfold FileSystem.strip_set.
  apply Forall_rev, Forall_lstrip_set, Forall_rev, Forall_lstrip_set, H.
Qed.

(** X15.  A sanitized file name is never empty, contains none of the
    nine invalid characters, has at most 200 characters and does not
    begin with a dot or a space; a name that already is like that and
    does not end with a dot or a space either is returned unchanged. *)
Theorem X15_sanitized_filename (filename : FileSystem.str) :
  FileSystem._sanitize_filename filename <> []
  /\ Forall (fun c => ~ In c FileSystem.invalid_chars)
            (FileSystem._sanitize_filename filename)
  /\ (length (FileSystem._sanitize_filename filename) <= 200)%nat
  /\ starts_clean (FileSystem._sanitize_filename filename)
  /\ (filename <> [] ->
      Forall (fun c => ~ In c FileSystem.invalid_chars) filename ->
      (length filename <= 200)%nat ->
      starts_clean filename -> starts_clean (rev filename) ->
      FileSystem._sanitize_filename filename = filename).
Proof.
  unfold FileSystem._sanitize_filename.
  set (replaced := fold_left _ FileSystem.invalid_chars filename).
  assert (Hvalid : Forall (fun c => ~ In c FileSystem.invalid_chars)
                          (FileSystem.strip_set replaced))
    by apply Forall_strip_set, replace_all_valid.
  assert (Hclean : FileSystem.strip_set replaced <> [] ->
                   starts_clean (FileSystem.strip_set replaced)).
  { intros Hne. destruct (strip_set_prefix replaced) as (q & Hq).
    apply (prefix_starts_clean _ q); [| exact Hne].
    rewrite <- Hq. apply lstrip_set_starts_clean. }
  cbv zeta.
  split; [| split; [| split; [| split]]].
  - destruct (decide _) as [Hlong|Hshort].
    + destruct (FileSystem.strip_set replaced) as [|c u]; [simpl in Hlong; lia |].
      simpl. discriminate.
    + destruct (FileSystem.strip_set replaced); discriminate.
  - destruct (decide _) as [Hlong|Hshort].
    + destruct (take 200 (FileSystem.strip_set replaced)) eqn:E.
      * vm_compute. repeat constructor; intuition discriminate.
      * rewrite <- E. apply Forall_take, Hvalid.
    + destruct (FileSystem.strip_set replaced) eqn:E.
      * vm_compute. repeat constructor; intuition discriminate.
      * exact Hvalid.
  - destruct (decide _) as [Hlong|Hshort].
    + destruct (take 200 (FileSystem.strip_set replaced)) eqn:E.
      * simpl. lia.
      * rewrite <- E, length_take. lia.
    + destruct (FileSystem.strip_set replaced) eqn:E; simpl in *; lia.
  - destruct (decide _) as [Hlong|Hshort].
    + destruct (FileSystem.strip_set replaced) as [|c u] eqn:E;
        [simpl in Hlong; lia |].
      simpl. apply Hclean. discriminate.
    + destruct (FileSystem.strip_set replaced) as [|c u] eqn:E.
      * reflexivity.
      * apply Hclean. discriminate.
  - intros Hne Hchars Hlen Hhead Hlast.
    assert (Hr : replaced = filename) by apply replace_all_clean, Hchars.
    assert (Hs : FileSystem.strip_set replaced = filename).
    { rewrite Hr. unfold FileSystem.strip_set.
      rewrite (lstrip_set_id filename Hhead), (lstrip_set_id _ Hlast).
      apply rev_involutive. }
    rewrite Hs. destruct (decide _) as [Hlong|_]; [lia |].
    destruct filename; [contradiction | reflexivity].
Qed.

Lemma X15_sanitized_filename_witness :
  FileSystem._sanitize_filename [118; 105; 100; 101; 111]%N
  = [118; 105; 100; 101; 111]%N.
Proof.
  apply (X15_sanitized_filename [118; 105; 100; 101; 111]%N).
  - discriminate.
  - repeat constructor; vm_compute; intuition discriminate.
  - simpl. lia.
  - reflexivity.
  - reflexivity.
Defined.

Lemma probe_spec exists_ uuid_hex base ext (fuel : nat) : forall counter,
  1 <= counter ->
  counter + Z.of_nat fuel = 10000 ->
  (forall k, counter <= k <= 9999 ->
     exists_ (FileSystem.numbered base k ext) = false ->
     (forall j, counter <= j < k ->
        exists_ (FileSystem.numbered base j ext) = true) ->
     FileSystem.probe exists_ uuid_hex base ext fuel counter
     = FileSystem.numbered base k ext)
  /\ ((forall j, counter <= j <= 9999 ->
         exists_ (FileSystem.numbered base j ext) = true) ->
      FileSystem.probe exists_ uuid_hex base ext fuel counter
      = (base ++ [FileSystem.underscore] ++ uuid_hex ++ ext)%list).
Proof.
  induction fuel as [|fuel IH]; intros counter H1 Hsum.
  - split; [intros k Hk; lia | reflexivity].
  - assert (Hc : counter <= 9999) by lia.
    cbn [FileSystem.probe]. cbv zeta.
    destruct (exists_ (FileSystem.numbered base counter ext)) eqn:Ecur; simpl.
    + destruct (Z.ltb_spec 9999 (counter + 1)) as [Hend|Hmore].
      * split; [| reflexivity].
        intros k Hk Hfree _. assert (k = counter) by lia. subst. congruence.
      * destruct (IH (counter + 1)) as [IHfree IHall]; [lia | lia |].
        split.
        -- intros k Hk Hfree Hleast.
           assert (k <> counter) by (intros ->; congruence).
           apply IHfree; [lia | exact Hfree |].
           intros j Hj. apply Hleast. lia.
        -- intros Hall. apply IHall. intros j Hj. apply Hall. lia.
    + split.
      * intros k Hk Hfree Hleast.
        destruct (Z.eq_dec k counter) as [->|Hne]; [reflexivity |].
        rewrite (Hleast counter) in Ecur by lia. discriminate.
      * intros Hall. rewrite (Hall counter) in Ecur by lia. discriminate.
Qed.

(** X16.  [get_unique_filename] tries the plain name, then the names
    numbered 1, 2, ... up to 9999, in that order, and returns the first
    one that does not exist; so the returned name does not exist, except
    when all 10000 candidates exist, and then it is the name with the
    random suffix. *)
Theorem X16_unique_filename
    (exists_ : FileSystem.str -> bool) (uuid_hex base_name extension : FileSystem.str)
    (k : Z) :
  (exists_ (plain_name base_name extension) = false ->
   FileSystem.get_unique_filename exists_ uuid_hex base_name extension
   = plain_name base_name extension)
  /\ (exists_ (plain_name base_name extension) = true ->
      1 <= k <= 9999 ->
      exists_ (numbered_name base_name extension k) = false ->
      (forall j, 1 <= j < k ->
         exists_ (numbered_name base_name extension j) = true) ->
      FileSystem.get_unique_filename exists_ uuid_hex base_name extension
      = numbered_name base_name extension k)
  /\ (exists_ (plain_name base_name extension) = true ->
      (forall j, 1 <= j <= 9999 ->
         exists_ (numbered_name base_name extension j) = true) ->
      FileSystem.get_unique_filename exists_ uuid_hex base_name extension
      = fallback_name uuid_hex base_name extension).
Proof.
  unfold FileSystem.get_unique_filename, plain_name, numbered_name,
    fallback_name.
  fold (normalized_extension extension). cbv zeta.
  destruct (probe_spec exists_ uuid_hex
              (FileSystem._sanitize_filename base_name)
              (normalized_extension extension) (Z.to_nat 9999) 1)
    as [Hfree Hall]; [lia | lia |].
  split; [| split].
  - intros ->. reflexivity.
  - intros -> Hk Hk_free Hleast. simpl negb. cbv iota.
    apply Hfree; assumption.
  - intros -> Hjs. simpl negb. cbv iota. apply Hall, Hjs.
Qed.

Lemma X16_unique_filename_witness :
  FileSystem.get_unique_filename
    (fun name =>
       existsb (fun taken => bool_decide (name = taken))
         [plain_name [118]%N [109; 112; 52]%N;
          numbered_name [118]%N [109; 112; 52]%N 1])
    [97; 98; 99; 100; 101; 102; 48; 49]%N [118]%N [109; 112; 52]%N
  = numbered_name [118]%N [109; 112; 52]%N 2.
Proof.
  destruct (X16_unique_filename
              (fun name =>
                 existsb (fun taken => bool_decide (name = taken))
                   [plain_name [118]%N [109; 112; 52]%N;
                    numbered_name [118]%N [109; 112; 52]%N 1])
              [97; 98; 99; 100; 101; 102; 48; 49]%N [118]%N [109; 112; 52]%N 2)
    as (_ & Hnumbered & _).
  apply Hnumbered.
  - vm_compute. reflexivity.
  - lia.
  - vm_compute. reflexivity.
  - intros j Hj. assert (j = 1) by lia. subst. vm_compute. reflexivity.
Defined.

(** ** The worker, on every path *)

Lemma alter_known {A} (f : A -> A) (m : gmap nat A) r d :
  m !! r = Some d -> alter f r m = <[r := f d]> m.
Proof.
  intros H. apply map_eq. intros i.
  destruct (decide (r = i)) as [<-|Hne].
  - rewrite lookup_alter_eq, lookup_insert_eq, H. reflexivity.
  - rewrite lookup_alter_ne, lookup_insert_ne by exact Hne. reflexivity.
Qed.

Lemma reached_lookup w r d' calls w' :
  reached w r d' calls w' -> DownloadService.objects w' !! r = Some d'.
Proof. intros (-> & _). apply lookup_insert_eq. Qed.

Lemma reached_alter w r dX calls wX f :
  reached w r dX calls wX ->
  reached w r (f dX) calls (DownloadService.set_objects (alter f r) wX).
Proof.
  intros (Ho & Hc & Ht & Hn & Hu & Hs).
  repeat split; simpl; try assumption.
  rewrite (alter_known f _ r dX) by (rewrite Ho; apply lookup_insert_eq).
  rewrite Ho. apply insert_insert_eq.
Qed.

Lemma reached_marked w r dX calls wX f :
  reached w r dX calls wX ->
  reached w r (f (DownloadService.clock wX) dX) calls (marked r f wX).
Proof.
  intros H. unfold marked.
  apply (reached_alter w r dX calls (DownloadService.tick wX)
                       (f (DownloadService.clock wX))).
  exact H.
Qed.

Lemma reached_completed_world w r dX calls wX p :
  reached w r dX calls wX ->
  reached w r (completed_record p (DownloadService.clock wX) dX) calls
          (completed_world r p wX).
Proof.
  intros H. unfold completed_world, completed_record.
  apply (reached_marked w r (Download.set_output_path p dX) calls
           (DownloadService.set_objects (alter (Download.set_output_path p) r) wX)
           Download.mark_completed).
  apply reached_alter, H.
Qed.

Lemma reached_log w r d' calls wX ev :
  reached w r d' calls wX ->
  reached w r d' (calls ++ [ev]) (DownloadService.log ev wX).
Proof.
  intros (Ho & Hc & Ht & Hn & Hu & Hs).
  repeat split; simpl; try assumption.
  rewrite Hs, app_assoc. reflexivity.
Qed.

Lemma reached_add_history w r d' calls wX h :
  reached w r d' calls wX ->
  reached w r d' calls (DownloadService.add_history h wX).
Proof. intros (Ho & Hc & Ht & Hn & Hu & Hs). repeat split; assumption. Qed.

Lemma reached_engine_done self r folder d w :
  DownloadService.objects w !! r = Some d ->
  reached w r (record_at_engine_end self folder d)
          (progress_trace self folder d) (engine_done self r folder d w).
Proof.
  intros Hr.
  destruct (after_reports_frame r
              (DownloadService.reports (engine_run self folder d))
              (connecting r w)) as (Hc & Ht & Hn & _ & Hu & _).
  unfold reached. fold (engine_done self r folder d w) in *.
  split; [| split; [| split; [| split; [| split]]]];
    try assumption; [| apply engine_done_sink_calls].
  unfold engine_done, connecting. rewrite after_reports_objects. simpl.
  rewrite alter_alter_eq, (alter_known _ _ r d Hr). reflexivity.
Qed.

Lemma run_reports_identity reports : forall d,
  same_identity d (run_reports reports d)
  /\ Download.output_path (run_reports reports d) = Download.output_path d
  /\ Download.completed_at (run_reports reports d) = Download.completed_at d
  /\ Download.error_message (run_reports reports d) = Download.error_message d.
Proof.
  unfold run_reports, same_identity.
  induction reports as [|x rest IH]; intros d; simpl; [repeat split |].
  destruct (IH (update_of x d)) as ((H1 & H2 & H3 & H4) & H5 & H6 & H7).
  rewrite H1, H2, H3, H4, H5, H6, H7. repeat split.
Qed.

Lemma run_reports_in_range reports : forall d,
  in_range d -> in_range (run_reports reports d).
Proof.
  unfold run_reports.
  induction reports as [|x rest IH]; intros d H; simpl; [exact H |].
  apply IH, update_progress_in_range.
Qed.

Lemma record_at_engine_end_facts self folder d :
  same_identity d (record_at_engine_end self folder d)
  /\ in_range (record_at_engine_end self folder d)
  /\ Download.output_path (record_at_engine_end self folder d)
     = Download.output_path d
  /\ Download.completed_at (record_at_engine_end self folder d)
     = Download.completed_at d
  /\ Download.error_message (record_at_engine_end self folder d)
     = Download.error_message d.
Proof.
  unfold record_at_engine_end.
  destruct (run_reports_identity
              (DownloadService.reports (engine_run self folder d))
              (Download.update_progress 0 CONNECTING None d))
    as (Hid & Hp & Hc & He).
  split; [exact Hid |]. split; [| split; [exact Hp | split; [exact Hc | exact He]]].
  apply run_reports_in_range, update_progress_in_range.
Qed.

Ltac record_facts Hfacts :=
  destruct Hfacts as ((?Hid & ?Hurl & ?Hfmt & ?Hst) & ?Hrange & _);
  repeat split; simpl;
  first [assumption | reflexivity | eexists; reflexivity
        | unfold in_range in *; simpl; lia | idtac].

(** Every run of the worker, whatever the engine and the history store
    do: the result, the final record and the last sink call. *)
Lemma execute_download_summary self r folder w d :
  DownloadService.objects w !! r = Some d ->
  exists w' d' final,
    DownloadService._execute_download self r folder w = (Ok (), w')
    /\ reached w r d' (progress_trace self folder d ++ [final]) w'
    /\ Download.is_terminal d' = true
    /\ is_Some (Download.completed_at d')
    /\ same_identity d d'
    /\ in_range d'
    /\ (final = DownloadService.on_complete r d'
        \/ exists m, final = DownloadService.on_error m
                     /\ Download.status d' = ERROR
                     /\ Download.error_message d' = Some m).
Proof.
  intros Hr.
  pose proof (engine_done_lookup self r folder d w Hr) as Hd3.
  pose proof (reached_engine_done self r folder d w Hr) as Hreach3.
  pose proof (record_at_engine_end_facts self folder d) as Hfacts.
  rewrite (execute_download_run self r folder w d Hr).
  set (w3 := engine_done self r folder d w) in *.
  set (d3 := record_at_engine_end self folder d) in *.
  pose proof (reached_completed_world w r d3 (progress_trace self folder d) w3)
    as Hreach4.
  destruct (DownloadService.outcome (engine_run self folder d)) as [p|e].
  - specialize (Hreach4 p Hreach3).
    pose proof (completed_world_lookup r p w3 d3 Hd3) as Hd4.
    destruct (DownloadService.history_store self) as [add|] eqn:Hh.
    + destruct (add (HistoryEntry.from_download (DownloadService.isoformat self)
                       (completed_record p (DownloadService.clock w3) d3)))
        as [e|] eqn:Hadd.
      * destruct (exception_cases e) as [-> | He].
        -- rewrite (on_returned_history_cancelled self r w3 d3 p add Hd3 Hh Hadd).
           eexists _, _, _. split; [reflexivity |].
           split; [apply reached_log, reached_marked, Hreach4 |].
           split; [reflexivity |]. split; [eexists; reflexivity |].
           split; [| split; [| left; reflexivity]]; record_facts Hfacts.
        -- rewrite (on_returned_history_raises self r w3 d3 p add e Hd3 Hh Hadd He).
           eexists _, _, _. split; [reflexivity |].
           split; [apply reached_log, reached_marked, Hreach4 |].
           split; [reflexivity |]. split; [eexists; reflexivity |].
           split; [| split;
             [| right; eexists; split; [reflexivity | split; reflexivity]]];
             record_facts Hfacts.
      * rewrite (on_returned_history_records self r w3 d3 p add Hd3 Hh Hadd).
        eexists _, _, _. split; [reflexivity |].
        split; [apply reached_log, reached_add_history, Hreach4 |].
        split; [reflexivity |]. split; [eexists; reflexivity |].
        split; [| split; [| left; reflexivity]]; record_facts Hfacts.
    + rewrite (on_returned_without_history self r w3 d3 p Hd3 Hh).
      eexists _, _, _. split; [reflexivity |].
      split; [apply reached_log, Hreach4 |].
      split; [reflexivity |]. split; [eexists; reflexivity |].
      split; [| split; [| left; reflexivity]]; record_facts Hfacts.
  - destruct (exception_cases e) as [-> | He].
    + rewrite (on_cancelled self r w3 d3 Hd3).
      eexists _, _, _. split; [reflexivity |].
      split; [apply reached_log, reached_marked, Hreach3 |].
      split; [reflexivity |]. split; [eexists; reflexivity |].
      split; [| split; [| left; reflexivity]]; record_facts Hfacts.
    + rewrite (on_failed self r w3 e He).
      eexists _, _, _. split; [reflexivity |].
      split; [apply reached_log, reached_marked, Hreach3 |].
      split; [reflexivity |]. split; [eexists; reflexivity |].
      split; [| split;
        [| right; eexists; split; [reflexivity | split; reflexivity]]];
        record_facts Hfacts.
Qed.



(** ** The worker with raising sinks *)

Section WorkerFacts.

Variable self : Worker.Collaborators.
Variable sinks : Worker.Sinks.

Lemma worker_handle_progress_run r progress_info w :
  Worker.handle_progress sinks r progress_info w
  = (sink_result sinks (DownloadService.sink_calls w) (event_of progress_info),
     DownloadService.log (event_of progress_info)
       (DownloadService.set_objects (alter (update_of progress_info) r) w)).
Proof. reflexivity. Qed.

Lemma worker_run_play r engine : forall w,
  Worker.run (Worker.handle_progress sinks r) engine w
  = ((Worker.play sinks (DownloadService.sink_calls w) engine).2,
     after_reports r (Worker.play sinks (DownloadService.sink_calls w) engine).1 w).
Proof.
  induction engine as [progress_info next IH | p | x]; intros w;
    cbn [Worker.run Worker.play]; [| reflexivity | reflexivity].
  rewrite worker_handle_progress_run. unfold sink_result.
  destruct (sinks (DownloadService.sink_calls w) (event_of progress_info))
    as [x|]; rewrite IH; simpl;
    destruct (Worker.play _ _ _) as [reports result]; reflexivity.
Qed.

Lemma worker_call_on_complete_run r w d :
  DownloadService.objects w !! r = Some d ->
  Worker.call_on_complete sinks r w
  = (sink_result sinks (DownloadService.sink_calls w)
       (DownloadService.on_complete r d),
     DownloadService.log (DownloadService.on_complete r d) w).
Proof.
  intros H. unfold Worker.call_on_complete, Worker.bind, Worker.read.
  rewrite H. reflexivity.
Qed.

(** The worker up to the end of the engine call. *)
Lemma worker_execute_download_run r folder w d :
  DownloadService.objects w !! r = Some d ->
  Worker._execute_download self sinks r folder w
  = match sinks (DownloadService.sink_calls w) announcement with
    | Some x => Worker.caught sinks r x (connecting r w)
    | None =>
        match engine_play self sinks folder d w with
        | (reports, Worker.Escaped x) =>
            Worker.caught sinks r x (after_reports r reports (connecting r w))
        | (reports, Worker.Returned p) =>
            Worker.try_except (Worker.after_engine self sinks r p)
              (Worker.except_clauses sinks r)
              (after_reports r reports (connecting r w))
        end
    end.
Proof.
  intros Hr. unfold Worker._execute_download.
  unfold Worker.try_except at 1. unfold Worker.bind at 1.
  unfold Worker.modify at 1, Worker.update at 1.
  unfold Worker.bind at 1. unfold Worker.call at 1.
  change (DownloadService.log (DownloadService.on_progress 0 CONNECTING None)
            (DownloadService.set_objects
               (alter (Download.update_progress 0 CONNECTING None) r) w))
    with (connecting r w).
  change (DownloadService.sink_calls
            (DownloadService.set_objects
               (alter (Download.update_progress 0 CONNECTING None) r) w))
    with (DownloadService.sink_calls w).
  fold announcement.
  destruct (sinks (DownloadService.sink_calls w) announcement) as [[e|name]|];
    [reflexivity | reflexivity |].
  unfold Worker.bind at 1. unfold Worker.read at 1.
  rewrite (connecting_lookup r d w Hr).
  unfold Worker.bind at 1. rewrite worker_run_play.
  unfold engine_play, engine_of.
  change (DownloadService.sink_calls (connecting r w))
    with (DownloadService.sink_calls w ++ [announcement])%list.
  change (Download.url (Download.update_progress 0 CONNECTING None d))
    with (Download.url d).
  change (Download.format (Download.update_progress 0 CONNECTING None d))
    with (Download.format d).
  destruct (Worker.play _ _ _) as [reports [p|[e|name]]]; reflexivity.
Qed.

(** What the [except] clauses do with what was raised in the [try]
    block. *)
Lemma worker_caught_cancelled r w d :
  DownloadService.objects w !! r = Some d ->
  Worker.caught sinks r (Worker.AnException CancelledException) w
  = (sink_result sinks (DownloadService.sink_calls w)
       (DownloadService.on_complete r
          (Download.mark_cancelled (DownloadService.clock w) d)),
     DownloadService.log
       (DownloadService.on_complete r
          (Download.mark_cancelled (DownloadService.clock w) d))
       (marked r Download.mark_cancelled w)).
Proof.
  intros H. unfold Worker.caught, Worker.except_clauses.
  unfold Worker.bind at 1.
  change (Worker.mark r Download.mark_cancelled w)
    with (Worker.Returned (), marked r Download.mark_cancelled w).
  apply (worker_call_on_complete_run r (marked r Download.mark_cancelled w)).
  apply marked_lookup, H.
Qed.

Lemma worker_caught_failed r w e :
  e <> CancelledException ->
  Worker.caught sinks r (Worker.AnException e) w
  = (sink_result sinks (DownloadService.sink_calls w)
       (DownloadService.on_error (reported_message e)),
     DownloadService.log (DownloadService.on_error (reported_message e))
       (marked r (Download.mark_error (reported_message e)) w)).
Proof. intros He. destruct e; try reflexivity. contradiction. Qed.

Lemma worker_caught_escapes r w name :
  Worker.caught sinks r (Worker.NotException name) w
  = (Worker.Escaped (Worker.NotException name), w).
Proof. reflexivity. Qed.

(** The rest of the [try] block when the history store accepts. *)
Lemma worker_after_engine_accepted r w d p :
  DownloadService.objects w !! r = Some d ->
  history_accepts self (completed_record p (DownloadService.clock w) d) ->
  Worker.try_except (Worker.after_engine self sinks r p)
                    (Worker.except_clauses sinks r) w
  = match sinks (DownloadService.sink_calls w)
            (DownloadService.on_complete r
               (completed_record p (DownloadService.clock w) d)) with
    | None =>
        (Worker.Returned (),
         DownloadService.log
           (DownloadService.on_complete r
              (completed_record p (DownloadService.clock w) d))
           (recorded self (completed_record p (DownloadService.clock w) d)
                     (completed_world r p w)))
    | Some x =>
        Worker.caught sinks r x
          (DownloadService.log
             (DownloadService.on_complete r
                (completed_record p (DownloadService.clock w) d))
             (recorded self (completed_record p (DownloadService.clock w) d)
                       (completed_world r p w)))
    end.
Proof.
  intros Hr Hacc.
  pose proof (completed_world_lookup r p w d Hr) as Hd4.
  unfold Worker.try_except, Worker.after_engine.
  unfold Worker.bind at 1.
  change (Worker.modify r (Download.set_output_path p) w)
    with (Worker.Returned (),
          DownloadService.set_objects (alter (Download.set_output_path p) r) w).
  unfold Worker.bind at 1.
  change (Worker.mark r Download.mark_completed
            (DownloadService.set_objects
               (alter (Download.set_output_path p) r) w))
    with (Worker.Returned (), completed_world r p w).
  unfold Worker.bind at 1. unfold history_accepts, recorded in *.
  destruct (Worker.history_store self) as [add|].
  - unfold Worker.bind at 1. unfold Worker.read at 1. rewrite Hd4.
    unfold Worker.history_add. rewrite Hacc.
    unfold Worker.update.
    rewrite (worker_call_on_complete_run r _
               (completed_record p (DownloadService.clock w) d))
      by exact Hd4.
    unfold sink_result. simpl.
    destruct (sinks _ _) as [[e|name]|]; reflexivity.
  - unfold Worker.ret.
    rewrite (worker_call_on_complete_run r _
               (completed_record p (DownloadService.clock w) d))
      by exact Hd4.
    unfold sink_result.
    destruct (sinks _ _) as [[e|name]|]; reflexivity.
Qed.

(** The rest of the [try] block when the history store raises. *)
Lemma worker_after_engine_refused r w d p add x :
  DownloadService.objects w !! r = Some d ->
  Worker.history_store self = Some add ->
  add (HistoryEntry.from_download (Worker.isoformat self)
         (completed_record p (DownloadService.clock w) d)) = Some x ->
  Worker.try_except (Worker.after_engine self sinks r p)
                    (Worker.except_clauses sinks r) w
  = Worker.caught sinks r x (completed_world r p w).
Proof.
  intros Hr Hh Hadd.
  pose proof (completed_world_lookup r p w d Hr) as Hd4.
  unfold Worker.try_except, Worker.after_engine.
  unfold Worker.bind at 1.
  change (Worker.modify r (Download.set_output_path p) w)
    with (Worker.Returned (),
          DownloadService.set_objects (alter (Download.set_output_path p) r) w).
  unfold Worker.bind at 1.
  change (Worker.mark r Download.mark_completed
            (DownloadService.set_objects
               (alter (Download.set_output_path p) r) w))
    with (Worker.Returned (), completed_world r p w).
  unfold Worker.bind at 1. rewrite Hh.
  unfold Worker.bind at 1. unfold Worker.read at 1. rewrite Hd4.
  unfold Worker.history_add. rewrite Hadd. unfold Worker.raise.
  destruct x as [e|name]; reflexivity.
Qed.

End WorkerFacts.

(** The world and the record at the end of the engine call. *)
Lemma reached_reported r d w reports :
  DownloadService.objects w !! r = Some d ->
  reached w r (reported reports d) (announcement :: map event_of reports)
          (after_reports r reports (connecting r w)).
Proof.
  intros Hr.
  destruct (after_reports_frame r reports (connecting r w))
    as (Hc & Ht & Hn & _ & Hu & _).
  unfold reached.
  split; [| split; [| split; [| split; [| split]]]]; try assumption.
  - unfold connecting, reported. rewrite after_reports_objects. simpl.
    rewrite alter_alter_eq, (alter_known _ _ r d Hr). reflexivity.
  - rewrite after_reports_sink_calls. unfold connecting. simpl.
    rewrite <- app_assoc. reflexivity.
Qed.

Lemma after_reports_clock r reports w :
  DownloadService.clock (after_reports r reports (connecting r w))
  = DownloadService.clock w.
Proof.
  destruct (after_reports_frame r reports (connecting r w))
    as (_ & _ & _ & -> & _).
  reflexivity.
Qed.

Lemma after_reports_history r reports w :
  DownloadService.history_added (after_reports r reports (connecting r w))
  = DownloadService.history_added w.
Proof.
  destruct (after_reports_frame r reports (connecting r w))
    as (_ & _ & _ & _ & _ & ->).
  reflexivity.
Qed.

Lemma run_reports_active reports : forall d,
  Download.is_active d = true ->
  Download.is_active (run_reports reports d) = true.
Proof.
  unfold run_reports.
  induction reports as [|x rest IH]; intros d H; simpl; [exact H |].
  apply IH. unfold update_of, Download.is_active, status_of_report. simpl.
  destruct (YtdlpAdapter.status x) as [s|]; [| reflexivity].
  destruct (String.eqb s "processing"); reflexivity.
Qed.

Lemma reported_facts reports d :
  same_identity d (reported reports d)
  /\ in_range (reported reports d)
  /\ Download.output_path (reported reports d) = Download.output_path d
  /\ Download.completed_at (reported reports d) = Download.completed_at d
  /\ Download.error_message (reported reports d) = Download.error_message d
  /\ Download.is_active (reported reports d) = true.
Proof.
  unfold reported.
  destruct (run_reports_identity reports
              (Download.update_progress 0 CONNECTING None d))
    as (Hid & Hp & Hc & He).
  split; [exact Hid |].
  split; [apply run_reports_in_range, update_progress_in_range |].
  split; [exact Hp |]. split; [exact Hc |]. split; [exact He |].
  apply run_reports_active. reflexivity.
Qed.

Lemma reached_recorded self w r d' calls wX dH :
  reached w r d' calls wX -> reached w r d' calls (recorded self dH wX).
Proof.
  intros H. unfold recorded.
  destruct (Worker.history_store self); [apply reached_add_history |]; exact H.
Qed.

Lemma recorded_sink_calls self d w :
  DownloadService.sink_calls (recorded self d w) = DownloadService.sink_calls w.
Proof. unfold recorded. destruct (Worker.history_store self); reflexivity. Qed.

Lemma recorded_clock self d w :
  DownloadService.clock (recorded self d w) = DownloadService.clock w.
Proof. unfold recorded. destruct (Worker.history_store self); reflexivity. Qed.

Lemma trace_counts reports :
  completion_calls (announcement :: map event_of reports) = 0%nat
  /\ error_calls (announcement :: map event_of reports) = 0%nat.
Proof.
  unfold completion_calls, error_calls. simpl.
  rewrite !count_reports by reflexivity. split; reflexivity.
Qed.

(** X17.  When the announcement of CONNECTING returns, the engine call
    returns a path and the history store, if there is one, accepts the
    entry, the record is COMPLETED with progress 100, the engine's path
    and [completed_at] set when the completion sink is called, and the
    history has received exactly one entry, built from that record.  If
    the completion sink returns, this is the end of the run: the sink
    was invoked once, last, and the error sink never.  The call of the
    completion sink stands inside the [try] block: if it raises an
    exception other than the cancellation, the generic [except] clause
    takes the record from COMPLETED to ERROR and invokes the error
    sink with the exception's message, after the completion sink; the
    entry stays in the history. *)
Theorem X17_worker_completes
    (self : Worker.Collaborators) (sinks : Worker.Sinks)
    (r : DownloadService.ref) (folder : Path) (w : DownloadService.World)
    (d : Download.t) (p : Path) (reports : list YtdlpAdapter.ProgressInfo) :
  DownloadService.objects w !! r = Some d ->
  sinks (DownloadService.sink_calls w) announcement = None ->
  engine_play self sinks folder d w = (reports, Worker.Returned p) ->
  history_accepts self
    (completed_record p (DownloadService.clock w) (reported reports d)) ->
  let d' := completed_record p (DownloadService.clock w) (reported reports d) in
  let calls := announcement :: map event_of reports in
  (Download.status d' = COMPLETED
   /\ Download.progress d' = 100
   /\ Download.output_path d' = p
   /\ Download.completed_at d' = Some (DownloadService.clock w)
   /\ Download.error_message d' = Download.error_message d)
  /\ (sinks (DownloadService.sink_calls w ++ calls)%list
            (DownloadService.on_complete r d') = None ->
      exists w',
        Worker._execute_download self sinks r folder w = (Worker.Returned (), w')
        /\ reached w r d' (calls ++ [DownloadService.on_complete r d']) w'
        /\ DownloadService.history_added w'
           = DownloadService.history_added (recorded self d' w)
        /\ completion_calls (calls ++ [DownloadService.on_complete r d']) = 1%nat
        /\ error_calls (calls ++ [DownloadService.on_complete r d']) = 0%nat)
  /\ (forall e,
        sinks (DownloadService.sink_calls w ++ calls)%list
              (DownloadService.on_complete r d')
        = Some (Worker.AnException e) ->
        e <> CancelledException ->
        exists w' d'',
          Worker._execute_download self sinks r folder w
          = (sink_result sinks
               (DownloadService.sink_calls w ++ calls
                ++ [DownloadService.on_complete r d'])%list
               (DownloadService.on_error (reported_message e)),
             w')
          /\ reached w r d''
               (calls ++ [DownloadService.on_complete r d';
                          DownloadService.on_error (reported_message e)]) w'
          /\ d'' = Download.mark_error (reported_message e)
                                       (S (DownloadService.clock w)) d'
          /\ Download.status d'' = ERROR
          /\ Download.error_message d'' = Some (reported_message e)
          /\ DownloadService.history_added w'
             = DownloadService.history_added (recorded self d' w)).
Proof.
  intros Hr Hann Hplay Hacc d' calls.
  pose proof (reached_reported r d w reports Hr) as Hreach3.
  pose proof (reached_lookup _ _ _ _ _ Hreach3) as Hd3.
  pose proof (after_reports_clock r reports w) as Hclock.
  pose proof (after_reports_history r reports w) as Hhistory.
  destruct (reported_facts reports d) as (_ & _ & _ & _ & Herr & _).
  assert (Hcalls : DownloadService.sink_calls
                     (after_reports r reports (connecting r w))
                   = (DownloadService.sink_calls w ++ calls)%list).
  { destruct Hreach3 as (_ & _ & _ & _ & _ & H). exact H. }
  split; [repeat split; assumption |].
  rewrite (worker_execute_download_run self sinks r folder w d Hr), Hann, Hplay.
  set (w3 := after_reports r reports (connecting r w)) in *.
  rewrite (worker_after_engine_accepted self sinks r w3 (reported reports d) p Hd3)
    by (rewrite Hclock; exact Hacc).
  rewrite Hclock, Hcalls. fold d'.
  pose proof (reached_completed_world w r (reported reports d) calls w3 p Hreach3)
    as Hreach4.
  rewrite Hclock in Hreach4. fold d' in Hreach4.
  assert (Hadded : DownloadService.history_added
                     (recorded self d' (completed_world r p w3))
                   = DownloadService.history_added (recorded self d' w)).
  { unfold recorded. destruct (Worker.history_store self); simpl;
      rewrite Hhistory; reflexivity. }
  split.
  - intros Hc. rewrite Hc. eexists. split; [reflexivity |].
    split; [apply reached_log, reached_recorded, Hreach4 |].
    split; [exact Hadded |].
    unfold completion_calls, error_calls, calls. rewrite !count_app. simpl.
    rewrite !count_reports by reflexivity. split; reflexivity.
  - intros e Hc He. rewrite Hc.
    rewrite (worker_caught_failed sinks r _ e He).
    eexists _, _. split; [| split; [| split; [| split; [| split]]]].
    + f_equal. f_equal. simpl. rewrite recorded_sink_calls. simpl.
      rewrite Hcalls, <- app_assoc. reflexivity.
    + change (calls ++ [DownloadService.on_complete r d';
                        DownloadService.on_error (reported_message e)])%list
        with (calls ++ [DownloadService.on_complete r d']
                    ++ [DownloadService.on_error (reported_message e)])%list.
      rewrite app_assoc.
      apply reached_log, reached_marked, reached_log, reached_recorded, Hreach4.
    + f_equal. simpl. rewrite recorded_clock. simpl. rewrite Hclock.
      reflexivity.
    + reflexivity.
    + reflexivity.
    + simpl. exact Hadded.
Qed.

Lemma X17_worker_completes_witness :
  (exists w',
     Worker._execute_download (sample_worker (Worker.Return "/output/video.mp4"))
       Worker.returning 0%nat "/output" sample_world
     = (Worker.Returned (), w')
     /\ length (DownloadService.history_added w') = 1%nat)
  /\ (exists w' d'',
        Worker._execute_download
          (sample_worker (Worker.Return "/output/video.mp4"))
          completion_sink_raises 0%nat "/output" sample_world
        = (Worker.Returned (), w')
        /\ DownloadService.objects w' !! 0%nat = Some d''
        /\ Download.status d'' = ERROR
        /\ Download.error_message d'' = Some "sink failed"
        /\ length (DownloadService.history_added w') = 1%nat).
Proof.
  split.
  - destruct (X17_worker_completes
                (sample_worker (Worker.Return "/output/video.mp4"))
                Worker.returning 0%nat "/output" sample_world sample_download
                "/output/video.mp4" [sample_report])
      as (_ & Hreturns & _).
    + reflexivity.
    + reflexivity.
    + reflexivity.
    + reflexivity.
    + destruct Hreturns as (w' & Hrun & _ & Hadded & _); [reflexivity |].
      exists w'. split; [exact Hrun |]. rewrite Hadded. reflexivity.
  - destruct (X17_worker_completes
                (sample_worker (Worker.Return "/output/video.mp4"))
                completion_sink_raises 0%nat "/output" sample_world
                sample_download "/output/video.mp4" [sample_report])
      as (_ & _ & Hraises).
    + reflexivity.
    + reflexivity.
    + reflexivity.
    + reflexivity.
    + destruct (Hraises (Exception_ "sink failed"))
        as (w' & d'' & Hrun & Hreach & _ & Hstatus & Hmessage & Hadded);
        [reflexivity | discriminate |].
      exists w', d''. split; [exact Hrun |].
      split; [destruct Hreach as (-> & _); apply lookup_insert_eq |].
      split; [exact Hstatus |]. split; [exact Hmessage |].
      rewrite Hadded. reflexivity.
Defined.



(** What the [except] clauses leave when the sinks return. *)
Lemma worker_caught_summary sinks w r dX calls wX e :
  (forall trace ev, sinks trace ev = None) ->
  reached w r dX calls wX ->
  in_range dX ->
  exists w' d' final,
    Worker.caught sinks r (Worker.AnException e) wX = (Worker.Returned (), w')
    /\ reached w r d' (calls ++ [final]) w'
    /\ Download.is_terminal d' = true
    /\ is_Some (Download.completed_at d')
    /\ in_range d'
    /\ is_on_progress final = false.
Proof.
  intros Hq Hreach Hrange.
  pose proof (reached_lookup _ _ _ _ _ Hreach) as HdX.
  destruct (exception_cases e) as [-> | He].
  - rewrite (worker_caught_cancelled sinks r wX dX HdX).
    unfold sink_result. rewrite Hq.
    eexists _, _, _. split; [reflexivity |].
    split; [apply reached_log, reached_marked, Hreach |].
    split; [reflexivity |]. split; [eexists; reflexivity |].
    split; [exact Hrange | reflexivity].
  - rewrite (worker_caught_failed sinks r wX e He).
    unfold sink_result. rewrite Hq.
    eexists _, _, _. split; [reflexivity |].
    split; [apply reached_log, reached_marked, Hreach |].
    split; [reflexivity |]. split; [eexists; reflexivity |].
    split; [exact Hrange | reflexivity].
Qed.

Lemma final_call_counts reports final :
  is_on_progress final = false ->
  (completion_calls ((announcement :: map event_of reports) ++ [final])
   + error_calls ((announcement :: map event_of reports) ++ [final]) = 1)%nat.
Proof.
  intros H. unfold completion_calls, error_calls.
  rewrite !count_app. simpl. rewrite !count_reports by reflexivity.
  destruct final; simpl; [discriminate | reflexivity | reflexivity].
Qed.

(** X19.  A run of the worker on an existing record whose sinks return
    from every call.  If the engine call and the history store end by
    returning or by raising an instance of [Exception], the run returns
    normally and leaves the record in a terminal state with
    [completed_at] set and a progress within [0,100]; its sink calls
    are the CONNECTING announcement, one progress call per engine
    report in the engine's order, and then exactly one call of the
    completion sink or of the error sink, which is the last call.  If
    the engine call raises outside the [Exception] hierarchy
    ([KeyboardInterrupt], [SystemExit]), neither [except] clause
    applies: the exception leaves the worker, the record stays as the
    last report made it, still active, and neither the completion sink
    nor the error sink is invoked. *)
Theorem X19_worker_always_ends
    (self : Worker.Collaborators) (sinks : Worker.Sinks)
    (r : DownloadService.ref) (folder : Path) (w : DownloadService.World)
    (d : Download.t) (reports : list YtdlpAdapter.ProgressInfo)
    (result : Worker.Outcome Path) :
  DownloadService.objects w !! r = Some d ->
  (forall trace ev, sinks trace ev = None) ->
  engine_play self sinks folder d w = (reports, result) ->
  let calls := announcement :: map event_of reports in
  ((forall name, result <> Worker.Escaped (Worker.NotException name)) ->
   (forall add entry name,
      Worker.history_store self = Some add ->
      add entry <> Some (Worker.NotException name)) ->
   exists w' d' final,
     Worker._execute_download self sinks r folder w = (Worker.Returned (), w')
     /\ DownloadService.objects w' !! r = Some d'
     /\ Download.is_terminal d' = true
     /\ is_Some (Download.completed_at d')
     /\ in_range d'
     /\ DownloadService.sink_calls w'
        = (DownloadService.sink_calls w ++ calls ++ [final])%list
     /\ is_on_progress final = false
     /\ (completion_calls (calls ++ [final])
         + error_calls (calls ++ [final]) = 1)%nat)
  /\ (forall name,
        result = Worker.Escaped (Worker.NotException name) ->
        exists w',
          Worker._execute_download self sinks r folder w
          = (Worker.Escaped (Worker.NotException name), w')
          /\ reached w r (reported reports d) calls w'
          /\ Download.is_active (reported reports d) = true
          /\ completion_calls calls = 0%nat
          /\ error_calls calls = 0%nat).
Proof.
  intros Hr Hq Hplay calls.
  pose proof (reached_reported r d w reports Hr) as Hreach3.
  pose proof (reached_lookup _ _ _ _ _ Hreach3) as Hd3.
  destruct (reported_facts reports d) as (_ & Hrange & _ & _ & _ & Hactive).
  rewrite (worker_execute_download_run self sinks r folder w d Hr), Hq, Hplay.
  set (w3 := after_reports r reports (connecting r w)) in *.
  set (d3 := reported reports d) in *.
  assert (Hsummary :
    forall w' d' final,
      reached w r d' (calls ++ [final]) w' ->
      is_on_progress final = false ->
      DownloadService.objects w' !! r = Some d'
      /\ DownloadService.sink_calls w'
         = (DownloadService.sink_calls w ++ calls ++ [final])%list
      /\ is_on_progress final = false
      /\ (completion_calls (calls ++ [final])
          + error_calls (calls ++ [final]) = 1)%nat).
  { intros w' d' final Hreach Hfinal.
    split; [apply (reached_lookup _ _ _ _ _ Hreach) |].
    split; [destruct Hreach as (_ & _ & _ & _ & _ & H); exact H |].
    split; [exact Hfinal | apply final_call_counts, Hfinal]. }
  split.
  - intros Hresult Hstore.
    assert (Hcaught :
      forall e wX dX,
        reached w r dX calls wX -> in_range dX ->
        exists w' d' final,
          Worker.caught sinks r (Worker.AnException e) wX
          = (Worker.Returned (), w')
          /\ DownloadService.objects w' !! r = Some d'
          /\ Download.is_terminal d' = true
          /\ is_Some (Download.completed_at d')
          /\ in_range d'
          /\ DownloadService.sink_calls w'
             = (DownloadService.sink_calls w ++ calls ++ [final])%list
          /\ is_on_progress final = false
          /\ (completion_calls (calls ++ [final])
              + error_calls (calls ++ [final]) = 1)%nat).
    { intros e wX dX Hreach HrangeX.
      destruct (worker_caught_summary sinks w r dX calls wX e Hq Hreach HrangeX)
        as (w' & d' & final & Hrun & Hreach' & Hterm & Hstamp & Hrange' & Hfinal).
      destruct (Hsummary w' d' final Hreach' Hfinal) as (H1 & H2 & H3 & H4).
      exists w', d', final.
      split; [exact Hrun |]. split; [exact H1 |]. split; [exact Hterm |].
      split; [exact Hstamp |]. split; [exact Hrange' |].
      split; [exact H2 |]. split; [exact H3 | exact H4]. }
    destruct result as [p | [e | name]].
    + pose proof (reached_completed_world w r d3 calls w3 p Hreach3) as Hreach4.
      destruct (Worker.history_store self) as [add|] eqn:Hh.
      * destruct (add (HistoryEntry.from_download (Worker.isoformat self)
                         (completed_record p (DownloadService.clock w3) d3)))
          as [[e | name]|] eqn:Hadd.
        -- rewrite (worker_after_engine_refused self sinks r w3 d3 p add _
                      Hd3 Hh Hadd).
           apply Hcaught with (dX := completed_record p (DownloadService.clock w3) d3);
             [exact Hreach4 | unfold in_range; simpl; lia].
        -- exfalso. exact (Hstore add _ name eq_refl Hadd).
        -- rewrite (worker_after_engine_accepted self sinks r w3 d3 p Hd3)
             by (unfold history_accepts; rewrite Hh; exact Hadd).
           rewrite Hq.
           destruct (Hsummary _ _ _
                       (reached_log _ _ _ _ _
                          (DownloadService.on_complete r
                             (completed_record p (DownloadService.clock w3) d3))
                          (reached_recorded self _ _ _ _ _
                             (completed_record p (DownloadService.clock w3) d3)
                             Hreach4))
                       eq_refl) as (H1 & H2 & H3 & H4).
           eexists _, _, _. split; [reflexivity |].
           split; [exact H1 |]. split; [reflexivity |].
           split; [eexists; reflexivity |].
           split; [unfold in_range; simpl; lia |].
           split; [exact H2 |]. split; [exact H3 | exact H4].
      * rewrite (worker_after_engine_accepted self sinks r w3 d3 p Hd3)
          by (unfold history_accepts; rewrite Hh; exact I).
        rewrite Hq.
        destruct (Hsummary _ _ _
                    (reached_log _ _ _ _ _
                       (DownloadService.on_complete r
                          (completed_record p (DownloadService.clock w3) d3))
                       (reached_recorded self _ _ _ _ _
                          (completed_record p (DownloadService.clock w3) d3)
                          Hreach4))
                    eq_refl) as (H1 & H2 & H3 & H4).
        eexists _, _, _. split; [reflexivity |].
        split; [exact H1 |]. split; [reflexivity |].
        split; [eexists; reflexivity |].
        split; [unfold in_range; simpl; lia |].
        split; [exact H2 |]. split; [exact H3 | exact H4].
    + apply Hcaught with (dX := d3); assumption.
    + exfalso. exact (Hresult name eq_refl).
  - intros name ->. rewrite worker_caught_escapes.
    exists w3. split; [reflexivity |]. split; [exact Hreach3 |].
    split; [exact Hactive |]. apply trace_counts.
Qed.

Lemma X19_worker_always_ends_witness :
  (exists w' d',
     Worker._execute_download
       (sample_worker (Worker.Fail (Worker.AnException (Exception_ "boom"))))
       Worker.returning 0%nat "/output" sample_world
     = (Worker.Returned (), w')
     /\ DownloadService.objects w' !! 0%nat = Some d'
     /\ Download.is_terminal d' = true)
  /\ (exists w',
        Worker._execute_download
          (sample_worker (Worker.Fail (Worker.NotException "KeyboardInterrupt")))
          Worker.returning 0%nat "/output" sample_world
        = (Worker.Escaped (Worker.NotException "KeyboardInterrupt"), w')
        /\ DownloadService.objects w' !! 0%nat
           = Some (reported [sample_report] sample_download)
        /\ Download.status (reported [sample_report] sample_download)
           = DOWNLOADING).
Proof.
  split.
  - destruct (X19_worker_always_ends
                (sample_worker (Worker.Fail (Worker.AnException (Exception_ "boom"))))
                Worker.returning 0%nat "/output" sample_world sample_download
                [sample_report]
                (Worker.Escaped (Worker.AnException (Exception_ "boom"))))
      as (Hends & _).
    + reflexivity.
    + intros trace ev. reflexivity.
    + reflexivity.
    + destruct Hends as (w' & d' & final & Hrun & Hobj & Hterm & _).
      * intros name. discriminate.
      * intros add entry name H. injection H as <-. discriminate.
      * exists w', d'. repeat split; assumption.
  - destruct (X19_worker_always_ends
                (sample_worker
                   (Worker.Fail (Worker.NotException "KeyboardInterrupt")))
                Worker.returning 0%nat "/output" sample_world sample_download
                [sample_report]
                (Worker.Escaped (Worker.NotException "KeyboardInterrupt")))
      as (_ & Hescapes).
    + reflexivity.
    + intros trace ev. reflexivity.
    + reflexivity.
    + destruct (Hescapes "KeyboardInterrupt" eq_refl)
        as (w' & Hrun & Hreach & _).
      exists w'. split; [exact Hrun |].
      split; [destruct Hreach as (-> & _); apply lookup_insert_eq |].
      reflexivity.
Defined.

(** ** The two readings of the worker agree

    With sinks that return from every call, an engine that makes its
    reports and ends as scripted, and a history store that raises
    instances of [Exception] only, the worker read with raising sinks
    does what the worker of [DownloadService] does. *)
Lemma play_scripted sinks reports outcome : forall trace,
  Worker.play sinks trace (Worker.scripted reports outcome)
  = (reports, Worker.of_result outcome).
Proof.
  induction reports as [|x rest IH]; intros trace; simpl.
  - destruct outcome; reflexivity.
  - rewrite IH. reflexivity.
Qed.

Lemma worker_generalises self r folder w d :
  DownloadService.objects w !! r = Some d ->
  Worker._execute_download (Worker.generalise self) Worker.returning r folder w
  = (Worker.of_result (DownloadService._execute_download self r folder w).1,
     (DownloadService._execute_download self r folder w).2).
Proof.
  intros Hr.
  pose proof (engine_done_lookup self r folder d w Hr) as Hd3.
  rewrite (worker_execute_download_run _ _ r folder w d Hr).
  rewrite (execute_download_run self r folder w d Hr).
  unfold Worker.returning at 1. unfold engine_play, engine_of.
  cbn [Worker.generalise Worker.downloader_download].
  rewrite play_scripted.
  fold (engine_run self folder d). fold (engine_done self r folder d w).
  set (w3 := engine_done self r folder d w) in *.
  set (d3 := record_at_engine_end self folder d) in *.
  destruct (DownloadService.outcome (engine_run self folder d)) as [p|e];
    cbn [Worker.of_result].
  - destruct (DownloadService.history_store self) as [add|] eqn:Hh.
    + destruct (add (HistoryEntry.from_download (DownloadService.isoformat self)
                       (completed_record p (DownloadService.clock w3) d3)))
        as [e|] eqn:Hadd.
      * rewrite (worker_after_engine_refused (Worker.generalise self)
                   Worker.returning r w3 d3 p
                   (fun entry => option_map Worker.AnException (add entry))
                   (Worker.AnException e) Hd3)
          by (cbn; rewrite ?Hh, ?Hadd; reflexivity).
        destruct (exception_cases e) as [-> | He].
        -- rewrite (on_returned_history_cancelled self r w3 d3 p add Hd3 Hh Hadd).
           rewrite (worker_caught_cancelled Worker.returning r _ _
                      (completed_world_lookup r p w3 d3 Hd3)).
           reflexivity.
        -- rewrite (on_returned_history_raises self r w3 d3 p add e Hd3 Hh Hadd He).
           rewrite (worker_caught_failed Worker.returning r _ e He).
           reflexivity.
      * rewrite (worker_after_engine_accepted (Worker.generalise self)
                   Worker.returning r w3 d3 p Hd3)
          by (unfold history_accepts; cbn; rewrite Hh; cbn; rewrite Hadd;
              reflexivity).
        rewrite (on_returned_history_records self r w3 d3 p add Hd3 Hh Hadd).
        unfold recorded. cbn. rewrite Hh. reflexivity.
    + rewrite (worker_after_engine_accepted (Worker.generalise self)
                 Worker.returning r w3 d3 p Hd3)
        by (unfold history_accepts; cbn; rewrite Hh; exact I).
      rewrite (on_returned_without_history self r w3 d3 p Hd3 Hh).
      unfold recorded. cbn. rewrite Hh. reflexivity.
  - destruct (exception_cases e) as [-> | He].
    + rewrite (on_cancelled self r w3 d3 Hd3).
      rewrite (worker_caught_cancelled Worker.returning r w3 d3 Hd3).
      reflexivity.
    + rewrite (on_failed self r w3 e He).
      rewrite (worker_caught_failed Worker.returning r w3 e He).
      reflexivity.
Qed.

(** X20.  A run of the worker changes one record only: every other
    record is as before, no record is created or removed, and the
    coordinator's slot, its started threads and the engine's cancel
    count are untouched.  Of its own record it keeps the id, the URL,
    the format and the start time. *)
Theorem X20_worker_frame
    (self : DownloadService.Collaborators) (r r' : DownloadService.ref)
    (folder : Path) (w : DownloadService.World) (d : Download.t) :
  DownloadService.objects w !! r = Some d ->
  exists w' d',
    DownloadService._execute_download self r folder w = (Ok (), w')
    /\ DownloadService.objects w' !! r = Some d'
    /\ same_identity d d'
    /\ (r' <> r ->
        DownloadService.objects w' !! r' = DownloadService.objects w !! r')
    /\ dom (DownloadService.objects w') = dom (DownloadService.objects w)
    /\ DownloadService._current_download w' = DownloadService._current_download w
    /\ DownloadService.threads w' = DownloadService.threads w
    /\ DownloadService.cancel_calls w' = DownloadService.cancel_calls w.
Proof.
  intros Hr.
  destruct (execute_download_summary self r folder w d Hr)
    as (w' & d' & final & Hrun & Hreach & _ & _ & Hid & _).
  exists w', d'.
  split; [exact Hrun |]. split; [apply (reached_lookup _ _ _ _ _ Hreach) |].
  split; [exact Hid |].
  destruct Hreach as (Hobj & Hcur & Hthreads & Hcancel & _).
  rewrite Hobj. split; [| split; [| repeat split; assumption]].
  - intros Hne. apply lookup_insert_ne. congruence.
  - rewrite dom_insert_L.
    apply subseteq_union_1_L, singleton_subseteq_l.
    apply elem_of_dom. eexists. exact Hr.
Qed.

Lemma X20_worker_frame_witness :
  exists w' d',
    DownloadService._execute_download
      (sample_service None (Ok "/output/video.mp4")) 0%nat "/output"
      sample_world = (Ok (), w')
    /\ DownloadService.objects w' !! 0%nat = Some d'
    /\ same_identity sample_download d'
    /\ DownloadService._current_download w' = Some 0%nat.
Proof.
  destruct (X20_worker_frame
              (sample_service None (Ok "/output/video.mp4")) 0%nat 1%nat
              "/output" sample_world sample_download)
    as (w' & d' & Hrun & Hobj & Hid & _ & _ & Hcur & _).
  - reflexivity.
  - exists w', d'. repeat split; try assumption; apply Hid.
Defined.

(** ** Admission *)

Lemma idle_is_not_active w :
  idle w -> DownloadService.current_is_active w = (Ok false, w).
Proof.
  unfold idle, DownloadService.current_is_active.
  destruct (DownloadService._current_download w) as [r0|]; [| reflexivity].
  intros (d0 & Hd0 & Ht).
  unfold DownloadService.bind, DownloadService.read. rewrite Hd0.
  unfold DownloadService.ret. rewrite is_active_not_terminal, Ht. reflexivity.
Qed.

(** X21.  With no job running, [start_download] rejects an input the
    validator refuses, and then a folder that cannot be written, in that
    order: it returns [None] and invokes the error sink once, with the
    validator's message or with the permission message; no record is
    built, no id is drawn, the slot is unchanged and no thread starts. *)
Theorem X21_start_rejects_bad_input
    (self : DownloadService.Collaborators) (url : string) (folder : Path)
    (format : DownloadFormat) (w : DownloadService.World) :
  idle w ->
  (Validators.is_valid (DownloadService.validator_validate self url) = false ->
   DownloadService.start_download self url folder format w
   = (Ok None,
      DownloadService.log
        (DownloadService.on_error
           (Validators.error_message
              (DownloadService.validator_validate self url))) w))
  /\ (Validators.is_valid (DownloadService.validator_validate self url) = true ->
      DownloadService.file_system_can_write self folder = false ->
      DownloadService.start_download self url folder format w
      = (Ok None,
         DownloadService.log (DownloadService.on_error no_permission) w)).
Proof.
  intros Hidle. apply idle_is_not_active in Hidle.
  split.
  - intros Hv. unfold DownloadService.start_download, DownloadService.bind at 1.
    rewrite Hidle, Hv. reflexivity.
  - intros Hv Hw. unfold DownloadService.start_download, DownloadService.bind at 1.
    rewrite Hidle, Hv, Hw. reflexivity.
Qed.

Lemma X21_start_rejects_witness :
  DownloadService.start_download
    (DownloadService.mkCollaborators
       (Validators.validate Validators.urlparse_model Validators.NotInstalled)
       (fun _ => false)
       (fun _ _ _ => DownloadService.mkEngineRun [] (Ok "/output/video.mp4"))
       None (fun n => pretty n) (fun t => pretty t))
    "ftp://x.com" "/restricted" VIDEO empty_world
  = (Ok None,
     DownloadService.log
       (DownloadService.on_error
          "La URL ingresada no es válida. Por favor verifica e intenta de nuevo.")
       empty_world)
  /\ DownloadService.start_download
       (DownloadService.mkCollaborators
          (Validators.validate Validators.urlparse_model Validators.NotInstalled)
          (fun _ => false)
          (fun _ _ _ => DownloadService.mkEngineRun [] (Ok "/output/video.mp4"))
          None (fun n => pretty n) (fun t => pretty t))
       "https://x.com/a" "/restricted" VIDEO empty_world
     = (Ok None,
        DownloadService.log (DownloadService.on_error no_permission) empty_world).
Proof.
  split.
  - destruct (X21_start_rejects_bad_input
                (DownloadService.mkCollaborators
                   (Validators.validate Validators.urlparse_model
                                        Validators.NotInstalled)
                   (fun _ => false)
                   (fun _ _ _ =>
                      DownloadService.mkEngineRun [] (Ok "/output/video.mp4"))
                   None (fun n => pretty n) (fun t => pretty t))
                "ftp://x.com" "/restricted" VIDEO empty_world)
      as (Hinvalid & _); [exact I |].
    apply Hinvalid. reflexivity.
  - destruct (X21_start_rejects_bad_input
                (DownloadService.mkCollaborators
                   (Validators.validate Validators.urlparse_model
                                        Validators.NotInstalled)
                   (fun _ => false)
                   (fun _ _ _ =>
                      DownloadService.mkEngineRun [] (Ok "/output/video.mp4"))
                   None (fun n => pretty n) (fun t => pretty t))
                "https://x.com/a" "/restricted" VIDEO empty_world)
      as (_ & Hfolder); [exact I |].
    apply Hfolder; reflexivity.
Defined.

(** X22.  With no job running, a valid URL and a writable folder,
    [start_download] returns a new record: PENDING, progress 0, the given
    URL and format, a freshly drawn id and the current time, and as its
    placeholder path [output_folder / "downloading"], joined as pathlib
    joins paths of the POSIX flavour.  The record is a new object, so
    every existing record, a superseded terminal one included, is left
    as it was; it becomes the current record, one thread is started for
    it, and no sink is invoked. *)
Theorem X22_start_admits
    (self : DownloadService.Collaborators) (url : string) (folder : Path)
    (format : DownloadFormat) (w : DownloadService.World)
    (r' : DownloadService.ref) :
  idle w ->
  Validators.is_valid (DownloadService.validator_validate self url) = true ->
  DownloadService.file_system_can_write self folder = true ->
  exists r w',
    DownloadService.start_download self url folder format w = (Ok (Some r), w')
    /\ DownloadService.objects w !! r = None
    /\ DownloadService.objects w' !! r
       = Some (new_record self url folder format w)
    /\ (is_Some (DownloadService.objects w !! r') ->
        DownloadService.objects w' !! r' = DownloadService.objects w !! r')
    /\ DownloadService._current_download w' = Some r
    /\ DownloadService.threads w'
       = (DownloadService.threads w ++ [DownloadService.mkThread r folder])%list
    /\ DownloadService.sink_calls w' = DownloadService.sink_calls w
    /\ DownloadService.cancel_calls w' = DownloadService.cancel_calls w.
Proof.
  intros Hidle Hvalid Hwrite.
  eexists _, _.
  split; [apply (start_download_accepts self url folder format w Hidle Hvalid Hwrite) |].
  assert (Hfresh : DownloadService.objects w
                   !! fresh (dom (DownloadService.objects w)) = None).
  { apply not_elem_of_dom, is_fresh. }
  split; [exact Hfresh |]. simpl.
  split; [apply lookup_insert_eq |].
  split; [| repeat split].
  intros [d0 Hd0]. apply lookup_insert_ne. intros <-. congruence.
Qed.

Lemma X22_start_admits_witness :
  exists r w',
    DownloadService.start_download
      (sample_service None (Ok "/output/video.mp4"))
      "https://www.youtube.com/watch?v=test" "/output" AUDIO empty_world
    = (Ok (Some r), w')
    /\ DownloadService.objects w' !! r
       = Some (new_record (sample_service None (Ok "/output/video.mp4"))
                 "https://www.youtube.com/watch?v=test" "/output" AUDIO
                 empty_world)
    /\ DownloadService._current_download w' = Some r
    /\ Download.output_path
         (new_record (sample_service None (Ok "/output/video.mp4"))
            "https://www.youtube.com/watch?v=test" "/output" AUDIO empty_world)
       = "/output/downloading"
    /\ Download.output_path
         (new_record (sample_service None (Ok "/output/video.mp4"))
            "https://www.youtube.com/watch?v=test" "/" AUDIO empty_world)
       = "/downloading"
    /\ Download.output_path
         (new_record (sample_service None (Ok "/output/video.mp4"))
            "https://www.youtube.com/watch?v=test" "." AUDIO empty_world)
       = "downloading".
Proof.
  destruct (X22_start_admits (sample_service None (Ok "/output/video.mp4"))
              "https://www.youtube.com/watch?v=test" "/output" AUDIO
              empty_world 0%nat)
    as (r & w' & Hrun & _ & Hobj & _ & Hcur & _).
  - exact I.
  - reflexivity.
  - reflexivity.
  - exists r, w'.
    split; [exact Hrun |]. split; [exact Hobj |]. split; [exact Hcur |].
    split; [vm_compute; reflexivity |].
    split; vm_compute; reflexivity.
Defined.

(** ** A whole job *)




(** ** From the engine's hook to the record *)



(** ** The validator's results *)

Lemma any_suitable_false extractors url :
  Validators.any_suitable extractors url = Ok false <->
  Forall (fun e => Validators.has_suitable e = true ->
                   Validators.suitable e url = Ok false) extractors.
Proof.
  induction extractors as [|e rest IH]; simpl.
  - split; [constructor | reflexivity].
  - destruct (Validators.has_suitable e) eqn:Hh.
    + destruct (Validators.suitable e url) as [[|]|x] eqn:Hs.
      * split; [discriminate |]. intros H. inversion H as [|? ? Hhead _]; subst.
        specialize (Hhead Hh). congruence.
      * rewrite IH. split.
        -- intros H. constructor; [intros _; exact Hs | exact H].
        -- intros H. inversion H; assumption.
      * split; [discriminate |]. intros H. inversion H as [|? ? Hhead _]; subst.
        specialize (Hhead Hh). congruence.
    + rewrite IH. split.
      * intros H. constructor; [intros Hx; congruence | exact H].
      * intros H. inversion H; assumption.
Qed.

(** X25.  [_is_site_supported] answers [False] only when yt-dlp could be
    imported, its extractors could be listed, and every extractor that
    has a [suitable] method answered [False] for the URL without
    raising; in every other case (a match, or a failure anywhere before
    a match) it answers [True]. *)
Theorem X25_site_unsupported_only_after_a_full_scan
    (yt_dlp : Validators.Registry) (url : string) :
  Validators._is_site_supported yt_dlp url = false <->
  exists extractors,
    yt_dlp = Validators.Installed (Ok extractors)
    /\ Forall (fun e => Validators.has_suitable e = true ->
                        Validators.suitable e url = Ok false) extractors.
Proof.
  unfold Validators._is_site_supported. split.
  - destruct yt_dlp as [|[extractors|x]]; try discriminate.
    destruct (Validators.any_suitable extractors url) as [[|]|x] eqn:E;
      try discriminate.
    intros _. exists extractors. split; [reflexivity |].
    apply any_suitable_false, E.
  - intros (extractors & -> & H). apply any_suitable_false in H.
    rewrite H. reflexivity.
Qed.

(** X26.  The shape of every validation result: an accepted input has an
    empty message and an empty code; a rejected input always has a
    message and one of the three codes; and the code UNSUPPORTED_SITE is
    given only to a well-formed input that the registry, scanned in full
    without error, did not match. *)
Theorem X26_validation_result_shape
    (urlparse : string -> Result Validators.ParseResult)
    (yt_dlp : Validators.Registry) (url : string) :
  let result := Validators.validate urlparse yt_dlp url in
  (Validators.is_valid result = true ->
   Validators.error_message result = "" /\ Validators.error_code result = "")
  /\ (Validators.is_valid result = false ->
      Validators.error_message result <> ""
      /\ (Validators.reason_code_of result = Some Validators.EMPTY
          \/ Validators.reason_code_of result = Some Validators.MALFORMED
          \/ Validators.reason_code_of result = Some Validators.UNSUPPORTED_SITE))
  /\ (Validators.reason_code_of result = Some Validators.UNSUPPORTED_SITE ->
      Validators._is_site_supported yt_dlp (Validators.strip url) = false
      /\ exists parsed,
           urlparse (Validators.strip url) = Ok parsed
           /\ In (Validators.scheme parsed) Validators.ALLOWED_SCHEMES
           /\ Validators.netloc parsed <> "").
Proof.
  cbv zeta. unfold Validators.validate.
  destruct (String.eqb url "" || String.eqb (Validators.strip url) "");
    [repeat split; try discriminate; left; reflexivity |].
  destruct (urlparse (Validators.strip url)) as [parsed|x];
    [| repeat split; try discriminate; right; left; reflexivity].
  destruct (existsb (String.eqb (Validators.scheme parsed))
                    Validators.ALLOWED_SCHEMES) eqn:Hs; simpl;
    [| repeat split; try discriminate; right; left; reflexivity].
  destruct (String.eqb_spec (Validators.netloc parsed) "") as [Hn|Hn];
    [repeat split; try discriminate; right; left; reflexivity |].
  destruct (Validators._is_site_supported yt_dlp (Validators.strip url)); simpl.
  - repeat split; discriminate.
  - split; [discriminate |]. split.
    + intros _. split; [discriminate | right; right; reflexivity].
    + intros _. split; [reflexivity |]. exists parsed.
      split; [reflexivity |]. split; [| exact Hn].
      apply (allowed_scheme_spec (Validators.scheme parsed)), Hs.
Qed.

Lemma X26_validation_result_witness :
  Validators.error_message
    (Validators.validate Validators.urlparse_model
       (Validators.Installed (Ok [])) "https://example.com/video.mp4") <> ""
  /\ (Validators.reason_code_of
        (Validators.validate Validators.urlparse_model
           (Validators.Installed (Ok [])) "https://example.com/video.mp4")
      = Some Validators.EMPTY
      \/ Validators.reason_code_of
           (Validators.validate Validators.urlparse_model
              (Validators.Installed (Ok [])) "https://example.com/video.mp4")
         = Some Validators.MALFORMED
      \/ Validators.reason_code_of
           (Validators.validate Validators.urlparse_model
              (Validators.Installed (Ok [])) "https://example.com/video.mp4")
         = Some Validators.UNSUPPORTED_SITE).
Proof.
  destruct (X26_validation_result_shape Validators.urlparse_model
              (Validators.Installed (Ok [])) "https://example.com/video.mp4")
    as (_ & Hrejected & _).
  apply Hrejected. reflexivity.
Defined.

(** X27.  The adapter's [validate_url] and the validator's
    [_is_site_supported] read the same registry and agree whenever it
    works; they differ exactly when it fails: the validator then accepts
    the URL, the adapter rejects it with the failure's text.  So whatever
    [validate_url] accepts, the validator accepts too. *)
Theorem X27_adapter_is_strict_where_validator_is_permissive
    (import_error : PyExc) (yt_dlp : Validators.Registry) (url : string) :
  ((YtdlpAdapterUrl.validate_url import_error yt_dlp url).1 = true ->
   Validators._is_site_supported yt_dlp url = true
   /\ (YtdlpAdapterUrl.validate_url import_error yt_dlp url).2 = "")
  /\ ((YtdlpAdapterUrl.validate_url import_error yt_dlp url).1
      <> Validators._is_site_supported yt_dlp url
      <-> registry_fails yt_dlp url).
Proof.
  unfold YtdlpAdapterUrl.validate_url, Validators._is_site_supported,
    registry_fails.
  destruct yt_dlp as [|[extractors|x]]; simpl.
  - split; [discriminate |]. split; [auto | discriminate].
  - destruct (Validators.any_suitable extractors url) as [[|]|x] eqn:E; simpl.
    + split; [auto |]. split; [congruence |].
      intros [H | [(e & H) | (exs & e & H & H')]]; try discriminate.
      inversion H; subst. congruence.
    + split; [discriminate |]. split; [congruence |].
      intros [H | [(e & H) | (exs & e & H & H')]]; try discriminate.
      inversion H; subst. congruence.
    + split; [discriminate |]. split; [| discriminate].
      intros _. right. right. exists extractors, x. auto.
  - split; [discriminate |]. split; [| discriminate].
    intros _. right. left. exists x. reflexivity.
Qed.

Lemma X27_adapter_is_strict_witness :
  Validators._is_site_supported
    (Validators.Installed
       (Ok [Validators.mkExtractor true (fun _ => Ok true)]))
    "https://vimeo.com/123456789" = true
  /\ (YtdlpAdapterUrl.validate_url (ImportError "No module named 'yt_dlp'")
        (Validators.Installed
           (Ok [Validators.mkExtractor true (fun _ => Ok true)]))
        "https://vimeo.com/123456789").2 = "".
Proof.
  destruct (X27_adapter_is_strict_where_validator_is_permissive
              (ImportError "No module named 'yt_dlp'")
              (Validators.Installed
                 (Ok [Validators.mkExtractor true (fun _ => Ok true)]))
              "https://vimeo.com/123456789") as (Haccepts & _).
  apply Haccepts. reflexivity.
Defined.

Lemma X25_site_unsupported_witness :
  Validators._is_site_supported
    (Validators.Installed
       (Ok [Validators.mkExtractor false (fun _ => Raise (Exception_ "unused"));
            Validators.mkExtractor true (fun _ => Ok false)]))
    "https://example.com/video.mp4" = false.
Proof.
  apply (X25_site_unsupported_only_after_a_full_scan
           (Validators.Installed
              (Ok [Validators.mkExtractor false
                     (fun _ => Raise (Exception_ "unused"));
                   Validators.mkExtractor true (fun _ => Ok false)]))
           "https://example.com/video.mp4").
  eexists. split; [reflexivity |].
  repeat constructor; discriminate.
Defined.
